(** * json-comments: comment stripping for JSON text

    A shallow embedding of [json_comments.ipynb] (classes [cJSONStr] and
    [cJSONFile]) together with the properties stated about them.

    Text is a list of characters.  A character is a code point below 256
    ([ascii]); Python's [str] methods used by the code ([strip],
    [startswith], [in], [join]) and the part of the [re] module it relies on
    ([re.split] over a pattern without empty matches) are written out
    below. *)

From Stdlib Require Import List Ascii Bool Arith Lia.
From Stdlib Require String.
Import ListNotations.
Import String.StringSyntax.
Delimit Scope string_scope with string.

(** ** Characters and text *)

Definition text := list ascii.

Definition LF : ascii := ascii_of_nat 10.
Definition CR : ascii := ascii_of_nat 13.
Definition TAB : ascii := ascii_of_nat 9.
Definition SP : ascii := ascii_of_nat 32.
Definition DQ : ascii := ascii_of_nat 34.
Definition SQ : ascii := ascii_of_nat 39.
Definition HASH : ascii := ascii_of_nat 35.
Definition SLASH : ascii := ascii_of_nat 47.
Definition BSLASH : ascii := ascii_of_nat 92.
Definition BQUOTE : ascii := ascii_of_nat 96.
Definition NUL : ascii := ascii_of_nat 0.

#[global] Opaque LF CR TAB SP DQ SQ HASH SLASH.

(** [py s] reads a literal written the Python way: backslash followed by
    [n], [t] or [r] is the line feed, the tab or the carriage return, and a
    backquote stands for the double quote. *)
Fixpoint unescape (s : text) : text :=
  match s with
  | [] => []
  | c :: t =>
      if Ascii.eqb c BQUOTE then DQ :: unescape t
      else if Ascii.eqb c BSLASH then
        match t with
        | d :: u =>
            if Ascii.eqb d "n"%char then LF :: unescape u
            else if Ascii.eqb d "t"%char then TAB :: unescape u
            else if Ascii.eqb d "r"%char then CR :: unescape u
            else c :: unescape t
        | [] => [c]
        end
      else c :: unescape t
  end.

Definition py (s : String.string) : text :=
  unescape (String.list_ascii_of_string s).

(** [str.strip(chars)]: leading and trailing characters that satisfy [p]
    are removed. *)
Fixpoint lstrip (p : ascii -> bool) (s : text) : text :=
  match s with
  | [] => []
  | c :: t => if p c then lstrip p t else s
  end.

Definition rstrip (p : ascii -> bool) (s : text) : text :=
  rev (lstrip p (rev s)).

Definition strip (p : ascii -> bool) (s : text) : text :=
  rstrip p (lstrip p s).

(** The one-character set of [strip] called with a single blank. *)
Definition is_blank (c : ascii) : bool := Ascii.eqb c SP.

(** The characters [str.strip()] removes ([str.isspace]) among the code
    points below 256: 9 to 13, 28 to 32, 133 and 160. *)
Definition is_space (c : ascii) : bool :=
  let n := nat_of_ascii c in
  ((9 <=? n) && (n <=? 13)) || ((28 <=? n) && (n <=? 32))
  || (n =? 133) || (n =? 160).

(** [s.startswith(prefix)]. *)
Fixpoint startswith (s prefix : text) {struct prefix} : bool :=
  match prefix, s with
  | [], _ => true
  | _ :: _, [] => false
  | a :: p, c :: t => Ascii.eqb a c && startswith t p
  end.

(** [sub in s] for strings. *)
Fixpoint contains (sub s : text) : bool :=
  startswith s sub ||
  match s with
  | [] => false
  | _ :: t => contains sub t
  end.

(** [join] on the empty separator. *)
Definition join (parts : list text) : text := concat parts.

(** ** The part of [re] used by the code *)

Module Re.

(** One-character items of a pattern: a literal character, [.] (without
    [DOTALL]: anything but the line feed) and a negated class. *)
Inductive cset : Type :=
| Chr (c : ascii)
| Dot
| NoneOf (cs : list ascii).

Definition cset_mem (k : cset) (c : ascii) : bool :=
  match k with
  | Chr a => Ascii.eqb a c
  | Dot => negb (Ascii.eqb c LF)
  | NoneOf cs => negb (existsb (Ascii.eqb c) cs)
  end.

(** Patterns: one item, a greedy starred item, sequence and ordered
    alternation. *)
Inductive re : Type :=
| One (k : cset)
| Star (k : cset)
| Seq (a b : re)
| Alt (a b : re).

(** A match result: the matched text and what follows it. *)
Definition result : Type := (text * text)%type.

Definition consume (c : ascii) (r : option result) : option result :=
  match r with
  | Some (m, rest) => Some (c :: m, rest)
  | None => None
  end.

(** Greedy repetition with backtracking: take as many items as possible,
    then give back one at a time until the continuation [k] succeeds. *)
Fixpoint star (cls : cset) (s : text) (k : text -> option result)
  : option result :=
  match s with
  | [] => k []
  | c :: t =>
      if cset_mem cls c then
        match star cls t k with
        | Some r => consume c (Some r)
        | None => k s
        end
      else k s
  end.

(** The backtracking matcher: [run r s k] matches [r] at the start of [s]
    and hands the remaining text to [k]; alternatives are tried in order
    and the first overall success wins. *)
Fixpoint run (r : re) (s : text) (k : text -> option result)
  : option result :=
  match r with
  | One cls =>
      match s with
      | c :: t => if cset_mem cls c then consume c (k t) else None
      | [] => None
      end
  | Star cls => star cls s k
  | Seq a b => run a s (fun t => run b t k)
  | Alt a b =>
      match run a s k with
      | Some x => Some x
      | None => run b s k
      end
  end.

(** [re.match]: a match anchored at the start of [s]. *)
Definition match_ (r : re) (s : text) : option result :=
  run r s (fun t => Some ([], t)).

(** [re.search]: the leftmost match, as (text before, match, text
    after). *)
Fixpoint search (r : re) (s : text) : option (text * text * text) :=
  match match_ r s with
  | Some (m, rest) => Some ([], m, rest)
  | None =>
      match s with
      | [] => None
      | c :: t =>
          match search r t with
          | Some (pre, m, rest) => Some (c :: pre, m, rest)
          | None => None
          end
      end
  end.

(** [re.split] for a pattern that is one capturing group: at most [n]
    splits; the text between matches and each matched group alternate, and
    what is left after the last split is the final element. *)
Fixpoint split_n (r : re) (n : nat) (s : text) : list text :=
  match n with
  | 0 => [s]
  | S n' =>
      match search r s with
      | None => [s]
      | Some (pre, m, rest) => pre :: m :: split_n r n' rest
      end
  end.

(** [re.split(pattern, string, maxsplit)].  [maxsplit = 0] means no limit;
    a pattern whose matches are never empty splits a text at most
    [length s] times, which bounds the unlimited case. *)
Definition split (r : re) (s : text) (maxsplit : nat) : list text :=
  match maxsplit with
  | 0 => split_n r (length s) s
  | S _ => split_n r maxsplit s
  end.

(** Flag constants of the module ([re.MULTILINE] is the integer 8). *)
Definition MULTILINE : nat := 8.

End Re.

(** ** [class cJSONStr(str)] *)

Module cJSONStr.

Import Re.

(** The pattern of [re.split]: one group of four alternatives,
    [DQ .* DQ], ['.*'], [#[^\r\n]*] and [//[^\r\n]*], where [DQ] is the
    double quote. *)
Definition PATTERN : re :=
  Alt (Seq (One (Chr DQ)) (Seq (Star Dot) (One (Chr DQ))))
 (Alt (Seq (One (Chr SQ)) (Seq (Star Dot) (One (Chr SQ))))
 (Alt (Seq (One (Chr HASH)) (Star (NoneOf [CR; LF])))
      (Seq (One (Chr SLASH)) (Seq (One (Chr SLASH)) (Star (NoneOf [CR; LF])))))).

(** The test of the comprehension: [p] starts with two slashes or with a
    hash. *)
Definition is_marked (p : text) : bool :=
  startswith p [SLASH; SLASH] || startswith p [HASH].

(** [_clean(cjson_str)].  The third positional argument of [re.split] is
    [maxsplit], so [re.MULTILINE] limits the number of splits to 8. *)
Definition _clean (cjson_str : text) : text :=
  let parts := split PATTERN cjson_str MULTILINE in
  join (map (strip is_blank) (filter (fun p => negb (is_marked p)) parts)).

(** [__new__(cls, cjson_str)]: the string value built from the cleaned
    text. *)
Definition __new__ (cjson_str : text) : text := _clean cjson_str.

End cJSONStr.

(** ** The built-in [open] and text file objects *)

Module Io.

Local Open Scope string_scope.

(** Exceptions raised by the code and by the built-ins it calls. *)
Inductive exn : Type :=
| ValueError
| AttributeError
| TypeError
| StopIteration
| FileNotFoundError
| FileExistsError
| LookupError
| UnsupportedOperation.

Fixpoint text_eqb (a b : text) : bool :=
  match a, b with
  | [], [] => true
  | x :: a', y :: b' => Ascii.eqb x y && text_eqb a' b'
  | _, _ => false
  end.

(** The file system: paths with their contents. *)
Definition fs : Type := list (text * text).

Fixpoint fs_get (d : fs) (path : text) : option text :=
  match d with
  | [] => None
  | (p, c) :: d' => if text_eqb p path then Some c else fs_get d' path
  end.

Fixpoint fs_put (d : fs) (path content : text) : fs :=
  match d with
  | [] => [(path, content)]
  | (p, c) :: d' =>
      if text_eqb p path then (p, content) :: d'
      else (p, c) :: fs_put d' path content
  end.

(** What happened to files, oldest first: a file opened with a mode and
    an encoding ([None] in a binary mode or when none was given), a file
    closed. *)
Inductive event : Type :=
| Opened (path mode : text) (encoding : option text)
| Closed (path : text).

(** The world outside the program: the files with their contents as text,
    the names the codec registry resolves to a text encoding, and what
    happened to files so far. *)
Record world : Type := {
  w_fs : fs; w_codecs : text -> bool; w_log : list event }.

Definition log (e : event) (w : world) : world :=
  {| w_fs := w_fs w; w_codecs := w_codecs w; w_log := w_log w ++ [e] |}.

Definition write_fs (d : fs) (w : world) : world :=
  {| w_fs := d; w_codecs := w_codecs w; w_log := w_log w |}.

(** The flags [open] reads off a mode string. *)
Record flags : Type := {
  creating : bool; reading : bool; writing : bool; appending : bool;
  updating : bool; as_text : bool; binary : bool }.

Definition has (c : ascii) (m : text) : bool := existsb (Ascii.eqb c) m.

Fixpoint no_repeat (m : text) : bool :=
  match m with
  | [] => true
  | c :: t => negb (has c t) && no_repeat t
  end.

Definition one_of (a b c d : bool) : bool :=
  match a, b, c, d with
  | true, false, false, false
  | false, true, false, false
  | false, false, true, false
  | false, false, false, true => true
  | _, _, _, _ => false
  end.

(** Mode validation of [open]: only the letters [x r w a + t b], none
    twice, not both [t] and [b], exactly one of [x r w a]. *)
Definition parse_mode (m : text) : option flags :=
  let fl := {| creating := has "x"%char m; reading := has "r"%char m;
               writing := has "w"%char m; appending := has "a"%char m;
               updating := has "+"%char m; as_text := has "t"%char m;
               binary := has "b"%char m |} in
  if forallb (fun c => has c (py "xrwa+tb")) m && no_repeat m
     && negb (as_text fl && binary fl)
     && one_of (creating fl) (reading fl) (writing fl) (appending fl)
  then Some fl else None.

(** Universal newlines (the default [newline=None] of text mode): on
    reading, a carriage return with or without a line feed after it becomes
    one line feed. *)
Fixpoint universal_newlines (s : text) : text :=
  match s with
  | [] => []
  | c :: t =>
      if Ascii.eqb c CR then
        LF :: match t with
              | d :: u =>
                  if Ascii.eqb d LF then universal_newlines u
                  else universal_newlines t
              | [] => []
              end
      else c :: universal_newlines t
  end.

(** The lines of a file: each one ends with its line feed, except a last
    line that has none. *)
Fixpoint splitlines (s : text) : list text :=
  match s with
  | [] => []
  | c :: t =>
      if Ascii.eqb c LF then [c] :: splitlines t
      else match splitlines t with
           | [] => [[c]]
           | l :: ls => (c :: l) :: ls
           end
  end.

(** An open file object: its metadata and the lines not read yet. *)
Record file : Type := {
  f_name : text; f_mode : text; f_encoding : option text;
  f_binary : bool; f_readable : bool;
  f_lines : list text; f_closed : bool }.

Definition set_lines (f : file) (ls : list text) : file :=
  {| f_name := f_name f; f_mode := f_mode f; f_encoding := f_encoding f;
     f_binary := f_binary f; f_readable := f_readable f;
     f_lines := ls; f_closed := f_closed f |}.

Definition is_some {A : Type} (o : option A) : bool :=
  match o with Some _ => true | None => false end.

(** Whether [open] can use the encoding: none given (the locale's is
    taken), or a name without null character that the registry
    resolves. *)
Definition resolves (w : world) (encoding : option text) : bool :=
  match encoding with
  | None => true
  | Some e => negb (has NUL e) && w_codecs w e
  end.

(** The [mode] attribute of a binary file: the mode in the spelling of the
    raw file, whatever the order of the letters given to [open]; a file
    opened with [w+] reports [rb+]. *)
Definition binary_mode (fl : flags) : text :=
  if creating fl then (if updating fl then py "xb+" else py "xb")
  else if appending fl then (if updating fl then py "ab+" else py "ab")
  else if reading fl || updating fl then
    (if writing fl || updating fl then py "rb+" else py "rb")
  else py "wb".

(** The file itself, opened in the file system: the content ahead and the
    world after.  [r] needs an existing file, [x] a missing one; [w] and
    [x] start from an empty file and [a] is positioned at the end, so only
    [r] has content ahead to read. *)
Definition open_raw (path mode : text) (encoding : option text)
           (fl : flags) (w : world) : (exn + text) * world :=
  let opened := log (Opened path mode encoding) in
  match fs_get (w_fs w) path with
  | Some content =>
      if reading fl then (inr content, opened w)
      else if creating fl then (inl FileExistsError, w)
      else if writing fl then
        (inr [], opened (write_fs (fs_put (w_fs w) path []) w))
      else (inr [], opened w)
  | None =>
      if reading fl then (inl FileNotFoundError, w)
      else (inr [], opened (write_fs (fs_put (w_fs w) path []) w))
  end.

(** [open(path, mode, encoding=encoding)].  An encoding name with a null
    character is refused when the arguments are read; then the mode is
    validated, and a binary mode given an encoding refused; then the file
    is opened, created or truncated; last, in a text mode, the encoding
    is looked up, and the file closed again when the lookup fails. *)
Definition open (path mode : text) (encoding : option text) (w : world)
  : (exn + file) * world :=
  if match encoding with Some e => has NUL e | None => false end
  then (inl ValueError, w)
  else
    match parse_mode mode with
    | None => (inl ValueError, w)
    | Some fl =>
        if binary fl && is_some encoding then (inl ValueError, w)
        else
          match open_raw path mode encoding fl w with
          | (inl e, w') => (inl e, w')
          | (inr content, w') =>
              if binary fl || resolves w encoding then
                (inr {| f_name := path;
                        f_mode := if binary fl then binary_mode fl else mode;
                        f_encoding := encoding;
                        f_binary := binary fl;
                        f_readable := reading fl || updating fl;
                        f_lines := splitlines
                                     (if binary fl then content
                                      else universal_newlines content);
                        f_closed := false |},
                 w')
              else (inl LookupError, log (Closed path) w')
          end
    end.

(** [next(f)] on a file object. *)
Definition next (f : file) : exn + (text * file) :=
  if f_closed f then inl ValueError
  else if negb (f_readable f) then inl UnsupportedOperation
  else match f_lines f with
       | [] => inl StopIteration
       | l :: ls => inr (l, set_lines f ls)
       end.

(** [f.close()]. *)
Definition close (f : file) (w : world) : file * world :=
  ({| f_name := f_name f; f_mode := f_mode f; f_encoding := f_encoding f;
      f_binary := f_binary f; f_readable := f_readable f;
      f_lines := f_lines f; f_closed := true |},
   if f_closed f then w else log (Closed (f_name f)) w).

(** Attribute values handed out by [getattr]: a string, a truth value,
    [None], a method of the object by its name, and any other attribute
    of the object by its name, its value left open. *)
Inductive value : Type :=
| VStr (s : text)
| VBool (b : bool)
| VNone
| VMethod (name : text)
| VOther (name : text).

(** Methods a text file object and a binary file object both have. *)
Definition FILE_METHODS : list text :=
  map py ["close"; "detach"; "fileno"; "flush"; "isatty"; "read";
          "readable"; "readline"; "readlines"; "seek";
          "seekable"; "tell"; "truncate"; "writable"; "write";
          "writelines"]%string.

(** Special and private attributes a text file object and a binary file
    object both have. *)
Definition FILE_SPECIALS : list text :=
  map py ["__class__"; "__del__"; "__delattr__"; "__dict__"; "__dir__";
          "__doc__"; "__enter__"; "__eq__"; "__exit__"; "__format__";
          "__ge__"; "__getattribute__"; "__getstate__"; "__gt__";
          "__hash__"; "__init__"; "__init_subclass__"; "__iter__";
          "__le__"; "__lt__"; "__ne__"; "__new__"; "__next__";
          "__reduce__"; "__reduce_ex__"; "__repr__"; "__setattr__";
          "__sizeof__"; "__str__"; "__subclasshook__"; "_checkClosed";
          "_checkReadable"; "_checkSeekable"; "_checkWritable";
          "_finalizing"]%string.

(** What only a text file object has, besides [encoding], [errors],
    [line_buffering] and [write_through]. *)
Definition TEXT_ONLY : list text :=
  map py ["_CHUNK_SIZE"; "buffer"; "newlines"]%string.

(** Methods only a binary file object has; [peek] needs a readable
    one. *)
Definition BINARY_METHODS : list text :=
  map py ["read1"; "readinto"; "readinto1"]%string.

(** What only a binary file object has, besides those methods. *)
Definition BINARY_ONLY : list text :=
  map py ["_dealloc_warn"; "raw"]%string.

(** [getattr(f, a)] on a file object; [None] when it has no such
    attribute.  [open] was given no [errors], no [newline] and no
    [buffering]. *)
Definition file_getattr (f : file) (a : text) : option value :=
  if text_eqb a (py "name") then Some (VStr (f_name f))
  else if text_eqb a (py "mode") then Some (VStr (f_mode f))
  else if text_eqb a (py "closed") then Some (VBool (f_closed f))
  else if existsb (text_eqb a) FILE_METHODS then Some (VMethod a)
  else if existsb (text_eqb a) FILE_SPECIALS then Some (VOther a)
  else if f_binary f then
    if existsb (text_eqb a) BINARY_METHODS then Some (VMethod a)
    else if text_eqb a (py "peek") then
      (if f_readable f then Some (VMethod a) else None)
    else if existsb (text_eqb a) BINARY_ONLY then Some (VOther a)
    else None
  else
    if text_eqb a (py "encoding") then
      match f_encoding f with
      | Some e => Some (VStr e)
      | None => Some (VOther a) (* the name of the locale's encoding *)
      end
    else if text_eqb a (py "errors") then Some (VStr (py "strict"))
    else if text_eqb a (py "line_buffering") then Some (VBool false)
    else if text_eqb a (py "write_through") then Some (VBool false)
    else if text_eqb a (py "reconfigure") then Some (VMethod a)
    else if existsb (text_eqb a) TEXT_ONLY then Some (VOther a)
    else None.

(** The attributes of the object [None]. *)
Definition NONE_ATTRS : list text :=
  map py ["__bool__"; "__class__"; "__delattr__"; "__dir__"; "__doc__";
          "__eq__"; "__format__"; "__ge__"; "__getattribute__";
          "__getstate__"; "__gt__"; "__hash__"; "__init__";
          "__init_subclass__"; "__le__"; "__lt__"; "__ne__"; "__new__";
          "__reduce__"; "__reduce_ex__"; "__repr__"; "__setattr__";
          "__sizeof__"; "__str__"; "__subclasshook__"]%string.

(** The value of an attribute of [None]: its class, its missing
    docstring, or one of its special methods. *)
Definition none_attr (a : text) : value :=
  if text_eqb a (py "__class__") then VOther a
  else if text_eqb a (py "__doc__") then VNone
  else VMethod a.

(** [getattr(x, a)] where [x] is a file object or [None]. *)
Definition getattr (x : option file) (a : text) : option value :=
  match x with
  | Some f => file_getattr f a
  | None => if existsb (text_eqb a) NONE_ATTRS then Some (none_attr a) else None
  end.

Definition hasattr (x : option file) (a : text) : bool :=
  is_some (getattr x a).

End Io.

(** ** [class cJSONFile] *)

Module cJSONFile.

Import Re Io.
Local Open Scope string_scope.

(** The instance attributes set by [__init__]; [_file] is a file object
    or [None]. *)
Record t : Type := {
  _file_path : text; _mode : text; _encoding : option text;
  _file : option file }.

Definition set_file (self : t) (f : option file) : t :=
  {| _file_path := _file_path self; _mode := _mode self;
     _encoding := _encoding self; _file := f |}.

(** Methods run on the instance and the world; what they changed before
    raising stays changed. *)
Definition state : Type := (t * world)%type.
Definition M (A : Type) : Type := state -> (exn + A) * state.

Definition ret {A : Type} (x : A) : M A := fun st => (inr x, st).
Definition raise {A : Type} (e : exn) : M A := fun st => (inl e, st).
Definition bind {A B : Type} (c : M A) (k : A -> M B) : M B :=
  fun st =>
    match c st with
    | (inr x, st') => k x st'
    | (inl e, st') => (inl e, st')
    end.
(** [try c except e: h] *)
Definition catch {A : Type} (c : M A) (e : exn -> bool) (h : M A) : M A :=
  fun st =>
    match c st with
    | (inl x, st') => if e x then h st' else (inl x, st')
    | r => r
    end.
Definition self_file : M (option file) := fun st => (inr (_file (fst st)), st).
Definition assign_file (f : option file) : M unit :=
  fun st => (inr tt, (set_file (fst st) f, snd st)).

Definition close_file (h : file) : M unit :=
  fun st => (inr tt, (fst st, snd (close h (snd st)))).

Notation "x <- c ;; k" := (bind c (fun x => k))
  (at level 61, c at next level, right associativity).
Notation "c ;; k" := (bind c (fun _ => k))
  (at level 61, right associativity).

Definition is_StopIteration (e : exn) : bool :=
  match e with StopIteration => true | _ => false end.

(** The tuple [binary_modes] of [__init__]. *)
Definition binary_modes : list text :=
  map py ["rb"; "rb+"; "wb"; "wb+"; "ab"; "xb"; "xb+"].

(** [_open]: the built-in [open] on the stored path, mode and encoding. *)
Definition _open : M file :=
  fun st =>
    let (self, w) := st in
    let (r, w') := open (_file_path self) (_mode self) (_encoding self) w in
    (r, (self, w')).

(** [__init__(file_path, mode, encoding)]: the instance, or the exception
    raised. *)
Definition __init__ (file_path mode : text) (encoding : option text)
           (w : world) : (exn + t) * world :=
  if existsb (text_eqb mode) binary_modes then (inl ValueError, w)
  else
    let self := {| _file_path := file_path; _mode := mode;
                   _encoding := encoding; _file := None |} in
    match (f <- _open ;; assign_file (Some f)) (self, w) with
    | (inr _, (self', w')) => (inr self', w')
    | (inl e, (_, w')) => (inl e, w')
    end.

(** The names an instance answers by itself, so that [__getattr__] is not
    called for them: its four attributes, what the class defines, and what
    every object has. *)
Definition ATTRS : list text :=
  map py ["_file_path"; "_mode"; "_encoding"; "_file";
          "__init__"; "__getattr__"; "__enter__"; "__exit__"; "__iter__";
          "__next__"; "_open"; "_close"; "_is_comment"; "_clean"; "read";
          "readline"; "readlines";
          "__class__"; "__delattr__"; "__dict__"; "__dir__"; "__doc__";
          "__eq__"; "__format__"; "__ge__"; "__getattribute__";
          "__getstate__"; "__gt__"; "__hash__"; "__init_subclass__";
          "__le__"; "__lt__"; "__module__"; "__ne__"; "__new__";
          "__reduce__"; "__reduce_ex__"; "__repr__"; "__setattr__";
          "__sizeof__"; "__str__"; "__subclasshook__"; "__weakref__"].

(** [__getattr__(attribute)]. *)
Definition __getattr__ (attribute : text) : M value :=
  f <- self_file ;;
  match getattr f attribute with
  | Some v => ret v
  | None => raise AttributeError
  end.

(** [_close]: [self._file.close()] is an attribute lookup on [None] when
    no file is held. *)
Definition _close : M unit :=
  f <- self_file ;;
  match f with
  | None => raise AttributeError
  | Some h => close_file h ;; assign_file None
  end.

(** [__enter__]; the value returned is the instance itself. *)
Definition __enter__ : M unit :=
  f <- self_file ;;
  match f with
  | None => h <- _open ;; assign_file (Some h)
  | Some _ => ret tt
  end.

(** [__exit__(type, value, traceback)]. *)
Definition __exit__ : M unit := _close.

(** [__iter__]; a file object is true, [None] is false. *)
Definition __iter__ : M unit :=
  f <- self_file ;;
  match f with
  | None => h <- _open ;; assign_file (Some h)
  | Some _ => ret tt
  end.

(** [_is_comment(line)]. *)
Definition _is_comment (line : text) : bool :=
  let line := strip is_space line in
  startswith line [SLASH; SLASH] || startswith line [HASH].

(** The pattern of [_clean]: [DQ .* DQ], ['.*'], [#.*] and [//.*]. *)
Definition PATTERN : re :=
  Alt (Seq (One (Chr DQ)) (Seq (Star Dot) (One (Chr DQ))))
 (Alt (Seq (One (Chr SQ)) (Seq (Star Dot) (One (Chr SQ))))
 (Alt (Seq (One (Chr HASH)) (Star Dot))
      (Seq (One (Chr SLASH)) (Seq (One (Chr SLASH)) (Star Dot))))).

(** [_clean(line)]. *)
Definition _clean (line : text) : text :=
  if contains [HASH] line || contains [SLASH; SLASH] line then
    let parts := split PATTERN line 0 in
    join (map (strip is_blank)
              (filter (fun p => negb (_is_comment p)) parts))
  else line.

(** [next(self._file)]: [None] is not an iterator. *)
Definition next_file : M text :=
  f <- self_file ;;
  match f with
  | None => raise TypeError
  | Some h =>
      match next h with
      | inl e => raise e
      | inr (line, h') => assign_file (Some h') ;; ret line
      end
  end.

(** The test [not self._is_comment(line)] on a line just read; a line of
    a binary file is a [bytes] object, whose [startswith] refuses a [str]
    argument. *)
Definition not_comment (line : text) : M bool :=
  f <- self_file ;;
  match f with
  | Some h => if f_binary h then raise TypeError
              else ret (negb (_is_comment line))
  | None => ret (negb (_is_comment line))
  end.

(** The [while True] loop of [__next__], one round per line read; [n]
    bounds the rounds and [__next__] starts it above the number of lines
    left. *)
Fixpoint next_rounds (n : nat) : M text :=
  match n with
  | 0 => raise StopIteration
  | S n' =>
      line <- catch next_file is_StopIteration
                    (_close ;; raise StopIteration) ;;
      keep <- not_comment line ;;
      if keep then ret (_clean line) else next_rounds n'
  end.

Definition lines_left (st : state) : nat :=
  match _file (fst st) with
  | Some h => length (f_lines h)
  | None => 0
  end.

(** [__next__]. *)
Definition __next__ : M text :=
  fun st => next_rounds (S (lines_left st)) st.

(** The loop of [readline]. *)
Fixpoint readline_rounds (n : nat) : M text :=
  match n with
  | 0 => ret []
  | S n' =>
      r <- catch (line <- next_file ;; ret (Some line)) is_StopIteration
                 (ret None) ;;
      match r with
      | None => ret []
      | Some line =>
          keep <- not_comment line ;;
          if keep then ret (_clean line) else readline_rounds n'
      end
  end.

(** [readline]. *)
Definition readline : M text :=
  fun st => readline_rounds (S (lines_left st)) st.

(** The comprehension of [readlines]: [for line in self._file]. *)
Fixpoint readlines_rounds (n : nat) : M (list text) :=
  match n with
  | 0 => ret []
  | S n' =>
      r <- catch (line <- next_file ;; ret (Some line)) is_StopIteration
                 (ret None) ;;
      match r with
      | None => ret []
      | Some line =>
          keep <- not_comment line ;;
          rest <- readlines_rounds n' ;;
          ret (if keep then _clean line :: rest else rest)
      end
  end.

(** [readlines]. *)
Definition readlines : M (list text) :=
  fun st => readlines_rounds (S (lines_left st)) st.

(** [read]. *)
Definition read : M text :=
  ls <- readlines ;; ret (join ls).

(** A [for] loop over the instance collecting what it yields:
    [__iter__], then [__next__] until [StopIteration]; [None] when [n]
    rounds did not reach the end. *)
Fixpoint for_rounds (n : nat) : M (option (list text)) :=
  match n with
  | 0 => ret None
  | S n' =>
      r <- catch (x <- __next__ ;; ret (Some x)) is_StopIteration
                 (ret None) ;;
      match r with
      | None => ret (Some [])
      | Some x =>
          xs <- for_rounds n' ;;
          ret (match xs with Some l => Some (x :: l) | None => None end)
      end
  end.

Definition for_loop (n : nat) : M (option (list text)) :=
  __iter__ ;; for_rounds n.

(** A [with] statement on the instance: [__enter__], the body, then
    [__exit__] whether the body returned or raised.  [__exit__] returns
    [None], so an exception of the body is raised again after it; an
    exception of [__exit__] itself takes its place. *)
Definition with_block {A : Type} (body : M A) : M A :=
  __enter__ ;;
  fun st =>
    match body st with
    | (inr x, st1) => (__exit__ ;; ret x) st1
    | (inl e, st1) => (__exit__ ;; raise e) st1
    end.

End cJSONFile.

(** ** The file of the notebook *)

(** The text of [commented.json]. *)
Definition demo_raw : text :=
  py "{\n\t// Integer\n\t`integer`: 1,\n\t`float`: 1.0, # Float\n\t`text`: `// text //`,  // Trailing comment\n\t`list`: [1, 2, 3]\n}"%string.

Module Demo.

Import Io cJSONFile.
Local Open Scope string_scope.

(** A disk holding that one file, where [utf-8] is a known encoding;
    nothing has happened on it yet. *)
Definition disk : world :=
  {| w_fs := [(py "commented.json", demo_raw)];
     w_codecs := fun e => text_eqb e (py "utf-8");
     w_log := [] |}.


(** The lines the notebook shows for the iteration over the file. *)
Definition cleaned_lines : list text :=
  map py ["{\n"; "\t`integer`: 1,\n"; "\t`float`: 1.0,\n";
          "\t`text`: `// text //`,\n"; "\t`list`: [1, 2, 3]\n"; "}"].

(** What [k] makes of the result of [c] on a constructed instance, [d] if
    the construction or [c] raised. *)
Definition run {A B : Type} (c : M A) (k : A -> state -> B) (d : B)
           (r : (exn + t) * world) : B :=
  match r with
  | (inr self, w) =>
      match c (self, w) with
      | (inr x, st) => k x st
      | (inl _, _) => d
      end
  | (inl _, _) => d
  end.

Definition opened : (exn + t) * world :=
  __init__ (py "commented.json") (py "r") (Some (py "utf-8")) disk.

End Demo.

(** * Vocabulary of the properties *)

Open Scope string_scope.

(** Text without blanks at either end. *)
Definition trimmed (p : ascii -> bool) (s : text) : Prop :=
  lstrip p s = s /\ lstrip p (rev s) = rev s.

(** The two patterns are the same four alternatives; they differ in the
    class of characters a comment runs over. *)
Definition marks (cls : Re.cset) : Re.re :=
  Re.Alt (Re.Seq (Re.One (Re.Chr DQ)) (Re.Seq (Re.Star Re.Dot) (Re.One (Re.Chr DQ))))
 (Re.Alt (Re.Seq (Re.One (Re.Chr SQ)) (Re.Seq (Re.Star Re.Dot) (Re.One (Re.Chr SQ))))
 (Re.Alt (Re.Seq (Re.One (Re.Chr HASH)) (Re.Star cls))
         (Re.Seq (Re.One (Re.Chr SLASH))
                 (Re.Seq (Re.One (Re.Chr SLASH)) (Re.Star cls))))).

(** The characters of [t] before its first line feed. *)
Fixpoint firstline (t : text) : text :=
  match t with
  | [] => []
  | c :: t' => if Ascii.eqb c LF then [] else c :: firstline t'
  end.

(** What [.*] followed by the quote [q] does on [t]: the text up to the
    last [q] of the first line, and what follows. *)
Fixpoint close_quote (q : ascii) (t : text) : option (text * text) :=
  match t with
  | [] => None
  | c :: t' =>
      if Ascii.eqb c LF then None
      else match close_quote q t' with
           | Some (b, r) => Some (c :: b, r)
           | None => if Ascii.eqb q c then Some ([c], t') else None
           end
  end.

(** What a starred class at the end of the pattern does: the longest run
    of its characters, and what follows. *)
Fixpoint comment_run (cls : Re.cset) (t : text) : text * text :=
  match t with
  | [] => ([], [])
  | c :: t' =>
      if Re.cset_mem cls c then
        let (m, r) := comment_run cls t' in (c :: m, r)
      else ([], t)
  end.

(** The continuation that ends a match. *)
Definition done : text -> option Re.result := fun t => Some ([], t).

(** The matcher on either pattern, alternative by alternative. *)
Definition token_at (cls : Re.cset) (s : text) : option Re.result :=
  match s with
  | [] => None
  | c :: t =>
      if Ascii.eqb DQ c then Re.consume c (close_quote DQ t)
      else if Ascii.eqb SQ c then Re.consume c (close_quote SQ t)
      else if Ascii.eqb HASH c then
        Some (c :: fst (comment_run cls t), snd (comment_run cls t))
      else if Ascii.eqb SLASH c then
        match t with
        | d :: u =>
            if Ascii.eqb SLASH d then
              Some (c :: d :: fst (comment_run cls u), snd (comment_run cls u))
            else None
        | [] => None
        end
      else None
  end.

(** Where a token can start: at a quote with a partner later on the line,
    at a hash, at two slashes. *)
Definition opens (c : ascii) (t : text) : bool :=
  (Ascii.eqb DQ c && existsb (Ascii.eqb DQ) (firstline t))
  || (Ascii.eqb SQ c && existsb (Ascii.eqb SQ) (firstline t))
  || Ascii.eqb HASH c
  || (Ascii.eqb SLASH c && startswith t [SLASH]).

(** A token is a quoted literal or a comment. *)
Definition literal (m r : text) : Prop :=
  exists q b, (q = DQ \/ q = SQ) /\ m = q :: b ++ [q] /\ ~ In LF b
              /\ ~ In q (firstline r).

(** A comment: a hash or two slashes, then characters of the class, up to
    the end of the text or a character outside the class. *)
Definition comment (cls : Re.cset) (m r : text) : Prop :=
  (exists h run, m = h ++ run /\ (h = [HASH] \/ h = [SLASH; SLASH])
                 /\ forallb (Re.cset_mem cls) run = true)
  /\ (r = [] \/ exists c r', r = c :: r' /\ Re.cset_mem cls c = false).

(** No token starts inside [u] when [z] follows it. *)
Definition quiet (u z : text) : Prop :=
  forall u1 c u2, u = u1 ++ c :: u2 -> opens c (u2 ++ z) = false.

(** The complete scan of a text: the parts [re.split] gives without a
    limit. *)
Inductive Scan (cls : Re.cset) : text -> list text -> Prop :=
| Scan_end (s : text) :
    Re.search (marks cls) s = None -> Scan cls s [s]
| Scan_tok (s pre m r : text) (L : list text) :
    Re.search (marks cls) s = Some (pre, m, r) ->
    Scan cls r L -> Scan cls s (pre :: m :: L).

Section ReadingVocabulary.

Import Io cJSONFile.

(** A file object as a text-mode [open] for reading leaves it. *)
Definition ready (h : file) : Prop :=
  f_closed h = false /\ f_readable h = true /\ f_binary h = false.

(** The instance [self] holding [h] with the lines [ls] still unread. *)
Definition holding (self : t) (h : file) (ls : list text) (w : world)
  : state :=
  (set_file self (Some (set_lines h ls)), w).

(** The instance after [_close]. *)
Definition released (self : t) (h : file) (w : world) : state :=
  (set_file self None, log (Closed (f_name h)) w).

(** The lines that are no whole-line comments. *)
Definition wanted (line : text) : bool := negb (_is_comment line).

(** The first line that is not a whole-line comment, cleaned, and the
    lines after it. *)
Fixpoint first_wanted (ls : list text) : option (text * list text) :=
  match ls with
  | [] => None
  | l :: rest => if wanted l then Some (_clean l, rest) else first_wanted rest
  end.

End ReadingVocabulary.

(** A line whose first characters after leading white space are a hash or
    two slashes. *)
Definition whole_line_comment (line : text) : Prop :=
  exists ws rest,
    forallb is_space ws = true
    /\ (line = ws ++ HASH :: rest \/ line = ws ++ SLASH :: SLASH :: rest).

(** The file object a text-mode [open] for reading returns. *)
Definition fresh (path mode : text) (enc : option text) (content : text)
  : Io.file :=
  {| Io.f_name := path; Io.f_mode := mode; Io.f_encoding := enc;
     Io.f_binary := false; Io.f_readable := true;
     Io.f_lines := Io.splitlines (Io.universal_newlines content);
     Io.f_closed := false |}.

(** An instance by its four attributes. *)
Definition instance (path mode : text) (enc : option text)
           (f : option Io.file) : cJSONFile.t :=
  {| cJSONFile._file_path := path; cJSONFile._mode := mode;
     cJSONFile._encoding := enc; cJSONFile._file := f |}.

(** Five lines, each a quoted key with a trailing comment. *)
Definition five_comments : text :=
  py "{\n`a`: 1, # one\n`b`: 2, # two\n`c`: 3, # three\n`d`: 4, # four\n`e`: 5 # five\n}".

(** A quoted span: two quotes of one kind on one line. *)
Definition quoted (s : text) : Prop :=
  exists a q b c, s = a ++ q :: b ++ q :: c /\ (q = DQ \/ q = SQ)
                  /\ ~ In LF b.

(** The quote of the other kind. *)
Definition other_quote (q : ascii) : ascii :=
  if Ascii.eqb q DQ then SQ else DQ.

(** Every character on the first line of [y] is on the first line of
    [s]. *)
Definition below (y s : text) : Prop :=
  forall c, In c (firstline y) -> In c (firstline s).

(** The buffer pattern's comment class, and the characters that end a
    comment. *)
Definition to_eol : Re.cset := Re.NoneOf [CR; LF].

(** What [_clean] does with the parts of a split. *)
Definition cleaned (L : list text) : text :=
  join (map (strip is_blank)
            (filter (fun p => negb (cJSONStr.is_marked p)) L)).

(** A part [_clean] passes unchanged. *)
Definition settled (p : text) : Prop :=
  cJSONStr.is_marked p = false /\ trimmed is_blank p.

(** The number of tokens [re.split] finds in [s] when nothing limits it. *)
Definition tokens (s : text) : nat :=
  Nat.div2 (length (Re.split cJSONStr.PATTERN s 0)).

(** A line with its line feed. *)
Definition line (l : text) : Prop := exists a, l = a ++ [LF] /\ ~ In LF a.

(** The text left when the comments are taken out and nothing is
    stripped. *)
Definition kept (L : list text) : text :=
  join (filter (fun p => negb (cJSONStr.is_marked p)) L).

(** The text without its white space. *)
Definition squash (s : text) : text :=
  filter (fun c => negb (is_space c)) s.

(** The lines of a text: every line but possibly the last ends with the
    only line feed it holds. *)
Inductive Lines : text -> list text -> Prop :=
| Lines_nil : Lines [] []
| Lines_last (l : text) : l <> [] -> ~ In LF l -> Lines l [l]
| Lines_cons (a x : text) (ls : list text) :
    ~ In LF a -> Lines x ls -> Lines (a ++ LF :: x) ((a ++ [LF]) :: ls).

(** The text without its blanks, the characters the trimming of [_clean]
    removes. *)
Definition unblank (s : text) : text :=
  filter (fun c => negb (is_blank c)) s.

(** [a] is [b] with some characters left out: nothing added, nothing
    moved. *)
Inductive subseq : text -> text -> Prop :=
| subseq_nil : subseq [] []
| subseq_keep (c : ascii) (a b : text) : subseq a b -> subseq (c :: a) (c :: b)
| subseq_drop (c : ascii) (a b : text) : subseq a b -> subseq a (c :: b).

(** The number of line feeds of a text. *)
Definition linefeeds (s : text) : nat := length (filter (Ascii.eqb LF) s).

(** What the line-based reads make of the lines of a file: a whole-line
    comment gives nothing, any other line gives its cleaned form. *)
Inductive Surfaced : list text -> list text -> Prop :=
| Surfaced_nil : Surfaced [] []
| Surfaced_skip (c : text) (ls out : list text) :
    whole_line_comment c -> Surfaced ls out -> Surfaced (c :: ls) out
| Surfaced_line (l : text) (ls out : list text) :
    ~ whole_line_comment l -> Surfaced ls out ->
    Surfaced (l :: ls) (cJSONFile._clean l :: out).



(** The parts of a text that follows another: the last part of the first
    and the first part of the second make one part. *)
Fixpoint glue (L1 L2 : list text) : list text :=
  match L1 with
  | [] => L2
  | p :: L =>
      match L with
      | [] => match L2 with
              | [] => [p]
              | p0 :: L' => (p ++ p0) :: L'
              end
      | _ :: _ => p :: glue L L2
      end
  end.

(** A part that is a comment: it starts with a hash or two slashes. *)
Definition comment_token (t : text) : bool :=
  startswith t [HASH] || startswith t [SLASH; SLASH].

(** [f] is [p] with some of its blanks left out. *)
Definition thinned (f p : text) : Prop :=
  subseq f p /\ unblank f = unblank p.

(** What a cleaner may make of the parts of a split: a part between two
    tokens with some of its blanks left out, a comment dropped, a quoted
    literal unchanged. *)
Inductive pieces : list text -> list text -> Prop :=
| pieces_last (p f : text) : thinned f p -> pieces [p] [f]
| pieces_step (p t f : text) (L F : list text) :
    thinned f p -> pieces L F ->
    pieces (p :: t :: L)
           (f :: (if comment_token t then [] else t) :: F).

(** What may stand on a line before the quoted span [q body q], itself
    followed by [post], for the scan to keep the span inside one literal:
    characters that start no token, literals closed before the span, and
    then either nothing more (the scan comes to the opening quote), or a
    quote of the same kind (its literal runs to the last such quote of
    the line, at or after the closing quote), or a quote of the other
    kind that has a partner after the span. *)
Inductive safe (q : ascii) (body post : text) : text -> Prop :=
| safe_here : safe q body post []
| safe_skip (c : ascii) (a : text) :
    opens c (a ++ q :: body ++ q :: post) = false ->
    safe q body post a -> safe q body post (c :: a)
| safe_literal (x : ascii) (m a : text) :
    x = DQ \/ x = SQ -> ~ In LF m ->
    ~ In x (firstline (a ++ q :: body ++ q :: post)) ->
    safe q body post a -> safe q body post (x :: m ++ x :: a)
| safe_same (a : text) : ~ In LF a -> safe q body post (q :: a)
| safe_beyond (x : ascii) (a : text) :
    x = DQ \/ x = SQ -> ~ In LF a -> In x (firstline post) ->
    safe q body post (x :: a).

(** * Properties *)

(** ** The runs shown in the notebook *)

Example demo_str :
  cJSONStr.__new__ demo_raw =
  py "{\n\t\n\t`integer`: 1,\n\t`float`: 1.0,\n\t`text`: `// text //`,\n\t`list`: [1, 2, 3]\n}"%string.
Proof. vm_compute. reflexivity. Qed.

Example demo_len : length (cJSONStr.__new__ demo_raw) = 77.
Proof. vm_compute. reflexivity. Qed.

Section Notebook.

Import Io cJSONFile Demo.

Example with_read :
  run (__enter__ ;; x <- read ;; __exit__ ;; ret x) (fun x _ => Some x) None opened
  = Some (join cleaned_lines).
Proof. vm_compute. reflexivity. Qed.

Example attributes :
  run (a <- __getattr__ (py "name") ;; b <- __getattr__ (py "mode") ;;
       c <- __getattr__ (py "closed") ;; ret [a; b; c])
      (fun x _ => x) [] opened
  = [VStr (py "commented.json"); VStr (py "r"); VBool false].
Proof. vm_compute. reflexivity. Qed.

Example readline_then_next :
  run (a <- readline ;; b <- __next__ ;; ret [a; b]) (fun x _ => x) [] opened
  = map py ["{\n"; "\t`integer`: 1,\n"].
Proof. vm_compute. reflexivity. Qed.

Example line_iteration :
  run (for_loop 10) (fun x _ => x) None opened = Some cleaned_lines.
Proof. vm_compute. reflexivity. Qed.

End Notebook.

(** ** Text *)

Lemma text_eqb_eq (a b : text) : Io.text_eqb a b = true <-> a = b.
Proof.
  revert b; induction a as [|x a IH]; intros [|y b]; simpl; split;
    try congruence; try reflexivity.
  - intros H. apply andb_true_iff in H as [H1 H2].
    apply Ascii.eqb_eq in H1. apply IH in H2. congruence.
  - intros H. injection H as -> ->. rewrite Ascii.eqb_refl. simpl.
    apply IH. reflexivity.
Qed.

Lemma existsb_eqb_In (c : ascii) (s : text) :
  existsb (Ascii.eqb c) s = true <-> In c s.
Proof.
  rewrite existsb_exists. split.
  - intros [x [Hx He]]. apply Ascii.eqb_eq in He. subst. exact Hx.
  - intros H. exists c. split; [exact H | apply Ascii.eqb_refl].
Qed.

Lemma existsb_eqb_notIn (c : ascii) (s : text) :
  existsb (Ascii.eqb c) s = false <-> ~ In c s.
Proof.
  rewrite <- existsb_eqb_In. destruct (existsb (Ascii.eqb c) s); split;
    congruence.
Qed.

(** *** [lstrip], [rstrip], [strip] *)

Lemma lstrip_split (p : ascii -> bool) (s : text) :
  exists a, s = a ++ lstrip p s /\ forallb p a = true.
Proof.
  induction s as [|c t [a [E F]]]; simpl.
  - exists []. auto.
  - destruct (p c) eqn:Hc.
    + exists (c :: a). simpl. rewrite Hc, F. split; [f_equal; exact E | reflexivity].
    + exists []. auto.
Qed.

Lemma lstrip_idem (p : ascii -> bool) (s : text) :
  lstrip p (lstrip p s) = lstrip p s.
Proof.
  induction s as [|c t IH]; simpl; [reflexivity|].
  destruct (p c) eqn:Hc; [exact IH | simpl; rewrite Hc; reflexivity].
Qed.

Lemma lstrip_keep (p : ascii -> bool) (c : ascii) (t : text) :
  p c = false -> lstrip p (c :: t) = c :: t.
Proof. intros H. simpl. rewrite H. reflexivity. Qed.

Lemma lstrip_fixed_cases (p : ascii -> bool) (s : text) :
  lstrip p s = s <-> s = [] \/ exists c t, s = c :: t /\ p c = false.
Proof.
  split.
  - destruct s as [|c t]; [auto|]. simpl. destruct (p c) eqn:Hc.
    + intros H. exfalso.
      destruct (lstrip_split p t) as [a [E _]].
      assert (L : length t = length a + length (lstrip p t))
        by (rewrite E at 1; apply length_app).
      rewrite H in L. simpl in L. lia.
    + intros _. right. exists c, t. auto.
  - intros [-> | [c [t [-> H]]]]; [reflexivity | apply lstrip_keep, H].
Qed.

Lemma lstrip_fixed_app (p : ascii -> bool) (a b : text) :
  lstrip p a = a -> lstrip p b = b -> lstrip p (a ++ b) = a ++ b.
Proof.
  intros Ha Hb. apply lstrip_fixed_cases in Ha as [-> | [c [t [-> H]]]].
  - exact Hb.
  - simpl. rewrite H. reflexivity.
Qed.

Lemma trimmed_strip (p : ascii -> bool) (s : text) :
  trimmed p s -> strip p s = s.
Proof.
  intros [H1 H2]. unfold strip, rstrip. rewrite H1, H2. apply rev_involutive.
Qed.

Lemma strip_trimmed (p : ascii -> bool) (s : text) : trimmed p (strip p s).
Proof.
  unfold strip, rstrip. set (u := lstrip p s).
  assert (Hu : lstrip p u = u) by apply lstrip_idem.
  set (v := lstrip p (rev u)). split.
  - destruct (lstrip_split p (rev u)) as [a [E _]]. fold v in E.
    assert (Eu : u = rev v ++ rev a).
    { rewrite <- (rev_involutive u), E, rev_app_distr. reflexivity. }
    destruct (rev v) as [|c t] eqn:Ev; [reflexivity|].
    apply lstrip_fixed_cases in Hu as [Hu | [c' [t' [Hu Hc]]]].
    + rewrite Hu in Eu. discriminate.
    + rewrite Hu in Eu. simpl in Eu. injection Eu as -> _.
      apply lstrip_keep, Hc.
  - rewrite rev_involutive. apply lstrip_idem.
Qed.

Lemma strip_idem (p : ascii -> bool) (s : text) :
  strip p (strip p s) = strip p s.
Proof. apply trimmed_strip, strip_trimmed. Qed.

Lemma trimmed_app (p : ascii -> bool) (a b : text) :
  trimmed p a -> trimmed p b -> trimmed p (a ++ b).
Proof.
  intros [A1 A2] [B1 B2]. split.
  - apply lstrip_fixed_app; assumption.
  - rewrite rev_app_distr. apply lstrip_fixed_app; assumption.
Qed.

Lemma trimmed_ends (p : ascii -> bool) (c d : ascii) (m : text) :
  p c = false -> p d = false -> trimmed p (c :: m ++ [d]).
Proof.
  intros Hc Hd. split.
  - apply lstrip_keep, Hc.
  - change (c :: m ++ [d]) with ((c :: m) ++ [d]).
    rewrite rev_app_distr. simpl rev at 1. apply lstrip_keep, Hd.
Qed.

(** [strip] keeps a middle piece of the text. *)
Lemma strip_split (p : ascii -> bool) (s : text) :
  exists a b, s = a ++ strip p s ++ b
              /\ forallb p a = true /\ forallb p b = true.
Proof.
  destruct (lstrip_split p s) as [a [E Fa]].
  destruct (lstrip_split p (rev (lstrip p s))) as [b [E' Fb]].
  exists a, (rev b). unfold strip, rstrip. repeat split.
  - rewrite <- rev_app_distr, <- E', rev_involutive. exact E.
  - exact Fa.
  - rewrite forallb_forall in *. intros x Hx. apply Fb, in_rev, Hx.
Qed.

Lemma lstrip_last (p : ascii -> bool) (l : text) (c : ascii) :
  p c = false -> exists l', lstrip p (l ++ [c]) = l' ++ [c].
Proof.
  intros Hc. induction l as [|y l [l' IH]]; simpl.
  - rewrite Hc. exists []. reflexivity.
  - destruct (p y); [exists l'; exact IH | exists (y :: l); reflexivity].
Qed.

Lemma strip_head (p : ascii -> bool) (c : ascii) (t : text) :
  p c = false -> exists t', strip p (c :: t) = c :: t'.
Proof.
  intros Hc. unfold strip. rewrite (lstrip_keep p c t Hc). unfold rstrip.
  simpl rev. destruct (lstrip_last p (rev t) c Hc) as [l' E].
  rewrite E, rev_app_distr. simpl. exists (rev l'). reflexivity.
Qed.

(** ** The scanner *)

Lemma PATTERN_str : cJSONStr.PATTERN = marks (Re.NoneOf [CR; LF]).
Proof. reflexivity. Qed.

Lemma PATTERN_file : cJSONFile.PATTERN = marks Re.Dot.
Proof. reflexivity. Qed.

Lemma DQ_not_LF : DQ <> LF.
Proof. apply Ascii.eqb_neq. vm_compute. reflexivity. Qed.

Lemma SQ_not_LF : SQ <> LF.
Proof. apply Ascii.eqb_neq. vm_compute. reflexivity. Qed.

Lemma star_close_quote (q : ascii) (t : text) :
  q <> LF ->
  Re.star Re.Dot t (fun u => Re.run (Re.One (Re.Chr q)) u done) = close_quote q t.
Proof.
  intros Hq. induction t as [|c t IH]; cbn [Re.star close_quote].
  - reflexivity.
  - cbn [Re.cset_mem]. destruct (Ascii.eqb c LF) eqn:Hc; cbn [negb].
    + apply Ascii.eqb_eq in Hc. subst c. cbn [Re.run Re.cset_mem].
      destruct (Ascii.eqb q LF) eqn:E; [apply Ascii.eqb_eq in E; contradiction|].
      reflexivity.
    + rewrite IH. destruct (close_quote q t) as [[b r]|]; [reflexivity|].
      cbn [Re.run Re.cset_mem]. destruct (Ascii.eqb q c); reflexivity.
Qed.

Lemma star_done (cls : Re.cset) (t : text) :
  Re.star cls t done = Some (comment_run cls t).
Proof.
  induction t as [|c t IH]; simpl; [reflexivity|].
  destruct (Re.cset_mem cls c); [|reflexivity].
  rewrite IH. destruct (comment_run cls t). reflexivity.
Qed.

Lemma match_token_at (cls : Re.cset) (s : text) :
  Re.match_ (marks cls) s = token_at cls s.
Proof.
  destruct s as [|c t]; [reflexivity|].
  unfold Re.match_, marks, token_at.
  cbn [Re.run Re.cset_mem].
  assert (H1 := star_close_quote DQ t DQ_not_LF).
  assert (H2 := star_close_quote SQ t SQ_not_LF).
  assert (H3 := star_done cls).
  cbn [Re.run Re.cset_mem] in H1, H2. unfold done in H1, H2, H3.
  rewrite H1, H2, H3. clear H1 H2.
  destruct (Ascii.eqb DQ c) eqn:E1.
  - apply Ascii.eqb_eq in E1. subst c.
    destruct (close_quote DQ t) as [[b r]|]; reflexivity.
  - destruct (Ascii.eqb SQ c) eqn:E2.
    + apply Ascii.eqb_eq in E2. subst c.
      destruct (close_quote SQ t) as [[b r]|]; reflexivity.
    + destruct (Ascii.eqb HASH c) eqn:E3.
      * destruct (comment_run cls t). reflexivity.
      * destruct (Ascii.eqb SLASH c) eqn:E4; [|reflexivity].
        destruct t as [|d u]; [reflexivity|].
        destruct (Ascii.eqb SLASH d); [|reflexivity].
        rewrite H3. destruct (comment_run cls u). reflexivity.
Qed.

Lemma firstline_app (a b : text) :
  firstline (a ++ b) =
  if existsb (Ascii.eqb LF) a then firstline a else a ++ firstline b.
Proof.
  induction a as [|c a IH]; simpl; [reflexivity|].
  rewrite (Ascii.eqb_sym LF c). destruct (Ascii.eqb c LF); simpl; [reflexivity|].
  rewrite IH. destruct (existsb (Ascii.eqb LF) a); reflexivity.
Qed.

Lemma firstline_no_LF (t : text) : ~ In LF (firstline t).
Proof.
  induction t as [|c t IH]; simpl; [tauto|].
  destruct (Ascii.eqb c LF) eqn:E; simpl; [tauto|].
  apply Ascii.eqb_neq in E. intros [H|H]; [congruence | exact (IH H)].
Qed.

Lemma firstline_incl (t : text) (c : ascii) : In c (firstline t) -> In c t.
Proof.
  induction t as [|d t IH]; simpl; [tauto|].
  destruct (Ascii.eqb d LF); simpl; [tauto|]. intros [H|H]; auto.
Qed.

Lemma close_quote_none (q : ascii) (t : text) :
  q <> LF -> (close_quote q t = None <-> ~ In q (firstline t)).
Proof.
  intros Hq. induction t as [|c t IH]; simpl; [tauto|].
  destruct (Ascii.eqb c LF) eqn:E; simpl; [tauto|].
  destruct (close_quote q t) as [[b r]|].
  - split; [discriminate|]. intros H. exfalso.
    assert (N : ~ In q (firstline t)) by tauto.
    apply IH in N. discriminate.
  - destruct (Ascii.eqb q c) eqn:Q.
    + apply Ascii.eqb_eq in Q. split; [discriminate|]. intros H.
      exfalso. apply H. left. congruence.
    + apply Ascii.eqb_neq in Q. split; [|reflexivity]. intros _ [H|H].
      * congruence.
      * apply IH in H; [exact H | reflexivity].
Qed.

Lemma close_quote_some (q : ascii) (t b r : text) :
  q <> LF -> close_quote q t = Some (b, r) ->
  exists b', b = b' ++ [q] /\ t = b ++ r /\ ~ In LF b'
             /\ ~ In q (firstline r).
Proof.
  intros Hq. revert b r. induction t as [|c t IH]; simpl; [discriminate|].
  intros b r. destruct (Ascii.eqb c LF) eqn:E; [discriminate|].
  apply Ascii.eqb_neq in E.
  destruct (close_quote q t) as [[b0 r0]|] eqn:C.
  - intros H. injection H as <- <-.
    destruct (IH b0 r0 eq_refl) as [b' [-> [-> [N1 N2]]]].
    exists (c :: b'). repeat split; auto. intros [H|H]; [congruence | tauto].
  - destruct (Ascii.eqb q c) eqn:Q; [|discriminate].
    apply Ascii.eqb_eq in Q. subst c. intros H. injection H as <- <-.
    exists []. repeat split; auto. apply close_quote_none; assumption.
Qed.

Lemma close_quote_intro (q : ascii) (b r : text) :
  q <> LF -> ~ In LF b -> ~ In q (firstline r) ->
  close_quote q (b ++ q :: r) = Some (b ++ [q], r).
Proof.
  intros Hq Hb Hr. induction b as [|c b IH]; simpl.
  - destruct (Ascii.eqb q LF) eqn:E; [apply Ascii.eqb_eq in E; contradiction|].
    apply (close_quote_none q r Hq) in Hr. rewrite Hr, Ascii.eqb_refl.
    reflexivity.
  - destruct (Ascii.eqb c LF) eqn:E.
    + apply Ascii.eqb_eq in E. exfalso. apply Hb. left. exact E.
    + rewrite IH; [reflexivity|]. intros H. apply Hb. right. exact H.
Qed.

Lemma comment_run_spec (cls : Re.cset) (t : text) :
  t = fst (comment_run cls t) ++ snd (comment_run cls t)
  /\ forallb (Re.cset_mem cls) (fst (comment_run cls t)) = true
  /\ (snd (comment_run cls t) = []
      \/ exists c r, snd (comment_run cls t) = c :: r
                     /\ Re.cset_mem cls c = false).
Proof.
  induction t as [|c t [E [F T]]]; simpl.
  - auto.
  - destruct (Re.cset_mem cls c) eqn:M.
    + destruct (comment_run cls t) as [m r]. simpl in *.
      rewrite M, F. repeat split; [f_equal; exact E | exact T].
    + simpl. repeat split. right. exists c, t. auto.
Qed.

Lemma token_opens (cls : Re.cset) (c : ascii) (t : text) :
  token_at cls (c :: t) = None <-> opens c t = false.
Proof.
  unfold token_at, opens.
  destruct (Ascii.eqb DQ c) eqn:E1.
  { apply Ascii.eqb_eq in E1. subst c. simpl.
    destruct (close_quote DQ t) as [[b r]|] eqn:C; simpl.
    - split; [discriminate|]. intros H. exfalso.
      destruct (existsb (Ascii.eqb DQ) (firstline t)) eqn:X; [discriminate|].
      apply existsb_eqb_notIn in X.
      apply (close_quote_none DQ t DQ_not_LF) in X. congruence.
    - apply (close_quote_none DQ t DQ_not_LF) in C.
      apply existsb_eqb_notIn in C. rewrite C. tauto. }
  destruct (Ascii.eqb SQ c) eqn:E2.
  { apply Ascii.eqb_eq in E2. subst c. simpl.
    destruct (close_quote SQ t) as [[b r]|] eqn:C; simpl.
    - split; [discriminate|]. intros H. exfalso.
      destruct (existsb (Ascii.eqb SQ) (firstline t)) eqn:X; [discriminate|].
      apply existsb_eqb_notIn in X.
      apply (close_quote_none SQ t SQ_not_LF) in X. congruence.
    - apply (close_quote_none SQ t SQ_not_LF) in C.
      apply existsb_eqb_notIn in C. rewrite C. tauto. }
  destruct (Ascii.eqb HASH c) eqn:E3; simpl.
  { split; discriminate. }
  destruct (Ascii.eqb SLASH c) eqn:E4; simpl; [|tauto].
  destruct t as [|d u]; simpl; [tauto|].
  destruct (Ascii.eqb SLASH d); simpl; [split; discriminate | tauto].
Qed.

Lemma token_shape (cls : Re.cset) (s m r : text) :
  token_at cls s = Some (m, r) ->
  s = m ++ r /\ (literal m r \/ comment cls m r).
Proof.
  destruct s as [|c t]; [discriminate|]. unfold token_at.
  destruct (Ascii.eqb DQ c) eqn:E1.
  { apply Ascii.eqb_eq in E1. subst c.
    destruct (close_quote DQ t) as [[b r0]|] eqn:C; [|discriminate].
    simpl. intros H. injection H as <- <-.
    destruct (close_quote_some DQ t b r0 DQ_not_LF C) as [b' [-> [-> [N1 N2]]]].
    split; [reflexivity|]. left. exists DQ, b'. auto. }
  destruct (Ascii.eqb SQ c) eqn:E2.
  { apply Ascii.eqb_eq in E2. subst c.
    destruct (close_quote SQ t) as [[b r0]|] eqn:C; [|discriminate].
    simpl. intros H. injection H as <- <-.
    destruct (close_quote_some SQ t b r0 SQ_not_LF C) as [b' [-> [-> [N1 N2]]]].
    split; [reflexivity|]. left. exists SQ, b'. auto. }
  destruct (Ascii.eqb HASH c) eqn:E3.
  { apply Ascii.eqb_eq in E3. subst c. intros H. injection H as <- <-.
    destruct (comment_run_spec cls t) as [E [F T]].
    split; [simpl; f_equal; exact E|]. right. split; [|exact T].
    exists [HASH], (fst (comment_run cls t)). auto. }
  destruct (Ascii.eqb SLASH c) eqn:E4; [|discriminate].
  apply Ascii.eqb_eq in E4. subst c.
  destruct t as [|d u]; [discriminate|].
  destruct (Ascii.eqb SLASH d) eqn:E5; [|discriminate].
  apply Ascii.eqb_eq in E5. subst d. intros H. injection H as <- <-.
  destruct (comment_run_spec cls u) as [E [F T]].
  split; [simpl; do 2 f_equal; exact E|]. right. split; [|exact T].
  exists [SLASH; SLASH], (fst (comment_run cls u)). auto.
Qed.

Section Scanner.

Variable cls : Re.cset.

Lemma search_unfold (s : text) :
  Re.search (marks cls) s =
  match token_at cls s with
  | Some (m, r) => Some ([], m, r)
  | None =>
      match s with
      | [] => None
      | c :: t =>
          match Re.search (marks cls) t with
          | Some (pre, m, r) => Some (c :: pre, m, r)
          | None => None
          end
      end
  end.
Proof.
  destruct s; cbn [Re.search]; rewrite match_token_at; reflexivity.
Qed.

Lemma quiet_nil (z : text) : quiet [] z.
Proof. intros [|x u1] c u2 H; discriminate H. Qed.

Lemma quiet_cons (c : ascii) (u z : text) :
  quiet (c :: u) z <-> opens c (u ++ z) = false /\ quiet u z.
Proof.
  split.
  - intros Q. split.
    + apply (Q [] c u). reflexivity.
    + intros u1 d u2 E. apply (Q (c :: u1) d u2). rewrite E. reflexivity.
  - intros [O Q] [|x u1] d u2 E.
    + injection E as -> ->. exact O.
    + injection E as -> E. apply (Q u1 d u2 E).
Qed.

Lemma quiet_app (a b z : text) :
  quiet (a ++ b) z <-> quiet a (b ++ z) /\ quiet b z.
Proof.
  induction a as [|c a IH]; simpl.
  - split; [intros H; split; [apply quiet_nil | exact H] | tauto].
  - rewrite !quiet_cons, IH, <- app_assoc. tauto.
Qed.

Lemma search_some (s pre m r : text) :
  Re.search (marks cls) s = Some (pre, m, r) ->
  s = pre ++ m ++ r /\ quiet pre (m ++ r)
  /\ token_at cls (m ++ r) = Some (m, r).
Proof.
  revert pre. induction s as [|c t IH]; intros pre; rewrite search_unfold.
  - simpl. discriminate.
  - destruct (token_at cls (c :: t)) as [[m0 r0]|] eqn:T.
    + intros H. injection H as <- <- <-.
      destruct (token_shape cls _ _ _ T) as [E _]. rewrite <- E.
      repeat split; [apply quiet_nil | exact T].
    + destruct (Re.search (marks cls) t) as [[[pre' m'] r']|]; [|discriminate].
      intros H. injection H as <- <- <-.
      destruct (IH pre' eq_refl) as [E [Q K]]. subst t.
      repeat split; [|exact K]. apply quiet_cons. split; [|exact Q].
      apply (token_opens cls). exact T.
Qed.

Lemma search_none (s : text) :
  Re.search (marks cls) s = None -> quiet s [].
Proof.
  induction s as [|c t IH]; rewrite search_unfold; [intros _; apply quiet_nil|].
  destruct (token_at cls (c :: t)) as [[m0 r0]|] eqn:T; [discriminate|].
  destruct (Re.search (marks cls) t) as [[[pre' m'] r']|]; [discriminate|].
  intros _. apply quiet_cons. rewrite app_nil_r. split; [|apply IH; reflexivity].
  apply (token_opens cls). exact T.
Qed.

Lemma search_shift (u z : text) :
  quiet u z ->
  Re.search (marks cls) (u ++ z) =
  match Re.search (marks cls) z with
  | Some (pre, m, r) => Some (u ++ pre, m, r)
  | None => None
  end.
Proof.
  induction u as [|c u IH]; intros Q.
  - simpl. destruct (Re.search (marks cls) z) as [[[pre m] r]|]; reflexivity.
  - apply quiet_cons in Q as [O Q]. simpl app. rewrite search_unfold.
    apply (token_opens cls) in O. rewrite O, (IH Q).
    destruct (Re.search (marks cls) z) as [[[pre m] r]|]; reflexivity.
Qed.

Lemma search_intro (pre m r : text) :
  quiet pre (m ++ r) -> token_at cls (m ++ r) = Some (m, r) ->
  Re.search (marks cls) (pre ++ m ++ r) = Some (pre, m, r).
Proof.
  intros Q T. rewrite (search_shift _ _ Q), search_unfold, T, app_nil_r.
  reflexivity.
Qed.

Lemma search_quiet_none (s : text) :
  quiet s [] -> Re.search (marks cls) s = None.
Proof.
  intros Q. rewrite <- (app_nil_r s) at 1. rewrite (search_shift _ _ Q). reflexivity.
Qed.

Lemma token_nonempty (s m r : text) :
  token_at cls s = Some (m, r) -> length r < length s.
Proof.
  intros T. destruct (token_shape cls _ _ _ T) as [-> [L | C]].
  - destruct L as [q [b [_ [-> _]]]]. simpl. rewrite !length_app. simpl. lia.
  - destruct C as [[h [run [-> [[-> | ->] _]]]] _]; rewrite !length_app;
      simpl; lia.
Qed.

Lemma Scan_total (s : text) : exists L, Scan cls s L.
Proof.
  remember (length s) as n eqn:E. revert s E.
  induction n as [n IH] using lt_wf_ind. intros s E.
  destruct (Re.search (marks cls) s) as [[[pre m] r]|] eqn:S.
  - destruct (search_some _ _ _ _ S) as [Es [_ T]].
    apply token_nonempty in T.
    destruct (IH (length r)) with (s := r) as [L HL]; [|reflexivity|].
    + subst. rewrite !length_app in *. lia.
    + exists (pre :: m :: L). exact (Scan_tok cls _ _ _ _ _ S HL).
  - exists [s]. exact (Scan_end cls _ S).
Qed.

Lemma Scan_length (s : text) (L : list text) :
  Scan cls s L -> length L <= 2 * length s + 1.
Proof.
  induction 1 as [s S | s pre m r L S H IH]; simpl; [lia|].
  destruct (search_some _ _ _ _ S) as [Es [_ T]]. apply token_nonempty in T.
  subst s. rewrite !length_app in *. lia.
Qed.

Lemma Scan_join (s : text) (L : list text) : Scan cls s L -> join L = s.
Proof.
  unfold join. induction 1 as [s S | s pre m r L S H IH]; simpl.
  - apply app_nil_r.
  - destruct (search_some _ _ _ _ S) as [Es _]. rewrite IH.
    symmetry. exact Es.
Qed.

Lemma Scan_split_n (s : text) (L : list text) :
  Scan cls s L -> forall n, length L <= 2 * n + 1 ->
  Re.split_n (marks cls) n s = L.
Proof.
  induction 1 as [s S | s pre m r L S H IH]; intros n Hn.
  - destruct n; simpl; [reflexivity | rewrite S; reflexivity].
  - destruct n; simpl in *; [lia|]. rewrite S. do 2 f_equal. apply IH. lia.
Qed.

Lemma Scan_split (s : text) (L : list text) :
  Scan cls s L -> Re.split (marks cls) s 0 = L.
Proof.
  intros H. unfold Re.split. apply (Scan_split_n _ _ H).
  apply Scan_length. exact H.
Qed.

Lemma Scan_fun (s : text) (L L' : list text) :
  Scan cls s L -> Scan cls s L' -> L = L'.
Proof.
  intros H H'. rewrite <- (Scan_split _ _ H). apply Scan_split. exact H'.
Qed.

End Scanner.

(** ** The file wrapper on a readable text file *)

Section Reading.

Import Io cJSONFile.

Variables (self : t) (h : file) (w : world).
Hypothesis Hready : ready h.

Lemma next_file_line (l : text) (ls : list text) :
  next_file (holding self h (l :: ls) w) = (inr l, holding self h ls w).
Proof.
  destruct Hready as [Hc [Hr Hb]].
  unfold next_file, holding, bind, self_file, next, assign_file, ret.
  simpl. rewrite Hc, Hr. reflexivity.
Qed.

Lemma next_file_end :
  next_file (holding self h [] w) = (inl StopIteration, holding self h [] w).
Proof.
  destruct Hready as [Hc [Hr Hb]].
  unfold next_file, holding, bind, self_file, next, raise.
  simpl. rewrite Hc, Hr. reflexivity.
Qed.

Lemma not_comment_line (l : text) (ls : list text) :
  not_comment l (holding self h ls w) = (inr (wanted l), holding self h ls w).
Proof.
  destruct Hready as [Hc [Hr Hb]].
  unfold not_comment, holding, bind, self_file, ret. simpl. rewrite Hb.
  reflexivity.
Qed.

Lemma close_held (ls : list text) :
  _close (holding self h ls w) = (inr tt, released self h w).
Proof.
  destruct Hready as [Hc [Hr Hb]].
  unfold _close, holding, released, bind, self_file, close_file, close,
    assign_file. simpl. rewrite Hc. reflexivity.
Qed.

Lemma next_rounds_spec (ls : list text) (n : nat) :
  length ls < n ->
  next_rounds n (holding self h ls w) =
  match first_wanted ls with
  | Some (x, rest) => (inr x, holding self h rest w)
  | None => (inl StopIteration, released self h w)
  end.
Proof.
  revert n. induction ls as [|l ls IH]; intros [|n] Hn; try (simpl in Hn; lia).
  - cbn [next_rounds first_wanted]. unfold bind at 1, catch.
    rewrite next_file_end. cbn [is_StopIteration].
    unfold bind at 1. rewrite close_held. reflexivity.
  - cbn [next_rounds first_wanted]. unfold bind at 1, catch.
    rewrite next_file_line. unfold bind at 1. rewrite not_comment_line.
    destruct (wanted l); [reflexivity|]. apply IH. simpl in Hn. lia.
Qed.

Lemma readline_rounds_spec (ls : list text) (n : nat) :
  length ls < n ->
  readline_rounds n (holding self h ls w) =
  match first_wanted ls with
  | Some (x, rest) => (inr x, holding self h rest w)
  | None => (inr [], holding self h [] w)
  end.
Proof.
  revert n. induction ls as [|l ls IH]; intros [|n] Hn; try (simpl in Hn; lia).
  - cbn [readline_rounds first_wanted]. unfold bind at 1, catch.
    unfold bind at 1. rewrite next_file_end. reflexivity.
  - cbn [readline_rounds first_wanted]. unfold bind at 1, catch.
    unfold bind at 1. rewrite next_file_line. unfold ret at 1.
    unfold bind at 1. rewrite not_comment_line.
    destruct (wanted l); [reflexivity|]. apply IH. simpl in Hn. lia.
Qed.

Lemma readlines_rounds_spec (ls : list text) (n : nat) :
  length ls < n ->
  readlines_rounds n (holding self h ls w) =
  (inr (map _clean (filter wanted ls)), holding self h [] w).
Proof.
  revert n. induction ls as [|l ls IH]; intros [|n] Hn; try (simpl in Hn; lia).
  - cbn [readlines_rounds filter map]. unfold bind at 1, catch.
    unfold bind at 1. rewrite next_file_end. reflexivity.
  - cbn [readlines_rounds filter]. unfold bind at 1, catch.
    unfold bind at 1. rewrite next_file_line. unfold ret at 1.
    unfold bind at 1. rewrite not_comment_line.
    unfold bind at 1. rewrite IH by (simpl in Hn; lia).
    destruct (wanted l); reflexivity.
Qed.

Lemma lines_left_holding (ls : list text) :
  lines_left (holding self h ls w) = length ls.
Proof. reflexivity. Qed.

Lemma next_spec (ls : list text) :
  __next__ (holding self h ls w) =
  match first_wanted ls with
  | Some (x, rest) => (inr x, holding self h rest w)
  | None => (inl StopIteration, released self h w)
  end.
Proof.
  unfold __next__. rewrite lines_left_holding. apply next_rounds_spec. lia.
Qed.

Lemma readline_spec (ls : list text) :
  readline (holding self h ls w) =
  match first_wanted ls with
  | Some (x, rest) => (inr x, holding self h rest w)
  | None => (inr [], holding self h [] w)
  end.
Proof.
  unfold readline. rewrite lines_left_holding. apply readline_rounds_spec. lia.
Qed.

Lemma readlines_spec (ls : list text) :
  readlines (holding self h ls w) =
  (inr (map _clean (filter wanted ls)), holding self h [] w).
Proof.
  unfold readlines. rewrite lines_left_holding.
  apply readlines_rounds_spec. lia.
Qed.

Lemma read_spec (ls : list text) :
  read (holding self h ls w) =
  (inr (join (map _clean (filter wanted ls))), holding self h [] w).
Proof. unfold read, bind. rewrite readlines_spec. reflexivity. Qed.

Lemma first_wanted_length (ls : list text) (x : text) (rest : list text) :
  first_wanted ls = Some (x, rest) -> length rest < length ls.
Proof.
  induction ls as [|l ls IH]; simpl; [discriminate|].
  destruct (wanted l).
  - intros E. injection E as _ <-. lia.
  - intros E. apply IH in E. lia.
Qed.

Lemma first_wanted_filter (ls : list text) :
  map _clean (filter wanted ls) =
  match first_wanted ls with
  | Some (x, rest) => x :: map _clean (filter wanted rest)
  | None => []
  end.
Proof.
  induction ls as [|l ls IH]; simpl; [reflexivity|].
  destruct (wanted l); [reflexivity | exact IH].
Qed.

Lemma for_rounds_spec (n : nat) (ls : list text) :
  length ls < n ->
  for_rounds n (holding self h ls w) =
  (inr (Some (map _clean (filter wanted ls))), released self h w).
Proof.
  revert ls. induction n as [|n IH]; intros ls Hn; [lia|].
  cbn [for_rounds]. unfold bind at 1, catch. unfold bind at 1.
  rewrite next_spec, first_wanted_filter.
  destruct (first_wanted ls) as [[x rest]|] eqn:F.
  - unfold ret at 1. unfold bind at 1.
    apply first_wanted_length in F. rewrite IH by lia. reflexivity.
  - reflexivity.
Qed.

End Reading.

(** ** Whole-line comments *)

Lemma lstrip_all (p : ascii -> bool) (ws s : text) :
  forallb p ws = true -> lstrip p (ws ++ s) = lstrip p s.
Proof.
  induction ws as [|c ws IH]; simpl; [reflexivity|]. intros F.
  apply andb_true_iff in F as [Hc F]. rewrite Hc. exact (IH F).
Qed.

Lemma lstrip_inner (p : ascii -> bool) (l k : text) (c : ascii) :
  p c = false -> exists l', lstrip p (l ++ c :: k) = l' ++ c :: k.
Proof.
  intros Hc. induction l as [|y l [l' IH]]; simpl.
  - rewrite Hc. exists []. reflexivity.
  - destruct (p y); [exists l'; exact IH | exists (y :: l); reflexivity].
Qed.

Lemma rstrip_keep (p : ascii -> bool) (a t : text) (c : ascii) :
  p c = false -> exists t', rstrip p (a ++ c :: t) = a ++ c :: t'.
Proof.
  intros Hc. unfold rstrip. rewrite rev_app_distr. simpl rev.
  rewrite <- app_assoc. simpl app.
  destruct (lstrip_inner p (rev t) (rev a) c Hc) as [l' E].
  rewrite E, rev_app_distr. simpl rev. rewrite rev_involutive, <- app_assoc.
  exists (rev l'). reflexivity.
Qed.

Lemma HASH_not_space : is_space HASH = false.
Proof. vm_compute. reflexivity. Qed.

Lemma SLASH_not_space : is_space SLASH = false.
Proof. vm_compute. reflexivity. Qed.

Lemma startswith_app (a r : text) : startswith (a ++ r) a = true.
Proof.
  induction a as [|c a IH]; simpl; [reflexivity|].
  rewrite Ascii.eqb_refl. exact IH.
Qed.

Lemma startswith_split (s a : text) :
  startswith s a = true -> exists r, s = a ++ r.
Proof.
  revert s. induction a as [|c a IH]; intros s; simpl.
  - intros _. exists s. reflexivity.
  - destruct s as [|d s]; [discriminate|]. intros H.
    apply andb_true_iff in H as [E H]. apply Ascii.eqb_eq in E. subst d.
    destruct (IH s H) as [r ->]. exists r. reflexivity.
Qed.

Lemma whole_line_comment_detected (line : text) :
  whole_line_comment line -> cJSONFile._is_comment line = true.
Proof.
  intros [ws [rest [F [-> | ->]]]]; unfold cJSONFile._is_comment, strip;
    rewrite (lstrip_all _ _ _ F).
  - rewrite (lstrip_keep _ _ _ HASH_not_space).
    destruct (rstrip_keep is_space [] rest HASH HASH_not_space) as [t' E].
    simpl app in E. rewrite E. simpl. rewrite Ascii.eqb_refl.
    apply orb_true_r.
  - rewrite (lstrip_keep _ _ _ SLASH_not_space).
    destruct (rstrip_keep is_space [SLASH] rest SLASH SLASH_not_space)
      as [t' E].
    simpl app in E. rewrite E. simpl. rewrite Ascii.eqb_refl. reflexivity.
Qed.

Lemma detected_whole_line_comment (l : text) :
  cJSONFile._is_comment l = true -> whole_line_comment l.
Proof.
  unfold cJSONFile._is_comment. intros C.
  destruct (strip_split is_space l) as [a [b [E [Fa _]]]].
  apply orb_true_iff in C as [C | C]; apply startswith_split in C as [r R];
    rewrite R in E; exists a, (r ++ b); (split; [exact Fa|]).
  - right. rewrite E. simpl. reflexivity.
  - left. rewrite E. simpl. reflexivity.
Qed.

Lemma wanted_comment (c : text) : whole_line_comment c -> wanted c = false.
Proof.
  intros C. unfold wanted. rewrite (whole_line_comment_detected _ C).
  reflexivity.
Qed.

Lemma wanted_line (l : text) : ~ whole_line_comment l -> wanted l = true.
Proof.
  intros N. unfold wanted.
  destruct (cJSONFile._is_comment l) eqn:C; [|reflexivity].
  exfalso. exact (N (detected_whole_line_comment l C)).
Qed.

Lemma first_wanted_skip (cs ls : list text) :
  Forall whole_line_comment cs -> first_wanted (cs ++ ls) = first_wanted ls.
Proof.
  induction 1 as [|c cs C _ IH]; [reflexivity|].
  simpl. rewrite (wanted_comment c C). exact IH.
Qed.

Lemma Surfaced_filter (ls out : list text) :
  Surfaced ls out -> out = map cJSONFile._clean (filter wanted ls).
Proof.
  induction 1 as [| c ls out C _ IH | l ls out N _ IH]; simpl.
  - reflexivity.
  - rewrite (wanted_comment c C). exact IH.
  - rewrite (wanted_line l N). simpl. f_equal. exact IH.
Qed.

(** C4.  A whole-line comment (a line whose first characters after leading
    white space are two slashes or a hash) is never surfaced by a line-based
    read of [cJSONFile].  Started before any number of such lines,
    [readline] and [__next__] return the cleaned form of the first line
    after them that is no whole-line comment and leave the lines after
    that one; when only such lines are left, [readline] returns the empty
    text of the end of the stream and [__next__] raises [StopIteration].
    [readlines], [read] and a complete iteration give one cleaned line for
    each line that is no whole-line comment, in order, and nothing for the
    others. *)
Theorem whole_line_comment_never_read :
  forall (self : cJSONFile.t) (h : Io.file) (w : Io.world)
         (cs : list text),
    ready h -> Forall whole_line_comment cs ->
    (forall (l : text) (rest : list text),
        ~ whole_line_comment l ->
        cJSONFile.readline (holding self h (cs ++ l :: rest) w)
        = (inr (cJSONFile._clean l), holding self h rest w)
        /\ cJSONFile.__next__ (holding self h (cs ++ l :: rest) w)
           = (inr (cJSONFile._clean l), holding self h rest w))
    /\ cJSONFile.readline (holding self h cs w)
       = (inr [], holding self h [] w)
    /\ cJSONFile.__next__ (holding self h cs w)
       = (inl Io.StopIteration, released self h w)
    /\ (forall (ls out : list text),
           Surfaced ls out ->
           cJSONFile.readlines (holding self h ls w)
           = (inr out, holding self h [] w)
           /\ cJSONFile.read (holding self h ls w)
              = (inr (join out), holding self h [] w)
           /\ (forall n, length ls < n ->
                 cJSONFile.for_loop n (holding self h ls w)
                 = (inr (Some out), released self h w))).
Proof.
  intros self h w cs R C.
  assert (E : first_wanted cs = None).
  { rewrite <- (app_nil_r cs). rewrite (first_wanted_skip cs [] C).
    reflexivity. }
  split; [|split; [|split]].
  - intros l rest N.
    rewrite (readline_spec self h w R), (next_spec self h w R).
    rewrite (first_wanted_skip cs (l :: rest) C). simpl.
    rewrite (wanted_line l N). split; reflexivity.
  - rewrite (readline_spec self h w R), E. reflexivity.
  - rewrite (next_spec self h w R), E. reflexivity.
  - intros ls out S. apply Surfaced_filter in S. subst out.
    split; [exact (readlines_spec self h w R ls)|].
    split; [exact (read_spec self h w R ls)|].
    intros n Hn. unfold cJSONFile.for_loop, cJSONFile.bind.
    change (cJSONFile.__iter__ (holding self h ls w))
      with (@inr Io.exn unit tt, holding self h ls w).
    cbv iota beta. exact (for_rounds_spec self h w R n ls Hn).
Qed.

Lemma whole_line_comment_never_read_witness :
  let self := {| cJSONFile._file_path := py "commented.json";
                 cJSONFile._mode := py "r";
                 cJSONFile._encoding := Some (py "utf-8");
                 cJSONFile._file := None |} in
  let h := {| Io.f_name := py "commented.json"; Io.f_mode := py "r";
              Io.f_encoding := Some (py "utf-8"); Io.f_binary := false;
              Io.f_readable := true; Io.f_lines := []; Io.f_closed := false |} in
  cJSONFile.readline
    (holding self h [py "\t// Integer\n"; py "\t`integer`: 1, # one\n"; py "}"]
             Demo.disk)
  = (inr (py "\t`integer`: 1,\n"), holding self h [py "}"] Demo.disk).
Proof.
  intros self h.
  destruct (whole_line_comment_never_read self h Demo.disk
              [py "\t// Integer\n"]) as [H _].
  - repeat split; reflexivity.
  - constructor; [|constructor].
    exists [TAB], (py " Integer\n"). split; [reflexivity|].
    right. reflexivity.
  - destruct (H (py "\t`integer`: 1, # one\n") [py "}"]) as [E _].
    + intros W. apply whole_line_comment_detected in W. vm_compute in W.
      discriminate W.
    + exact E.
Defined.

(** ** Opening and reopening *)

Lemma binary_modes_have_b (mode : text) :
  existsb (Io.text_eqb mode) cJSONFile.binary_modes = true ->
  Io.has "b"%char mode = true.
Proof.
  intros H. apply existsb_exists in H as [x [Hx E]].
  apply text_eqb_eq in E. subst x. unfold cJSONFile.binary_modes in Hx.
  simpl in Hx.
  repeat (destruct Hx as [<- | Hx]; [vm_compute; reflexivity|]).
  contradiction.
Qed.

Lemma parse_mode_flags (mode : text) (fl : Io.flags) :
  Io.parse_mode mode = Some fl ->
  Io.binary fl = Io.has "b"%char mode /\ Io.reading fl = Io.has "r"%char mode.
Proof.
  unfold Io.parse_mode.
  match goal with |- (if ?b then _ else _) = _ -> _ => destruct b end;
    [|discriminate].
  intros E. injection E as <-. split; reflexivity.
Qed.

Lemma resolves_no_NUL (w : Io.world) (enc : option text) :
  Io.resolves w enc = true ->
  match enc with Some e => Io.has NUL e | None => false end = false.
Proof.
  destruct enc as [e|]; [|reflexivity]. unfold Io.resolves.
  intros H. apply andb_true_iff in H as [H _].
  apply negb_true_iff in H. exact H.
Qed.


Lemma open_reading (w : Io.world) (path mode : text) (enc : option text)
      (content : text) (fl : Io.flags) :
  Io.fs_get (Io.w_fs w) path = Some content ->
  Io.parse_mode mode = Some fl ->
  Io.reading fl = true -> Io.binary fl = false ->
  Io.resolves w enc = true ->
  Io.open path mode enc w
  = (inr (fresh path mode enc content), Io.log (Io.Opened path mode enc) w).
Proof.
  intros G P R B K. unfold Io.open, Io.open_raw.
  rewrite (resolves_no_NUL w enc K), P, B, G, R, K. reflexivity.
Qed.

Lemma init_reading (w : Io.world) (path mode : text) (enc : option text)
      (content : text) (fl : Io.flags) :
  Io.fs_get (Io.w_fs w) path = Some content ->
  Io.parse_mode mode = Some fl ->
  Io.reading fl = true -> Io.binary fl = false ->
  Io.resolves w enc = true ->
  cJSONFile.__init__ path mode enc w
  = (inr (instance path mode enc (Some (fresh path mode enc content))),
     Io.log (Io.Opened path mode enc) w).
Proof.
  intros G P R B K. unfold cJSONFile.__init__.
  destruct (existsb (Io.text_eqb mode) cJSONFile.binary_modes) eqn:X.
  - apply binary_modes_have_b in X.
    destruct (parse_mode_flags _ _ P) as [E _]. congruence.
  - unfold cJSONFile.bind, cJSONFile._open.
    cbn [cJSONFile._file_path cJSONFile._mode cJSONFile._encoding].
    rewrite (open_reading _ _ _ _ _ _ G P R B K). reflexivity.
Qed.

Lemma fresh_ready (path mode : text) (enc : option text) (content : text) :
  ready (fresh path mode enc content).
Proof. repeat split. Qed.






(** ** Attribute delegation *)

Lemma exit_releases (st st' : cJSONFile.state) :
  cJSONFile.__exit__ st = (inr tt, st') -> cJSONFile._file (fst st') = None.
Proof.
  destruct st as [self w].
  unfold cJSONFile.__exit__, cJSONFile._close, cJSONFile.bind,
    cJSONFile.self_file. cbn [fst].
  destruct (cJSONFile._file self) as [h|].
  - unfold cJSONFile.close_file, cJSONFile.assign_file. cbn [fst snd].
    intros E. injection E as <-. reflexivity.
  - unfold cJSONFile.raise. discriminate.
Qed.

Lemma next_rounds_stop (n : nat) :
  forall st st' : cJSONFile.state,
    cJSONFile.lines_left st < n ->
    cJSONFile.next_rounds n st = (inl Io.StopIteration, st') ->
    cJSONFile._file (fst st') = None.
Proof.
  induction n as [|n IH]; intros [self w] st' L H; [lia|].
  cbn [cJSONFile.next_rounds] in H.
  unfold cJSONFile.bind at 1, cJSONFile.catch, cJSONFile.next_file in H.
  unfold cJSONFile.bind at 1, cJSONFile.self_file in H. cbn [fst] in H.
  unfold cJSONFile.lines_left in L. cbn [fst] in L.
  destruct (cJSONFile._file self) as [h|] eqn:F.
  - unfold Io.next in H.
    destruct (Io.f_closed h); [discriminate H|].
    destruct (negb (Io.f_readable h)); [discriminate H|].
    destruct (Io.f_lines h) as [|line ls] eqn:Ls.
    + unfold cJSONFile.raise at 1 in H. cbn [cJSONFile.is_StopIteration] in H.
      unfold cJSONFile.bind, cJSONFile._close, cJSONFile.self_file in H.
      unfold cJSONFile.bind, cJSONFile.close_file, cJSONFile.assign_file,
        cJSONFile.raise in H. cbn [fst] in H. rewrite F in H.
      cbn [fst snd] in H. injection H as <-. reflexivity.
    + unfold cJSONFile.bind at 1, cJSONFile.assign_file, cJSONFile.ret in H.
      cbn [fst snd] in H.
      unfold cJSONFile.bind at 1, cJSONFile.not_comment in H.
      unfold cJSONFile.bind at 1, cJSONFile.self_file in H.
      cbn [fst cJSONFile.set_file cJSONFile._file Io.set_lines Io.f_binary] in H.
      destruct (Io.f_binary h); [discriminate H|].
      unfold cJSONFile.ret at 1 in H.
      destruct (negb (cJSONFile._is_comment line)); [discriminate H|].
      apply IH in H; [exact H|].
      unfold cJSONFile.lines_left. cbn. simpl in L. lia.
  - discriminate H.
Qed.

Lemma next_stop_releases (st st' : cJSONFile.state) :
  cJSONFile.__next__ st = (inl Io.StopIteration, st') ->
  cJSONFile._file (fst st') = None.
Proof.
  intros H.
  apply (next_rounds_stop (S (cJSONFile.lines_left st)) st st');
    [lia | exact H].
Qed.

Lemma getattr_released (st : cJSONFile.state) (a : text) :
  cJSONFile._file (fst st) = None ->
  cJSONFile.__getattr__ a st
  = (if existsb (Io.text_eqb a) Io.NONE_ATTRS then inr (Io.none_attr a)
     else inl Io.AttributeError, st).
Proof.
  intros F. unfold cJSONFile.__getattr__, cJSONFile.bind, cJSONFile.self_file.
  rewrite F. unfold Io.getattr.
  destruct (existsb (Io.text_eqb a) Io.NONE_ATTRS); reflexivity.
Qed.

(** Of the attributes of [None], the instance answers all but [__bool__]
    by itself. *)
Lemma none_attr_not_own (a : text) :
  existsb (Io.text_eqb a) Io.NONE_ATTRS = true ->
  existsb (Io.text_eqb a) cJSONFile.ATTRS = false ->
  a = py "__bool__".
Proof.
  intros N O. apply existsb_exists in N as [x [Hx E]].
  apply text_eqb_eq in E. subst x. unfold Io.NONE_ATTRS in Hx.
  simpl in Hx. destruct Hx as [<- | Hx]; [reflexivity|].
  repeat (destruct Hx as [<- | Hx]; [vm_compute in O; discriminate O|]).
  contradiction.
Qed.

(** No file object has an attribute [__bool__]. *)
Lemma file_has_no_bool (f : Io.file) :
  Io.hasattr (Some f) (py "__bool__") = false.
Proof.
  unfold Io.hasattr, Io.getattr, Io.file_getattr.
  replace (Io.text_eqb (py "__bool__") (py "name")) with false
    by (vm_compute; reflexivity).
  replace (Io.text_eqb (py "__bool__") (py "mode")) with false
    by (vm_compute; reflexivity).
  replace (Io.text_eqb (py "__bool__") (py "closed")) with false
    by (vm_compute; reflexivity).
  replace (existsb (Io.text_eqb (py "__bool__")) Io.FILE_METHODS) with false
    by (vm_compute; reflexivity).
  replace (existsb (Io.text_eqb (py "__bool__")) Io.FILE_SPECIALS) with false
    by (vm_compute; reflexivity).
  destruct (Io.f_binary f).
  - replace (existsb (Io.text_eqb (py "__bool__")) Io.BINARY_METHODS)
      with false by (vm_compute; reflexivity).
    replace (Io.text_eqb (py "__bool__") (py "peek")) with false
      by (vm_compute; reflexivity).
    reflexivity.
  - replace (Io.text_eqb (py "__bool__") (py "encoding")) with false
      by (vm_compute; reflexivity).
    reflexivity.
Qed.

(** C10, as the code has it.  Once [__exit__] has returned, or [__next__]
    has raised [StopIteration], the instance holds no file and
    [__getattr__] looks the name up on [None]: it raises [AttributeError]
    for every name but the attributes of [None], which it serves.  Of the
    names for which [__getattr__] is called, those the instance does not
    answer by itself, all raise but [__bool__]: so does every attribute a
    file object would have served by delegation, among them [closed],
    [name] and [mode], and [closed] is never reported as true. *)
Theorem released_instance_has_no_attributes :
  forall (st st' : cJSONFile.state) (a : text),
    cJSONFile.__exit__ st = (inr tt, st')
    \/ cJSONFile.__next__ st = (inl Io.StopIteration, st') ->
    cJSONFile.__getattr__ a st'
    = (if existsb (Io.text_eqb a) Io.NONE_ATTRS then inr (Io.none_attr a)
       else inl Io.AttributeError, st')
    /\ (existsb (Io.text_eqb a) cJSONFile.ATTRS = false ->
        a <> py "__bool__" ->
        cJSONFile.__getattr__ a st' = (inl Io.AttributeError, st'))
    /\ (forall f : Io.file,
          Io.hasattr (Some f) a = true ->
          existsb (Io.text_eqb a) cJSONFile.ATTRS = false ->
          cJSONFile.__getattr__ a st' = (inl Io.AttributeError, st'))
    /\ cJSONFile.__getattr__ (py "closed") st' = (inl Io.AttributeError, st')
    /\ cJSONFile.__getattr__ (py "name") st' = (inl Io.AttributeError, st')
    /\ cJSONFile.__getattr__ (py "mode") st' = (inl Io.AttributeError, st')
    /\ (forall st'', cJSONFile.__getattr__ (py "closed") st'
                     <> (inr (Io.VBool true), st'')).
Proof.
  intros st st' a H.
  assert (F : cJSONFile._file (fst st') = None).
  { destruct H as [H | H];
      [exact (exit_releases _ _ H) | exact (next_stop_releases _ _ H)]. }
  assert (G := getattr_released st' a F).
  assert (Own : existsb (Io.text_eqb a) cJSONFile.ATTRS = false ->
                a <> py "__bool__" ->
                cJSONFile.__getattr__ a st' = (inl Io.AttributeError, st')).
  { intros O B. rewrite G.
    destruct (existsb (Io.text_eqb a) Io.NONE_ATTRS) eqn:N; [|reflexivity].
    exfalso. exact (B (none_attr_not_own a N O)). }
  assert (C : cJSONFile.__getattr__ (py "closed") st'
              = (inl Io.AttributeError, st'))
    by (rewrite (getattr_released st' _ F); reflexivity).
  split; [exact G|]. split; [exact Own|]. split; [|split; [exact C|split; [|split]]].
  - intros f Hf O. apply (Own O). intros ->.
    rewrite (file_has_no_bool f) in Hf. discriminate Hf.
  - rewrite (getattr_released st' _ F). reflexivity.
  - rewrite (getattr_released st' _ F). reflexivity.
  - intros st'' E. rewrite C in E. discriminate E.
Qed.

Lemma released_instance_has_no_attributes_witness :
  let opened := (instance (py "commented.json") (py "r") (Some (py "utf-8"))
                   (Some (fresh (py "commented.json") (py "r")
                                (Some (py "utf-8")) demo_raw)),
                 Io.log (Io.Opened (py "commented.json") (py "r")
                                   (Some (py "utf-8"))) Demo.disk) in
  let st' := snd (cJSONFile.__exit__ opened) in
  cJSONFile.__getattr__ (py "closed") st' = (inl Io.AttributeError, st').
Proof.
  intros opened st'.
  destruct (released_instance_has_no_attributes opened st' (py "closed"))
    as [_ [_ [_ [R _]]]].
  - left. reflexivity.
  - exact R.
Defined.

(** The name on which C10 as stated fails: the instance does not answer
    [__bool__] by itself, so the access reaches [__getattr__]; while the
    file is held it raises [AttributeError], a file object having no such
    attribute, and once the file is released it returns the method of
    [None]. *)
Lemma released_instance_serves_bool :
  let opened := (instance (py "commented.json") (py "r") (Some (py "utf-8"))
                   (Some (fresh (py "commented.json") (py "r")
                                (Some (py "utf-8")) demo_raw)),
                 Io.log (Io.Opened (py "commented.json") (py "r")
                                   (Some (py "utf-8"))) Demo.disk) in
  let st' := snd (cJSONFile.__exit__ opened) in
  cJSONFile.__exit__ opened = (inr tt, st')
  /\ existsb (Io.text_eqb (py "__bool__")) cJSONFile.ATTRS = false
  /\ cJSONFile.__getattr__ (py "__bool__") opened
     = (inl Io.AttributeError, opened)
  /\ cJSONFile.__getattr__ (py "__bool__") st'
     = (inr (Io.VMethod (py "__bool__")), st').
Proof. intros opened st'. repeat split; vm_compute; reflexivity. Qed.

(** ** Leaving a [with] block *)

Lemma exit_without_file (self : cJSONFile.t) (w : Io.world) :
  cJSONFile._file self = None ->
  cJSONFile.__exit__ (self, w) = (inl Io.AttributeError, (self, w)).
Proof.
  intros F. unfold cJSONFile.__exit__, cJSONFile._close, cJSONFile.bind,
    cJSONFile.self_file. cbn [fst]. rewrite F. reflexivity.
Qed.

Lemma exit_after_any_exhaustion (self : cJSONFile.t) (h : Io.file)
      (w : Io.world) (ls : list text) (n : nat) :
  ready h -> length ls < n ->
  cJSONFile.with_block (cJSONFile.for_loop n) (holding self h ls w)
  = (inl Io.AttributeError, released self h w).
Proof.
  intros R Hn. unfold cJSONFile.with_block, cJSONFile.bind at 1.
  change (cJSONFile.__enter__ (holding self h ls w))
    with (@inr Io.exn unit tt, holding self h ls w).
  cbv iota beta. unfold cJSONFile.for_loop, cJSONFile.bind at 1.
  change (cJSONFile.__iter__ (holding self h ls w))
    with (@inr Io.exn unit tt, holding self h ls w).
  cbv iota beta. rewrite (for_rounds_spec self h w R n ls Hn).
  unfold cJSONFile.bind. unfold released at 1.
  rewrite exit_without_file by reflexivity. reflexivity.
Qed.

(** C5 (the code departs from it).  A [with] block over the notebook's file
    whose body iterates the instance to the end: [__next__] has already
    closed the file and set [_file] to [None], so [__exit__] raises
    [AttributeError] instead of completing. *)
Theorem exit_after_exhaustion_raises :
  let path := py "commented.json" in
  let enc := Some (py "utf-8") in
  cJSONFile.__init__ path (py "r") enc Demo.disk
  = (inr (instance path (py "r") enc (Some (fresh path (py "r") enc demo_raw))),
     Io.log (Io.Opened path (py "r") enc) Demo.disk)
  /\ cJSONFile.with_block (cJSONFile.for_loop 8)
       (instance path (py "r") enc (Some (fresh path (py "r") enc demo_raw)),
        Io.log (Io.Opened path (py "r") enc) Demo.disk)
     = (inl Io.AttributeError,
        (instance path (py "r") enc None,
         Io.log (Io.Closed path) (Io.log (Io.Opened path (py "r") enc) Demo.disk))).
Proof. split; vm_compute; reflexivity. Qed.

(** ** The mode check of [__init__] *)

Lemma listed_binary_mode_rejected (path mode : text) (enc : option text)
      (w : Io.world) :
  In mode cJSONFile.binary_modes ->
  cJSONFile.__init__ path mode enc w = (inl Io.ValueError, w).
Proof.
  intros H. unfold cJSONFile.__init__.
  replace (existsb (Io.text_eqb mode) cJSONFile.binary_modes) with true;
    [reflexivity|].
  symmetry. apply existsb_exists. exists mode. split; [exact H|].
  apply text_eqb_eq. reflexivity.
Qed.

Lemma binary_mode_with_encoding_rejected (path mode e : text) (fl : Io.flags)
      (w : Io.world) :
  Io.parse_mode mode = Some fl -> Io.binary fl = true ->
  cJSONFile.__init__ path mode (Some e) w = (inl Io.ValueError, w).
Proof.
  intros P B. unfold cJSONFile.__init__.
  destruct (existsb (Io.text_eqb mode) cJSONFile.binary_modes);
    [reflexivity|].
  unfold cJSONFile.bind, cJSONFile._open, Io.open.
  cbn [cJSONFile._file_path cJSONFile._mode cJSONFile._encoding].
  rewrite P, B. destruct (Io.has NUL e); reflexivity.
Qed.

(** C6 (the code departs from it).  The binary mode [ab+] is not in the
    tuple [binary_modes]; given [encoding=None], [__init__] raises nothing:
    it opens the file in binary mode. *)
Theorem unlisted_binary_mode_accepted :
  let path := py "commented.json" in
  Io.parse_mode (py "ab+")
  = Some {| Io.creating := false; Io.reading := false; Io.writing := false;
            Io.appending := true; Io.updating := true; Io.as_text := false;
            Io.binary := true |}
  /\ cJSONFile.__init__ path (py "ab+") None Demo.disk
     = (inr (instance path (py "ab+") None
               (Some {| Io.f_name := path; Io.f_mode := py "ab+";
                        Io.f_encoding := None; Io.f_binary := true;
                        Io.f_readable := true; Io.f_lines := [];
                        Io.f_closed := false |})),
        Io.log (Io.Opened path (py "ab+") None) Demo.disk).
Proof. split; vm_compute; reflexivity. Qed.

(** ** The split limit of [cJSONStr] *)

(** C1 (the code departs from it).  A text with five commented lines holds
    ten tokens; [re.split] stops after eight, so the fifth comment reaches
    the output.  The file wrapper, whose [re.split] has no limit, removes
    it. *)
Theorem comment_beyond_split_limit_survives :
  cJSONStr.__new__ five_comments
  = py "{\n`a`: 1,\n`b`: 2,\n`c`: 3,\n`d`: 4,\n`e`: 5 # five\n}"
  /\ join (map cJSONFile._clean (Io.splitlines five_comments))
     = py "{\n`a`: 1,\n`b`: 2,\n`c`: 3,\n`d`: 4,\n`e`: 5\n}".
Proof. split; vm_compute; reflexivity. Qed.

(** ** Text without tokens *)

Lemma contains_unfold (sub s : text) :
  contains sub s =
  startswith s sub || match s with [] => false | _ :: t => contains sub t end.
Proof. destruct s; reflexivity. Qed.

Lemma contains_intro (sub u r : text) : contains sub (u ++ sub ++ r) = true.
Proof.
  induction u as [|c u IH]; simpl.
  - rewrite contains_unfold, startswith_app. reflexivity.
  - rewrite IH. apply orb_true_r.
Qed.

Lemma contains_split (sub s : text) :
  contains sub s = true -> exists u r, s = u ++ sub ++ r.
Proof.
  induction s as [|c s IH]; simpl.
  - rewrite orb_false_r. intros H. apply startswith_split in H as [r ->].
    exists [], r. reflexivity.
  - intros H. apply orb_true_iff in H as [H | H].
    + apply startswith_split in H as [r ->]. exists [], r. reflexivity.
    + destruct (IH H) as [u [r ->]]. exists (c :: u), r. reflexivity.
Qed.

Lemma firstline_split (t : text) : exists r, t = firstline t ++ r.
Proof.
  induction t as [|c t [r IH]]; simpl.
  - exists []. reflexivity.
  - destruct (Ascii.eqb c LF).
    + exists (c :: t). reflexivity.
    + exists r. simpl. f_equal. exact IH.
Qed.

Lemma firstline_find (q : ascii) (t : text) :
  In q (firstline t) -> exists b r, t = b ++ q :: r /\ ~ In LF b.
Proof.
  intros H. destruct (firstline_split t) as [r E].
  destruct (in_split _ _ H) as [b [b2 F]].
  exists b, (b2 ++ r). split.
  - rewrite E at 1. rewrite F, <- app_assoc. reflexivity.
  - intros N. apply (firstline_no_LF t). rewrite F. apply in_or_app. auto.
Qed.

(** The cases in which a token starts at [c], followed by [t]. *)
Lemma opens_cases (c : ascii) (t : text) :
  opens c t = true ->
  (exists b r, (c = DQ \/ c = SQ) /\ t = b ++ c :: r /\ ~ In LF b)
  \/ c = HASH
  \/ (c = SLASH /\ exists r, t = SLASH :: r).
Proof.
  unfold opens. intros H.
  apply orb_true_iff in H as [H | H];
    [apply orb_true_iff in H as [H | H];
     [apply orb_true_iff in H as [H | H]|]|].
  - apply andb_true_iff in H as [E H]. apply Ascii.eqb_eq in E. subst c.
    apply existsb_eqb_In, firstline_find in H as [b [r [E N]]].
    left. exists b, r. auto.
  - apply andb_true_iff in H as [E H]. apply Ascii.eqb_eq in E. subst c.
    apply existsb_eqb_In, firstline_find in H as [b [r [E N]]].
    left. exists b, r. auto.
  - apply Ascii.eqb_eq in H. auto.
  - apply andb_true_iff in H as [E H]. apply Ascii.eqb_eq in E.
    apply startswith_split in H as [r ->]. right. right. split; [auto|].
    exists r. reflexivity.
Qed.

Lemma plain_quiet (s : text) :
  ~ quoted s -> ~ In HASH s -> contains [SLASH; SLASH] s = false ->
  quiet s [].
Proof.
  intros Q H S u1 c u2 E. rewrite app_nil_r.
  destruct (opens c u2) eqn:O; [exfalso | reflexivity].
  apply opens_cases in O as [[b [r [K [-> N]]]] | [-> | [-> [r ->]]]].
  - apply Q. exists u1, c, b, r. auto.
  - apply H. rewrite E. apply in_or_app. right. left. reflexivity.
  - rewrite E in S.
    change (u1 ++ SLASH :: SLASH :: r) with (u1 ++ [SLASH; SLASH] ++ r) in S.
    rewrite contains_intro in S. discriminate.
Qed.

Lemma quiet_unmarked (u z : text) :
  quiet u z -> u <> [] -> cJSONStr.is_marked (u ++ z) = false.
Proof.
  intros Q N. destruct u as [|c u]; [contradiction|].
  apply quiet_cons in Q as [O _]. unfold opens in O.
  apply orb_false_iff in O as [O O4]. apply orb_false_iff in O as [_ O3].
  unfold cJSONStr.is_marked. simpl.
  rewrite (Ascii.eqb_sym SLASH c), (Ascii.eqb_sym HASH c) in *.
  rewrite O3. simpl. rewrite orb_false_r.
  destruct (Ascii.eqb c SLASH); [|reflexivity]. simpl in *.
  destruct (u ++ z) as [|d v]; [reflexivity|]. simpl in O4.
  rewrite andb_true_r in *. exact O4.
Qed.

Lemma search_none_unmarked (cls : Re.cset) (s : text) :
  Re.search (marks cls) s = None -> cJSONStr.is_marked s = false.
Proof.
  intros H. apply search_none in H. destruct s as [|c s]; [reflexivity|].
  rewrite <- (app_nil_r (c :: s)). apply quiet_unmarked; [exact H|discriminate].
Qed.

(** C7, as the code has it.  On a text with no quoted span, no hash and no
    two slashes in a row, [cJSONStr] returns the text with the blanks at its
    two ends removed: the one part [re.split] gives goes through
    [strip]. *)
Theorem plain_text_is_stripped :
  forall s : text,
    ~ quoted s -> ~ In HASH s -> contains [SLASH; SLASH] s = false ->
    cJSONStr.__new__ s = strip is_blank s.
Proof.
  intros s Q H S.
  assert (N : Re.search (marks (Re.NoneOf [CR; LF])) s = None)
    by (apply search_quiet_none, plain_quiet; assumption).
  unfold cJSONStr.__new__, cJSONStr._clean, Re.split, Re.MULTILINE.
  rewrite PATTERN_str. cbn [Re.split_n]. rewrite N.
  cbn [filter]. rewrite (search_none_unmarked _ _ N). simpl.
  apply app_nil_r.
Qed.

Lemma no_quote_not_quoted (s : text) :
  ~ In DQ s -> ~ In SQ s -> ~ quoted s.
Proof.
  intros D Q [a [q [b [c [-> [[-> | ->] _]]]]]]; [apply D | apply Q];
    apply in_or_app; right; left; reflexivity.
Qed.

Lemma plain_text_is_stripped_witness :
  cJSONStr.__new__ (py "  [1, 2, 3] ") = py "[1, 2, 3]".
Proof.
  rewrite (plain_text_is_stripped (py "  [1, 2, 3] ")).
  - reflexivity.
  - apply no_quote_not_quoted; apply existsb_eqb_notIn; reflexivity.
  - apply existsb_eqb_notIn. reflexivity.
  - reflexivity.
Defined.

(** The input on which C7 as stated fails: no quote, no hash, no slash,
    and the leading blank does not come back. *)
Lemma plain_text_not_identity :
  existsb (Ascii.eqb DQ) (py " 1") = false
  /\ existsb (Ascii.eqb SQ) (py " 1") = false
  /\ existsb (Ascii.eqb HASH) (py " 1") = false
  /\ contains [SLASH; SLASH] (py " 1") = false
  /\ cJSONStr.__new__ (py " 1") = py "1"
  /\ cJSONStr.__new__ (py " 1") <> py " 1".
Proof. repeat split; try reflexivity. vm_compute. discriminate. Qed.

(** ** Quoted literals *)

Lemma quote_facts (q : ascii) :
  q = DQ \/ q = SQ ->
  q <> LF /\ q <> HASH /\ q <> SLASH /\ is_blank q = false
  /\ is_space q = false /\ other_quote q <> q
  /\ (other_quote q = DQ \/ other_quote q = SQ).
Proof.
  intros [-> | ->]; repeat split;
    try (apply Ascii.eqb_neq; vm_compute; reflexivity);
    try (vm_compute; reflexivity); vm_compute; auto.
Qed.

Lemma token_at_quote (cls : Re.cset) (q : ascii) (mid post : text) :
  q = DQ \/ q = SQ -> ~ In LF mid -> ~ In q (firstline post) ->
  token_at cls (q :: mid ++ q :: post) = Some (q :: mid ++ [q], post).
Proof.
  intros Q M N. destruct (quote_facts q Q) as [L _].
  unfold token_at. destruct Q as [-> | ->].
  - rewrite Ascii.eqb_refl, (close_quote_intro DQ mid post L M N). reflexivity.
  - replace (Ascii.eqb DQ SQ) with false by (vm_compute; reflexivity).
    rewrite Ascii.eqb_refl, (close_quote_intro SQ mid post L M N).
    reflexivity.
Qed.

Lemma is_marked_app (a z : text) :
  cJSONStr.is_marked a = true -> cJSONStr.is_marked (a ++ z) = true.
Proof.
  unfold cJSONStr.is_marked. intros H. apply orb_true_iff in H as [H | H];
    apply startswith_split in H as [r ->]; simpl; rewrite !Ascii.eqb_refl;
    simpl; auto using orb_true_r.
Qed.

Lemma quiet_part_unmarked (u z : text) :
  quiet u z -> cJSONStr.is_marked u = false.
Proof.
  intros Q. destruct u as [|c u]; [reflexivity|].
  destruct (cJSONStr.is_marked (c :: u)) eqn:M; [|reflexivity].
  apply (is_marked_app _ z) in M.
  rewrite quiet_unmarked in M; [discriminate | exact Q | discriminate].
Qed.

Lemma is_comment_has_marker (s : text) :
  cJSONFile._is_comment s = true ->
  In HASH s \/ contains [SLASH; SLASH] s = true.
Proof.
  unfold cJSONFile._is_comment. intros H.
  destruct (strip_split is_space s) as [a [b [E _]]].
  apply orb_true_iff in H as [H | H]; apply startswith_split in H as [r R];
    rewrite R in E.
  - right. rewrite E, <- app_assoc. apply contains_intro.
  - left. rewrite E. apply in_or_app. right. left. reflexivity.
Qed.

Lemma quote_token_unmarked (q : ascii) (mid : text) :
  q = DQ \/ q = SQ ->
  cJSONStr.is_marked (q :: mid ++ [q]) = false
  /\ cJSONFile._is_comment (q :: mid ++ [q]) = false
  /\ strip is_blank (q :: mid ++ [q]) = q :: mid ++ [q].
Proof.
  intros Q. destruct (quote_facts q Q) as [_ [H [S [B [W _]]]]].
  assert (M : forall t, cJSONStr.is_marked (q :: t) = false).
  { intros t. unfold cJSONStr.is_marked. simpl.
    apply Ascii.eqb_neq in H, S.
    rewrite (Ascii.eqb_sym SLASH q), (Ascii.eqb_sym HASH q), H, S.
    reflexivity. }
  repeat split.
  - apply M.
  - unfold cJSONFile._is_comment.
    rewrite (trimmed_strip _ _ (trimmed_ends is_space q q mid W W)).
    apply (M (mid ++ [q])).
  - apply trimmed_strip, trimmed_ends; assumption.
Qed.

(** ** Cleaning what is already clean *)

Lemma below_nil (s : text) : below [] s.
Proof. intros c []. Qed.

Lemma in_existsb_LF (a : text) : existsb (Ascii.eqb LF) a = false <-> ~ In LF a.
Proof. apply existsb_eqb_notIn. Qed.

Lemma below_app (u y s : text) : below y s -> below (u ++ y) (u ++ s).
Proof.
  intros B c. rewrite !firstline_app.
  destruct (existsb (Ascii.eqb LF) u); [tauto|].
  intros H. apply in_or_app. apply in_app_or in H as [H | H]; auto.
Qed.

Lemma below_skip (a y s : text) : ~ In LF a -> below y s -> below y (a ++ s).
Proof.
  intros N B c H. rewrite firstline_app.
  apply in_existsb_LF in N. rewrite N. apply in_or_app. right. exact (B c H).
Qed.

Lemma below_cut (y b : text) : below y (y ++ b).
Proof.
  intros c H. rewrite firstline_app.
  destruct (existsb (Ascii.eqb LF) y) eqn:E; [exact H|].
  apply in_or_app. left. apply firstline_incl. exact H.
Qed.

Lemma blanks_no_LF (a : text) : forallb is_blank a = true -> ~ In LF a.
Proof.
  intros F H. rewrite forallb_forall in F. apply F in H. vm_compute in H.
  discriminate.
Qed.

Lemma opens_mono (c : ascii) (t t' : text) :
  below t' t ->
  (startswith t' [SLASH] = true -> startswith t [SLASH] = true) ->
  opens c t = false -> opens c t' = false.
Proof.
  intros B S O. unfold opens in *.
  apply orb_false_iff in O as [O O4]. apply orb_false_iff in O as [O O3].
  apply orb_false_iff in O as [O1 O2].
  assert (Q : forall q, Ascii.eqb q c && existsb (Ascii.eqb q) (firstline t) = false ->
              Ascii.eqb q c && existsb (Ascii.eqb q) (firstline t') = false).
  { intros q H. destruct (Ascii.eqb q c); [|reflexivity].
    cbn [andb] in *.
    apply existsb_eqb_notIn. apply existsb_eqb_notIn in H. intros I.
    exact (H (B q I)). }
  rewrite (Q DQ O1), (Q SQ O2), O3. cbn [orb].
  destruct (Ascii.eqb SLASH c) eqn:E4; [|reflexivity].
  cbn [andb] in *.
  destruct (startswith t' [SLASH]) eqn:E; [|reflexivity].
  rewrite (S eq_refl) in O4. discriminate.
Qed.

Lemma quiet_mono (u z z' : text) :
  quiet u z -> below z' z ->
  (startswith z' [SLASH] = true -> startswith z [SLASH] = true) ->
  quiet u z'.
Proof.
  intros Q B S u1 c u2 E. apply (opens_mono c (u2 ++ z)); [| |exact (Q u1 c u2 E)].
  - apply below_app, B.
  - destruct u2; simpl; [exact S | tauto].
Qed.

Lemma to_eol_stop (c : ascii) :
  Re.cset_mem to_eol c = false -> c = CR \/ c = LF.
Proof.
  unfold to_eol, Re.cset_mem. simpl. rewrite orb_false_r.
  intros H. apply negb_false_iff, orb_true_iff in H as [H | H];
    apply Ascii.eqb_eq in H; auto.
Qed.

Lemma to_eol_no_LF (run : text) :
  forallb (Re.cset_mem to_eol) run = true -> ~ In LF run.
Proof.
  intros F H. rewrite forallb_forall in F. apply F in H. vm_compute in H.
  discriminate.
Qed.

Lemma eol_facts (c : ascii) :
  c = CR \/ c = LF ->
  is_blank c = false /\ c <> SLASH /\ c <> HASH /\ c <> DQ /\ c <> SQ.
Proof.
  intros [-> | ->]; repeat split;
    try (vm_compute; reflexivity); apply Ascii.eqb_neq; vm_compute; reflexivity.
Qed.

Lemma cleaned_cons (p : text) (L : list text) :
  cleaned (p :: L)
  = (if cJSONStr.is_marked p then [] else strip is_blank p) ++ cleaned L.
Proof.
  unfold cleaned. simpl. destruct (cJSONStr.is_marked p); reflexivity.
Qed.

Lemma cleaned_settled (L : list text) : Forall settled L -> cleaned L = join L.
Proof.
  induction 1 as [|p L [M T] _ IH]; [reflexivity|].
  rewrite cleaned_cons, M, IH, (trimmed_strip _ _ T). reflexivity.
Qed.

Lemma Scan_head_unmarked (cls : Re.cset) (s p : text) (L : list text) :
  Scan cls s (p :: L) -> cJSONStr.is_marked p = false.
Proof.
  inversion 1 as [s0 S | s0 pre m r L0 S H0]; subst.
  - exact (search_none_unmarked _ _ S).
  - destruct (search_some _ _ _ _ _ S) as [_ [Q _]].
    exact (quiet_part_unmarked _ _ Q).
Qed.

Lemma Scan_prepend (cls : Re.cset) (u y p0 : text) (L : list text) :
  quiet u y -> Scan cls y (p0 :: L) -> Scan cls (u ++ y) ((u ++ p0) :: L).
Proof.
  intros Q. inversion 1 as [s0 S | s0 pre m r L0 S H0]; subst.
  - apply Scan_end. rewrite (search_shift cls _ _ Q), S. reflexivity.
  - apply (Scan_tok cls _ _ _ r); [|exact H0].
    rewrite (search_shift cls _ _ Q), S. reflexivity.
Qed.

Lemma Scan_nil (cls : Re.cset) (L : list text) : Scan cls [] L -> L = [[]].
Proof.
  inversion 1 as [s0 S | s0 pre m r L0 S H0]; subst; [reflexivity|].
  rewrite search_unfold in S. discriminate S.
Qed.

Lemma Scan_odd (cls : Re.cset) (s : text) (L : list text) :
  Scan cls s L -> exists k, length L = 2 * k + 1.
Proof.
  induction 1 as [s E | s pre m r L E H [k IH]].
  - exists 0. reflexivity.
  - exists (S k). simpl. rewrite IH. lia.
Qed.

Lemma comment_facts (m r : text) :
  comment to_eol m r ->
  cJSONStr.is_marked m = true /\ ~ In LF m
  /\ (r = [] \/ exists c r', r = c :: r' /\ (c = CR \/ c = LF))
  /\ (exists c m', m = c :: m' /\ (c = HASH \/ c = SLASH)).
Proof.
  intros [[h [run [-> [Hh F]]]] R].
  assert (NL : ~ In LF run) by exact (to_eol_no_LF run F).
  assert (R' : r = [] \/ exists c r', r = c :: r' /\ (c = CR \/ c = LF)).
  { destruct R as [-> | [c [r' [-> Hc]]]]; [auto|].
    right. exists c, r'. split; [reflexivity | exact (to_eol_stop c Hc)]. }
  destruct Hh as [-> | ->].
  - split; [vm_compute; reflexivity|]. split; [|split; [exact R'|]].
    + intros [H | H]; [|tauto]. apply (f_equal nat_of_ascii) in H.
      vm_compute in H. discriminate.
    + exists HASH, run. auto.
  - split; [vm_compute; reflexivity|]. split; [|split; [exact R'|]].
    + intros [H | [H | H]]; [| |tauto]; apply (f_equal nat_of_ascii) in H;
        vm_compute in H; discriminate.
    + exists SLASH, (SLASH :: run). auto.
Qed.

Lemma clean_scan (s : text) (L : list text) :
  Scan to_eol s L ->
  exists L',
    Scan to_eol (cleaned L) L' /\ Forall settled L'
    /\ length L' <= length L
    /\ below (cleaned L) s
    /\ (forall c t, s = c :: t -> c = CR \/ c = LF ->
        exists t', cleaned L = c :: t').
Proof.
  induction 1 as [s E | s pre m r L E H IH].
  - assert (Q := search_none _ _ E).
    rewrite cleaned_cons, (search_none_unmarked _ _ E).
    change (cleaned []) with (@nil ascii). rewrite app_nil_r.
    destruct (strip_split is_blank s) as [a [b [Es [Fa Fb]]]].
    remember (strip is_blank s) as y eqn:Ey.
    assert (Qy : quiet y []).
    { rewrite Es in Q. apply quiet_app in Q as [_ Q].
      apply quiet_app in Q as [Q _].
      apply (quiet_mono y (b ++ [])); [exact Q | apply below_nil|].
      simpl. discriminate. }
    exists [y]. split; [apply Scan_end, search_quiet_none, Qy|].
    split.
    { constructor; [|constructor]. split.
      - exact (quiet_part_unmarked _ _ Qy).
      - rewrite Ey. apply strip_trimmed. }
    split; [simpl; lia|]. split.
    + rewrite Es. apply below_skip; [exact (blanks_no_LF a Fa)|].
      apply below_cut.
    + intros c t Est Hc. rewrite Ey, Est.
      apply strip_head. exact (proj1 (eol_facts c Hc)).
  - destruct IH as [L'r [Sc [Fs [Len [Bl Hd]]]]].
    destruct (search_some _ _ _ _ _ E) as [Es [Q T]].
    destruct (token_shape _ _ _ _ T) as [_ Shape].
    rewrite !cleaned_cons, (quiet_part_unmarked _ _ Q).
    destruct (strip_split is_blank pre) as [a [b [Ep [Fa Fb]]]].
    remember (strip is_blank pre) as u eqn:Eu.
    assert (Tu : trimmed is_blank u) by (rewrite Eu; apply strip_trimmed).
    assert (Qu : quiet u (b ++ m ++ r)).
    { rewrite Ep in Q. apply quiet_app in Q as [_ Q].
      apply quiet_app in Q as [Q _]. exact Q. }
    assert (Below_s : forall y', below y' (m ++ r) -> below (u ++ y') s).
    { intros y' B. rewrite Es, Ep, <- !app_assoc.
      apply below_skip; [exact (blanks_no_LF a Fa)|]. apply below_app.
      apply below_skip; [exact (blanks_no_LF b Fb) | exact B]. }
    assert (Head : forall c t, s = c :: t -> c = CR \/ c = LF ->
                               exists u', u = c :: u').
    { intros c t Est Hc. destruct (eol_facts c Hc) as [B [N1 [N2 [N3 N4]]]].
      destruct pre as [|c' pre'].
      - exfalso. simpl in Es. rewrite Est in Es.
        destruct Shape as [[q [mid [Hq [-> _]]]] | Com].
        + injection Es as -> _. destruct Hq; congruence.
        + destruct (comment_facts m r Com) as [_ [_ [_ [c1 [m' [-> K]]]]]].
          injection Es as -> _. destruct K; congruence.
      - simpl in Es. rewrite Est in Es. injection Es as <- _.
        rewrite Eu. apply strip_head. exact B. }
    destruct Shape as [[q [mid [Hq [-> [Nm Nq]]]]] | Com].
    + destruct (quote_token_unmarked q mid Hq) as [M2 [_ St]].
      destruct (quote_facts q Hq) as [_ [_ [qS _]]].
      rewrite M2, St.
      exists (u :: (q :: mid ++ [q]) :: L'r). split.
      * apply (Scan_tok to_eol _ u (q :: mid ++ [q]) (cleaned L)); [|exact Sc].
        apply search_intro.
        -- apply (quiet_mono u (b ++ (q :: mid ++ [q]) ++ r)); [exact Qu| |].
           ++ apply below_skip; [exact (blanks_no_LF b Fb)|].
              apply below_app, Bl.
           ++ simpl. apply Ascii.eqb_neq in qS.
              rewrite (Ascii.eqb_sym SLASH q), qS. discriminate.
        -- simpl. rewrite <- app_assoc. simpl.
           apply token_at_quote; [exact Hq | exact Nm|].
           intros I. exact (Nq (Bl q I)).
      * split.
        { constructor; [split; [exact (quiet_part_unmarked _ _ Qu) | exact Tu]|].
          constructor; [|exact Fs]. split; [exact M2|].
          destruct (quote_facts q Hq) as [_ [_ [_ [B _]]]].
          apply trimmed_ends; exact B. }
        split; [simpl; lia|]. split.
        -- apply Below_s, below_app, Bl.
        -- intros c t Est Hc. destruct (Head c t Est Hc) as [u' ->].
           eexists. reflexivity.
    + destruct (comment_facts m r Com) as [M [Nm [R _]]].
      rewrite M. cbn [negb app].
      assert (NS : startswith (cleaned L) [SLASH] = false).
      { destruct R as [-> | [c [r' [-> Hc]]]].
        - apply Scan_nil in H. subst L. reflexivity.
        - destruct (Hd c r' eq_refl Hc) as [t' ->].
          destruct (eol_facts c Hc) as [_ [N1 _]]. apply Ascii.eqb_neq in N1.
          simpl. rewrite (Ascii.eqb_sym SLASH c), N1. reflexivity. }
      assert (Qy : quiet u (cleaned L)).
      { apply (quiet_mono u (b ++ m ++ r)); [exact Qu| |].
        - apply below_skip; [exact (blanks_no_LF b Fb)|].
          apply below_skip; [exact Nm | exact Bl].
        - rewrite NS. discriminate. }
      destruct L'r as [|p0 L''].
      { inversion Sc. }
      assert (Sy := Scan_prepend to_eol u (cleaned L) p0 L'' Qy Sc).
      exists ((u ++ p0) :: L''). split; [exact Sy|]. split.
      { constructor; [|exact (Forall_inv_tail Fs)]. split.
        - exact (Scan_head_unmarked _ _ _ _ Sy).
        - apply trimmed_app; [exact Tu | exact (proj2 (Forall_inv Fs))]. }
      split; [simpl in *; lia|]. split.
      * apply Below_s. apply below_skip; [exact Nm | exact Bl].
      * intros c t Est Hc. destruct (Head c t Est Hc) as [u' ->].
        eexists. reflexivity.
Qed.

Lemma tokens_bound (s : text) (L : list text) :
  Scan to_eol s L -> tokens s <= Re.MULTILINE -> length L <= 2 * 8 + 1.
Proof.
  intros H T. unfold tokens in T. rewrite PATTERN_str in T.
  fold to_eol in T. rewrite (Scan_split _ _ _ H) in T.
  destruct (Scan_odd _ _ _ H) as [k E]. rewrite E in *.
  replace (2 * k + 1) with (S (2 * k)) in T by lia.
  rewrite Nat.div2_succ_double in T. unfold Re.MULTILINE in T. lia.
Qed.

Lemma new_cleaned (s : text) (L : list text) :
  Scan to_eol s L -> length L <= 2 * 8 + 1 -> cJSONStr.__new__ s = cleaned L.
Proof.
  intros H B. unfold cJSONStr.__new__, cJSONStr._clean, Re.split, Re.MULTILINE.
  rewrite PATTERN_str. fold to_eol. rewrite (Scan_split_n _ _ _ H 8 B).
  reflexivity.
Qed.

(** C8, as the code has it.  [cJSONStr] is idempotent on every text in
    which the scan finds at most eight tokens, the number of splits
    [re.split] is allowed: cleaning the cleaned text gives it back. *)
Theorem clean_idempotent_within_limit :
  forall s : text,
    tokens s <= Re.MULTILINE ->
    cJSONStr.__new__ (cJSONStr.__new__ s) = cJSONStr.__new__ s.
Proof.
  intros s T. destruct (Scan_total to_eol s) as [L H].
  assert (B := tokens_bound s L H T).
  rewrite (new_cleaned s L H B).
  destruct (clean_scan s L H) as [L' [H' [F [Len _]]]].
  rewrite (new_cleaned (cleaned L) L' H') by lia.
  rewrite (cleaned_settled L' F). exact (Scan_join _ _ _ H').
Qed.

(** Within the limit no comment is left: the scan of the cleaned text
    finds no part that starts with a marker. *)
Lemma no_comment_left_within_limit (s : text) :
  tokens s <= Re.MULTILINE ->
  exists L, Scan to_eol (cJSONStr.__new__ s) L
            /\ Forall (fun p => cJSONStr.is_marked p = false) L.
Proof.
  intros T. destruct (Scan_total to_eol s) as [L0 H].
  rewrite (new_cleaned s L0 H (tokens_bound s L0 H T)).
  destruct (clean_scan s L0 H) as [L [HL [F _]]].
  exists L. split; [exact HL|].
  apply (Forall_impl _ (fun p (S : settled p) => proj1 S) F).
Qed.

Lemma clean_idempotent_within_limit_witness :
  cJSONStr.__new__ (cJSONStr.__new__ demo_raw) = cJSONStr.__new__ demo_raw.
Proof.
  apply (clean_idempotent_within_limit demo_raw).
  vm_compute. lia.
Defined.

(** The text on which C8 as stated fails: it holds no comment token, and
    [cJSONStr] does not return it unchanged, because the blank after the
    quoted key is stripped. *)
Lemma comment_free_text_changed :
  existsb (Ascii.eqb HASH) (py "{`a` : 1}") = false
  /\ contains [SLASH; SLASH] (py "{`a` : 1}") = false
  /\ cJSONStr.__new__ (py "{`a` : 1}") = py "{`a`: 1}"
  /\ cJSONStr.__new__ (py "{`a` : 1}") <> py "{`a` : 1}".
Proof. repeat split; try reflexivity. vm_compute. discriminate. Qed.

(** Beyond eight tokens the cleaned text can change when cleaned again:
    eight comments use up the splits, the rest passes as one part, and the
    second pass scans it. *)
Example second_pass_beyond_limit :
  let s := py "#\n#\n#\n#\n#\n#\n#\n#\n `a` : 1" in
  cJSONStr.__new__ s = py "\n\n\n\n\n\n\n\n `a` : 1"
  /\ cJSONStr.__new__ (cJSONStr.__new__ s) = py "\n\n\n\n\n\n\n\n`a`: 1".
Proof. split; vm_compute; reflexivity. Qed.

(** ** Line by line and all at once *)

Lemma firstline_ctx (v z : text) : In LF v -> firstline (v ++ z) = firstline v.
Proof.
  intros I. rewrite firstline_app.
  apply existsb_eqb_In in I. rewrite I. reflexivity.
Qed.

Lemma opens_ctx (c : ascii) (v z1 z2 : text) :
  In LF v -> opens c (v ++ z1) = opens c (v ++ z2).
Proof.
  intros I. unfold opens. rewrite !(firstline_ctx v _ I).
  destruct v as [|d v]; [destruct I | reflexivity].
Qed.

Lemma quiet_ctx (u v z1 z2 : text) :
  In LF v -> quiet u (v ++ z1) -> quiet u (v ++ z2).
Proof.
  intros I Q u1 c u2 E. rewrite app_assoc.
  rewrite (opens_ctx c (u2 ++ v) z2 z1) by (apply in_or_app; auto).
  rewrite <- app_assoc. exact (Q u1 c u2 E).
Qed.

Lemma opens_LF (t : text) : opens LF t = false.
Proof.
  unfold opens.
  replace (Ascii.eqb DQ LF) with false by (vm_compute; reflexivity).
  replace (Ascii.eqb SQ LF) with false by (vm_compute; reflexivity).
  replace (Ascii.eqb HASH LF) with false by (vm_compute; reflexivity).
  replace (Ascii.eqb SLASH LF) with false by (vm_compute; reflexivity).
  reflexivity.
Qed.

Lemma quiet_line (l z : text) : line l -> quiet l [] -> quiet l z.
Proof.
  intros [a [-> N]] Q. apply quiet_app in Q as [Q _]. apply quiet_app. split.
  - apply (quiet_ctx a [LF] [] z); [left; reflexivity | exact Q].
  - apply quiet_cons. split; [apply opens_LF | apply quiet_nil].
Qed.

Lemma comment_run_ctx (cls : Re.cset) (t z : text) :
  snd (comment_run cls t) <> [] ->
  comment_run cls (t ++ z)
  = (fst (comment_run cls t), snd (comment_run cls t) ++ z).
Proof.
  induction t as [|c t IH]; simpl.
  - intros H. contradiction H. reflexivity.
  - destruct (Re.cset_mem cls c); [|reflexivity].
    destruct (comment_run cls t) as [m r]. simpl in *. intros H.
    rewrite (IH H). reflexivity.
Qed.

Lemma close_quote_ctx (q : ascii) (t b r z : text) :
  q <> LF -> close_quote q t = Some (b, r) -> In LF r ->
  close_quote q (t ++ z) = Some (b, r ++ z).
Proof.
  intros Hq C I.
  destruct (close_quote_some q t b r Hq C) as [b' [-> [-> [N1 N2]]]].
  rewrite <- !app_assoc. simpl. apply close_quote_intro; [exact Hq | exact N1|].
  rewrite (firstline_ctx r z I). exact N2.
Qed.

Lemma token_at_ctx (cls : Re.cset) (s m r z : text) :
  token_at cls s = Some (m, r) -> In LF r ->
  token_at cls (s ++ z) = Some (m, r ++ z).
Proof.
  destruct s as [|c t]; [discriminate|].
  change ((c :: t) ++ z) with (c :: (t ++ z)). unfold token_at.
  destruct (Ascii.eqb DQ c).
  { destruct (close_quote DQ t) as [[b r0]|] eqn:C; [|discriminate].
    simpl. intros E I. injection E as <- <-.
    rewrite (close_quote_ctx DQ t b r0 z DQ_not_LF C I). reflexivity. }
  destruct (Ascii.eqb SQ c).
  { destruct (close_quote SQ t) as [[b r0]|] eqn:C; [|discriminate].
    simpl. intros E I. injection E as <- <-.
    rewrite (close_quote_ctx SQ t b r0 z SQ_not_LF C I). reflexivity. }
  destruct (Ascii.eqb HASH c).
  { intros E I. injection E as <- <-.
    rewrite comment_run_ctx; [reflexivity|]. intros N. rewrite N in I.
    destruct I. }
  destruct (Ascii.eqb SLASH c); [|discriminate].
  destruct t as [|d u]; [discriminate|].
  change ((d :: u) ++ z) with (d :: (u ++ z)). cbv beta iota.
  destruct (Ascii.eqb SLASH d); [|discriminate].
  intros E I. injection E as <- <-.
  rewrite comment_run_ctx; [reflexivity|]. intros N. rewrite N in I.
  destruct I.
Qed.

Lemma token_no_LF (cls : Re.cset) (s m r : text) :
  Re.cset_mem cls LF = false -> token_at cls s = Some (m, r) ->
  ~ In LF m /\ m <> [].
Proof.
  intros CL T. destruct (token_shape cls s m r T) as [_ [Lit | Com]].
  - destruct Lit as [q [b [Hq [-> [N _]]]]].
    destruct (quote_facts q Hq) as [qL _]. split; [|discriminate].
    intros [H | H]; [congruence|]. apply in_app_or in H as [H | [H | []]];
      [tauto | congruence].
  - destruct Com as [[h [run [-> [Hh F]]]] _].
    assert (NL : ~ In LF run).
    { intros H. rewrite forallb_forall in F. apply F in H. congruence. }
    destruct Hh as [-> | ->]; (split; [|discriminate]).
    + intros [H | H]; [|tauto]. apply (f_equal nat_of_ascii) in H.
      vm_compute in H. discriminate.
    + intros [H | [H | H]]; [| |tauto]; apply (f_equal nat_of_ascii) in H;
        vm_compute in H; discriminate.
Qed.

Lemma line_tail (p r : text) : line (p ++ r) -> r <> [] -> line r.
Proof.
  intros [a [E N]] R. destruct (exists_last R) as [r0 [x ->]].
  rewrite app_assoc in E. apply app_inj_tail in E as [E ->].
  exists r0. split; [reflexivity|]. intros H. apply N. rewrite <- E.
  apply in_or_app. auto.
Qed.

Lemma line_has_LF (l : text) : line l -> In LF l.
Proof. intros [a [-> _]]. apply in_or_app. right. left. reflexivity. Qed.

Lemma line_not_ending (p m : text) :
  m <> [] -> ~ In LF m -> ~ line (p ++ m).
Proof.
  intros M N [a [E _]]. destruct (exists_last M) as [m0 [x ->]].
  rewrite app_assoc in E. apply app_inj_tail in E as [_ ->].
  apply N. apply in_or_app. right. left. reflexivity.
Qed.

Lemma kept_cons (p : text) (L : list text) :
  kept (p :: L) = (if cJSONStr.is_marked p then [] else p) ++ kept L.
Proof. unfold kept. simpl. destruct (cJSONStr.is_marked p); reflexivity. Qed.

Lemma Scan_nonempty (cls : Re.cset) (s : text) (L : list text) :
  Scan cls s L -> exists p L', L = p :: L'.
Proof. inversion 1; eauto. Qed.

Section Lines.

Variable cls : Re.cset.
Hypothesis cls_LF : Re.cset_mem cls LF = false.

Lemma Scan_line (l : text) (Ll : list text) :
  Scan cls l Ll -> line l ->
  forall (z : text) (Lz : list text),
    Scan cls z Lz ->
    exists L, Scan cls (l ++ z) L /\ kept L = kept Ll ++ kept Lz.
Proof.
  induction 1 as [l E | l pre m r Lr E H IH]; intros Hl z Lz Hz.
  - destruct (Scan_nonempty _ _ _ Hz) as [p0 [L' ->]].
    assert (Q : quiet l z) by (apply quiet_line; [exact Hl | exact (search_none _ _ E)]).
    assert (S := Scan_prepend cls l z p0 L' Q Hz).
    exists ((l ++ p0) :: L'). split; [exact S|].
    rewrite !kept_cons, (Scan_head_unmarked _ _ _ _ S),
      (Scan_head_unmarked _ _ _ _ Hz), (search_none_unmarked _ _ E).
    change (kept []) with (@nil ascii). rewrite app_nil_r, <- app_assoc.
    reflexivity.
  - destruct (search_some _ _ _ _ _ E) as [Es [Q T]].
    destruct (token_no_LF cls _ _ _ cls_LF T) as [Nm Mne].
    assert (Rne : r <> []).
    { intros ->. rewrite app_nil_r in Es. rewrite Es in Hl.
      exact (line_not_ending pre m Mne Nm Hl). }
    assert (Hr : line r).
    { rewrite Es, app_assoc in Hl. exact (line_tail _ _ Hl Rne). }
    destruct (IH Hr z Lz Hz) as [L [S K]].
    assert (Ir : In LF r) by exact (line_has_LF r Hr).
    exists (pre :: m :: L). split.
    + apply (Scan_tok cls _ pre m (r ++ z)); [|exact S].
      rewrite Es, <- !app_assoc. apply search_intro.
      * rewrite app_assoc. apply (quiet_ctx pre (m ++ r) [] z).
        -- apply in_or_app. auto.
        -- rewrite app_nil_r. exact Q.
      * rewrite app_assoc. apply token_at_ctx; assumption.
    + rewrite !kept_cons, K, <- !app_assoc. reflexivity.
Qed.

(** The parts of a line followed by a text are the parts of the line and
    those of the text, the last and the first made one. *)
Lemma Scan_glue (l : text) (Ll : list text) :
  Scan cls l Ll -> line l ->
  forall (z : text) (Lz : list text),
    Scan cls z Lz -> Scan cls (l ++ z) (glue Ll Lz).
Proof.
  induction 1 as [l E | l pre m r Lr E H IH]; intros Hl z Lz Hz.
  - destruct (Scan_nonempty _ _ _ Hz) as [p0 [L' ->]].
    assert (Q : quiet l z)
      by (apply quiet_line; [exact Hl | exact (search_none _ _ E)]).
    exact (Scan_prepend cls l z p0 L' Q Hz).
  - destruct (search_some _ _ _ _ _ E) as [Es [Q T]].
    destruct (token_no_LF cls _ _ _ cls_LF T) as [Nm Mne].
    assert (Rne : r <> []).
    { intros ->. rewrite app_nil_r in Es. rewrite Es in Hl.
      exact (line_not_ending pre m Mne Nm Hl). }
    assert (Hr : line r).
    { rewrite Es, app_assoc in Hl. exact (line_tail _ _ Hl Rne). }
    assert (Ir : In LF r) by exact (line_has_LF r Hr).
    destruct (Scan_nonempty _ _ _ H) as [r0 [Lr' ->]].
    change (glue (pre :: m :: r0 :: Lr') Lz)
      with (pre :: m :: glue (r0 :: Lr') Lz).
    apply (Scan_tok cls _ pre m (r ++ z)); [|exact (IH Hr z Lz Hz)].
    rewrite Es, <- !app_assoc. apply search_intro.
    + rewrite app_assoc. apply (quiet_ctx pre (m ++ r) [] z).
      * apply in_or_app. auto.
      * rewrite app_nil_r. exact Q.
    + rewrite app_assoc. apply token_at_ctx; assumption.
Qed.

Lemma glue_tail (L1 : list text) (p0 : text) (R : list text) :
  L1 <> [] -> exists front, front <> [] /\ glue L1 (p0 :: R) = front ++ R.
Proof.
  induction L1 as [|p L IH]; [contradiction|]. intros _.
  destruct L as [|t L].
  - exists [p ++ p0]. split; [discriminate | reflexivity].
  - destruct IH as [front [N E]]; [discriminate|].
    exists (p :: front). split; [discriminate|].
    change (glue (p :: t :: L) (p0 :: R)) with (p :: glue (t :: L) (p0 :: R)).
    rewrite E. reflexivity.
Qed.

(** After whole lines, the parts of a text are those it has by itself,
    but for the first. *)
Lemma Scan_after_lines (P : text) (ls : list text) :
  Lines P ls -> P = [] \/ (exists P', P = P' ++ [LF]) ->
  forall (z : text) (Lz L : list text),
    Scan cls z Lz -> Scan cls (P ++ z) L ->
    exists front, front <> [] /\ L = front ++ tl Lz.
Proof.
  induction 1 as [| l Hne HN | a x ls HN HL IH]; intros E z Lz L Hz H.
  - simpl in H. rewrite (Scan_fun cls _ _ _ H Hz).
    destruct (Scan_nonempty _ _ _ Hz) as [p0 [R ->]].
    exists [p0]. split; [discriminate | reflexivity].
  - exfalso. destruct E as [-> | [P' ->]]; [contradiction|].
    apply HN. apply in_or_app. right. left. reflexivity.
  - assert (Ex : x = [] \/ (exists x', x = x' ++ [LF])).
    { destruct x as [|c x0] using rev_ind; [auto|]. right.
      destruct E as [E | [P' E]].
      - destruct a; discriminate E.
      - change (a ++ LF :: x0 ++ [c]) with (a ++ (LF :: x0) ++ [c]) in E.
        rewrite app_assoc in E. apply app_inj_tail in E as [_ ->].
        exists x0. reflexivity. }
    change (a ++ LF :: x) with (a ++ [LF] ++ x) in H.
    rewrite app_assoc, <- app_assoc in H.
    destruct (Scan_total cls (x ++ z)) as [Lxz Hxz].
    destruct (IH Ex z Lz Lxz Hz Hxz) as [front [Nf Ef]].
    destruct (Scan_total cls (a ++ [LF])) as [Ll Hl].
    assert (Hline : line (a ++ [LF])) by (exists a; auto).
    pose proof (Scan_glue _ _ Hl Hline _ _ Hxz) as G.
    rewrite (Scan_fun cls _ _ _ H G), Ef.
    destruct front as [|f0 front']; [contradiction|].
    destruct (Scan_nonempty _ _ _ Hl) as [q0 [Ll' ->]].
    destruct (glue_tail (q0 :: Ll') f0 (front' ++ tl Lz)) as [fr [N2 E2]];
      [discriminate|].
    exists (fr ++ front'). split.
    + destruct fr; [contradiction | discriminate].
    + simpl app at 1. rewrite E2, app_assoc. reflexivity.
Qed.

End Lines.

Lemma squash_app (a b : text) : squash (a ++ b) = squash a ++ squash b.
Proof. apply filter_app. Qed.

Lemma squash_space (a : text) : forallb is_space a = true -> squash a = [].
Proof.
  induction a as [|c a IH]; simpl; [reflexivity|]. intros F.
  apply andb_true_iff in F as [Hc F]. rewrite Hc. exact (IH F).
Qed.

Lemma blank_is_space (a : text) :
  forallb is_blank a = true -> forallb is_space a = true.
Proof.
  rewrite !forallb_forall. intros F c H. specialize (F c H).
  unfold is_blank in F. apply Ascii.eqb_eq in F. subst c. reflexivity.
Qed.

Lemma squash_strip (s : text) : squash (strip is_blank s) = squash s.
Proof.
  destruct (strip_split is_blank s) as [a [b [E [Fa Fb]]]].
  rewrite E at 2. rewrite !squash_app.
  rewrite (squash_space a (blank_is_space a Fa)),
    (squash_space b (blank_is_space b Fb)), app_nil_r.
  reflexivity.
Qed.

Lemma squash_cleaned (L : list text) : squash (cleaned L) = squash (kept L).
Proof.
  induction L as [|p L IH]; [reflexivity|].
  rewrite cleaned_cons, kept_cons, !squash_app, IH.
  destruct (cJSONStr.is_marked p); [reflexivity|].
  rewrite squash_strip. reflexivity.
Qed.

(** *** The two patterns on text without carriage returns *)

Lemma comment_run_no_CR (t : text) :
  ~ In CR t -> comment_run Re.Dot t = comment_run to_eol t.
Proof.
  induction t as [|c t IH]; [reflexivity|]. intros N. simpl.
  assert (E : Ascii.eqb c CR = false)
    by (apply Ascii.eqb_neq; intros ->; apply N; left; reflexivity).
  rewrite E. simpl. rewrite orb_false_r.
  rewrite IH by (intros H; apply N; right; exact H). reflexivity.
Qed.

Lemma token_at_no_CR (s : text) :
  ~ In CR s -> token_at Re.Dot s = token_at to_eol s.
Proof.
  destruct s as [|c t]; [reflexivity|]. intros N. unfold token_at.
  rewrite (comment_run_no_CR t) by (intros H; apply N; right; exact H).
  destruct t as [|d u]; [reflexivity|].
  rewrite (comment_run_no_CR u)
    by (intros H; apply N; right; right; exact H).
  reflexivity.
Qed.

Lemma search_no_CR (s : text) :
  ~ In CR s -> Re.search (marks Re.Dot) s = Re.search (marks to_eol) s.
Proof.
  induction s as [|c t IH]; intros N.
  - reflexivity.
  - rewrite (search_unfold Re.Dot (c :: t)), (search_unfold to_eol (c :: t)),
      (token_at_no_CR _ N).
    rewrite IH by (intros H; apply N; right; exact H). reflexivity.
Qed.

Lemma split_n_no_CR (n : nat) (s : text) :
  ~ In CR s ->
  Re.split_n (marks Re.Dot) n s = Re.split_n (marks to_eol) n s.
Proof.
  revert s. induction n as [|n IH]; intros s N; [reflexivity|].
  simpl. rewrite (search_no_CR s N).
  destruct (Re.search (marks to_eol) s) as [[[pre m] r]|] eqn:E; [|reflexivity].
  destruct (search_some _ _ _ _ _ E) as [Es _]. rewrite IH; [reflexivity|].
  intros H. apply N. rewrite Es. apply in_or_app. right.
  apply in_or_app. right. exact H.
Qed.

(** *** The two tests that drop a part *)

Lemma opens_HASH (t : text) : opens HASH t = true.
Proof. unfold opens. rewrite Ascii.eqb_refl. apply orb_true_iff. left.
       apply orb_true_r. Qed.

Lemma opens_slashes (t : text) : opens SLASH (SLASH :: t) = true.
Proof. unfold opens. simpl. rewrite Ascii.eqb_refl. apply orb_true_r. Qed.

Lemma quiet_no_marker (u z : text) :
  quiet u z -> ~ In HASH u /\ contains [SLASH; SLASH] u = false.
Proof.
  intros Q. split.
  - intros H. destruct (in_split _ _ H) as [u1 [u2 E]].
    pose proof (Q u1 HASH u2 E) as O. rewrite opens_HASH in O. discriminate.
  - destruct (contains [SLASH; SLASH] u) eqn:C; [exfalso | reflexivity].
    apply contains_split in C as [u1 [r E]].
    pose proof (Q u1 SLASH (SLASH :: r) E) as O. simpl in O.
    rewrite opens_slashes in O. discriminate.
Qed.

Lemma quiet_not_comment (u z : text) :
  quiet u z -> cJSONFile._is_comment u = false.
Proof.
  intros Q. destruct (quiet_no_marker u z Q) as [H S].
  destruct (cJSONFile._is_comment u) eqn:C; [|reflexivity].
  apply is_comment_has_marker in C as [C | C]; [tauto | congruence].
Qed.

Lemma comment_token_marked (cls : Re.cset) (m r : text) :
  comment cls m r ->
  cJSONStr.is_marked m = true /\ cJSONFile._is_comment m = true.
Proof.
  intros [[h [run [-> [[-> | ->] _]]]] _]; split;
    try (apply whole_line_comment_detected; exists [], run; simpl; auto).
  - unfold cJSONStr.is_marked. simpl. rewrite Ascii.eqb_refl.
    apply orb_true_r.
  - unfold cJSONStr.is_marked. simpl. rewrite Ascii.eqb_refl. reflexivity.
Qed.

Lemma Scan_agree (cls : Re.cset) (s : text) (L : list text) :
  Scan cls s L ->
  Forall (fun p => cJSONFile._is_comment p = cJSONStr.is_marked p) L.
Proof.
  induction 1 as [s E | s pre m r L E H IH].
  - constructor; [|constructor].
    rewrite (search_none_unmarked _ _ E).
    exact (quiet_not_comment _ _ (search_none _ _ E)).
  - destruct (search_some _ _ _ _ _ E) as [_ [Q T]].
    constructor.
    { rewrite (quiet_part_unmarked _ _ Q). exact (quiet_not_comment _ _ Q). }
    constructor; [|exact IH].
    destruct (token_shape _ _ _ _ T) as [_ [Lit | Com]].
    + destruct Lit as [q [b [Hq [-> _]]]].
      destruct (quote_token_unmarked q b Hq) as [M1 [M2 _]]. congruence.
    + destruct (comment_token_marked _ _ _ Com) as [M1 M2]. congruence.
Qed.

Lemma filter_agree (L : list text) :
  Forall (fun p => cJSONFile._is_comment p = cJSONStr.is_marked p) L ->
  filter (fun p => negb (cJSONFile._is_comment p)) L
  = filter (fun p => negb (cJSONStr.is_marked p)) L.
Proof.
  induction 1 as [|p L E _ IH]; simpl; [reflexivity|].
  rewrite E, IH. reflexivity.
Qed.

(** *** One line *)

Lemma contains_app_r (sub a r : text) :
  contains sub r = true -> contains sub (a ++ r) = true.
Proof.
  intros H. apply contains_split in H as [u [v ->]].
  rewrite app_assoc. apply contains_intro.
Qed.

Lemma in_contains (c : ascii) (s : text) : In c s -> contains [c] s = true.
Proof.
  intros H. destruct (in_split _ _ H) as [u [v ->]].
  exact (contains_intro [c] u v).
Qed.

Lemma marked_has_marker (m : text) :
  cJSONStr.is_marked m = true -> In HASH m \/ contains [SLASH; SLASH] m = true.
Proof.
  unfold cJSONStr.is_marked. intros H.
  apply orb_true_iff in H as [H | H]; apply startswith_split in H as [r ->].
  - right. exact (contains_intro [SLASH; SLASH] [] r).
  - left. left. reflexivity.
Qed.

Lemma Scan_no_marker (cls : Re.cset) (s : text) (L : list text) :
  Scan cls s L -> ~ In HASH s -> contains [SLASH; SLASH] s = false ->
  kept L = s.
Proof.
  induction 1 as [s E | s pre m r L E H IH]; intros NH NS.
  - rewrite kept_cons, (search_none_unmarked _ _ E). apply app_nil_r.
  - destruct (search_some _ _ _ _ _ E) as [Es [Q _]].
    rewrite !kept_cons, (quiet_part_unmarked _ _ Q).
    assert (M : cJSONStr.is_marked m = false).
    { destruct (cJSONStr.is_marked m) eqn:M; [exfalso | reflexivity].
      apply marked_has_marker in M as [M | M].
      - apply NH. rewrite Es. apply in_or_app. right. apply in_or_app. auto.
      - apply contains_split in M as [u [v M]].
        assert (C : contains [SLASH; SLASH] s = true).
        { rewrite Es, M, <- !app_assoc, app_assoc. apply contains_intro. }
        congruence. }
    rewrite M, IH.
    + symmetry. exact Es.
    + intros I. apply NH. rewrite Es. apply in_or_app. right.
      apply in_or_app. auto.
    + destruct (contains [SLASH; SLASH] r) eqn:C; [|reflexivity].
      apply (contains_app_r _ (pre ++ m)) in C.
      rewrite <- app_assoc, <- Es in C. congruence.
Qed.

Lemma line_clean_agrees (l : text) (L : list text) :
  ~ In CR l -> Scan to_eol l L ->
  squash (cJSONFile._clean l) = squash (kept L).
Proof.
  intros N H. unfold cJSONFile._clean.
  destruct (contains [HASH] l || contains [SLASH; SLASH] l) eqn:C.
  - unfold Re.split. rewrite PATTERN_file, (split_n_no_CR _ l N).
    rewrite (Scan_split_n _ _ _ H (length l) (Scan_length _ _ _ H)).
    rewrite (filter_agree L (Scan_agree _ _ _ H)).
    exact (squash_cleaned L).
  - apply orb_false_iff in C as [C1 C2].
    rewrite (Scan_no_marker _ _ _ H); [reflexivity| |exact C2].
    intros I. apply in_contains in I. congruence.
Qed.

Lemma space_quiet (a z : text) : forallb is_space a = true -> quiet a z.
Proof.
  intros F u1 c u2 E.
  assert (Sc : is_space c = true).
  { rewrite forallb_forall in F. apply F. rewrite E. apply in_or_app.
    right. left. reflexivity. }
  destruct (opens c (u2 ++ z)) eqn:O; [exfalso | reflexivity].
  apply opens_cases in O as [[b [r [[-> | ->] _]]] | [-> | [-> _]]];
    vm_compute in Sc; discriminate.
Qed.

Lemma Scan_inv_tok (cls : Re.cset) (s pre m r : text) (L : list text) :
  Re.search (marks cls) s = Some (pre, m, r) -> Scan cls s L ->
  exists Lr, L = pre :: m :: Lr /\ Scan cls r Lr.
Proof.
  intros E. inversion 1 as [s0 S | s0 pre0 m0 r0 L0 S H0]; subst.
  - congruence.
  - rewrite E in S. injection S as <- <- <-. eauto.
Qed.

Lemma Scan_inv_end (cls : Re.cset) (s : text) (L : list text) :
  Re.search (marks cls) s = None -> Scan cls s L -> L = [s].
Proof.
  intros E. inversion 1 as [s0 S | s0 pre0 m0 r0 L0 S H0]; subst;
    [reflexivity | congruence].
Qed.

Lemma comment_token_at (h rest : text) :
  h = [HASH] \/ h = [SLASH; SLASH] ->
  token_at to_eol (h ++ rest)
  = Some (h ++ fst (comment_run to_eol rest), snd (comment_run to_eol rest)).
Proof.
  intros [-> | ->]; reflexivity.
Qed.

Lemma comment_line_drops (l : text) (L : list text) :
  cJSONFile._is_comment l = true -> ~ In CR l ->
  line l \/ ~ In LF l ->
  Scan to_eol l L -> squash (kept L) = [].
Proof.
  intros C N Sh H. unfold cJSONFile._is_comment in C.
  destruct (strip_split is_space l) as [a [b [E [Fa _]]]].
  assert (Hh : exists h y', (h = [HASH] \/ h = [SLASH; SLASH])
                            /\ strip is_space l = h ++ y').
  { apply orb_true_iff in C as [C | C]; apply startswith_split in C as [y' R];
      eauto. }
  destruct Hh as [h [y' [Hh R]]]. rewrite R, <- app_assoc in E.
  set (rest := y' ++ b) in *.
  assert (T := comment_token_at h rest Hh).
  destruct (comment_run_spec to_eol rest) as [Er [_ Stop]].
  set (m := h ++ fst (comment_run to_eol rest)) in *.
  set (r := snd (comment_run to_eol rest)) in *.
  assert (El : l = a ++ m ++ r).
  { rewrite E. unfold m. rewrite <- app_assoc, <- Er. reflexivity. }
  assert (Q : quiet a (m ++ r)) by exact (space_quiet a _ Fa).
  assert (Tm : token_at to_eol (m ++ r) = Some (m, r)).
  { unfold m. rewrite <- app_assoc, <- Er. exact T. }
  assert (S : Re.search (marks to_eol) l = Some (a, m, r)).
  { rewrite El. exact (search_intro to_eol a m r Q Tm). }
  destruct (Scan_inv_tok _ _ _ _ _ _ S H) as [Lr [-> Hr]].
  assert (Mm : cJSONStr.is_marked m = true).
  { unfold m. destruct Hh as [-> | ->]; unfold cJSONStr.is_marked; simpl;
      rewrite Ascii.eqb_refl; auto using orb_true_r. }
  rewrite !kept_cons, (quiet_part_unmarked _ _ Q), Mm. simpl app.
  rewrite squash_app, (squash_space a Fa). simpl app.
  destruct Stop as [R0 | [c [r' [R0 Hc]]]]; fold r in R0.
  - rewrite R0 in Hr. apply Scan_nil in Hr. subst Lr. reflexivity.
  - apply to_eol_stop in Hc as [-> | ->].
    + exfalso. apply N. rewrite El, R0. apply in_or_app. right.
      apply in_or_app. right. left. reflexivity.
    + assert (r' = []).
      { destruct Sh as [[a0 [E0 N0]] | NL].
        - destruct r' as [|x r'] using rev_ind; [reflexivity|]. exfalso.
          rewrite El, R0 in E0.
          replace (a ++ m ++ LF :: r' ++ [x])
            with ((a ++ m ++ LF :: r') ++ [x]) in E0
            by (rewrite <- !app_assoc; reflexivity).
          apply app_inj_tail in E0 as [E0 _]. apply N0. rewrite <- E0.
          apply in_or_app. right. apply in_or_app. right. left. reflexivity.
        - exfalso. apply NL. rewrite El, R0. apply in_or_app. right.
          apply in_or_app. right. left. reflexivity. }
      subst r'. rewrite R0 in Hr.
      assert (L1 : Lr = [[LF]])
        by (apply (Scan_inv_end to_eol [LF] Lr); [vm_compute; reflexivity | exact Hr]).
      subst Lr. reflexivity.
Qed.

(** *** All the lines *)

Lemma splitlines_nil (x : text) : Io.splitlines x = [] -> x = [].
Proof.
  destruct x as [|c t]; [reflexivity|]. simpl.
  destruct (Ascii.eqb c LF); [discriminate|].
  destruct (Io.splitlines t); discriminate.
Qed.

Lemma splitlines_Lines (x : text) : Lines x (Io.splitlines x).
Proof.
  induction x as [|c t IH]; simpl; [constructor|].
  destruct (Ascii.eqb c LF) eqn:E.
  - apply Ascii.eqb_eq in E. subst c.
    exact (Lines_cons [] t (Io.splitlines t) (fun H => H) IH).
  - apply Ascii.eqb_neq in E.
    destruct (Io.splitlines t) as [|l ls] eqn:S.
    + apply splitlines_nil in S. subst t. apply Lines_last; [discriminate|].
      intros [H | []]. congruence.
    + inversion IH as [| l0 Hne HN | a x ls0 HN HL]; subst.
      * apply Lines_last; [discriminate|]. intros [H | H]; [congruence | tauto].
      * apply (Lines_cons (c :: a) x ls); [|exact HL].
        intros [H | H]; [congruence | tauto].
Qed.

Lemma Lines_join (x : text) (ls : list text) : Lines x ls -> join ls = x.
Proof.
  unfold join. induction 1 as [| l Hne HN | a x ls HN HL IH]; simpl.
  - reflexivity.
  - apply app_nil_r.
  - rewrite IH, <- app_assoc. reflexivity.
Qed.

Lemma universal_newlines_no_CR (s : text) : ~ In CR (Io.universal_newlines s).
Proof.
  remember (length s) as n eqn:E. revert s E.
  induction n as [n IH] using lt_wf_ind. intros s E.
  destruct s as [|c t]; simpl; [tauto|].
  destruct (Ascii.eqb c CR) eqn:C.
  - assert (NL : LF <> CR) by (apply Ascii.eqb_neq; vm_compute; reflexivity).
    destruct t as [|d u]; [intros [H | []]; congruence|].
    destruct (Ascii.eqb d LF).
    + intros [H | H]; [congruence|].
      apply (IH (length u)) with (s := u) in H; [exact H | simpl in E; lia | reflexivity].
    + intros [H | H]; [congruence|].
      apply (IH (length (d :: u))) with (s := d :: u) in H;
        [exact H | simpl in E |- *; lia | reflexivity].
  - apply Ascii.eqb_neq in C. intros [H | H]; [congruence|].
    apply (IH (length t)) with (s := t) in H;
      [exact H | simpl in E; lia | reflexivity].
Qed.

Lemma stream_vs_buffer (x : text) (ls : list text) :
  Lines x ls -> ~ In CR x ->
  forall L, Scan to_eol x L ->
  squash (join (map cJSONFile._clean (filter wanted ls))) = squash (kept L).
Proof.
  assert (One : forall l Ll, ~ In CR l -> line l \/ ~ In LF l ->
            Scan to_eol l Ll ->
            squash (join (map cJSONFile._clean (filter wanted [l])))
            = squash (kept Ll)).
  { intros l Ll N Sh H. simpl. unfold wanted.
    destruct (cJSONFile._is_comment l) eqn:C; simpl.
    - symmetry. exact (comment_line_drops l Ll C N Sh H).
    - rewrite app_nil_r. exact (line_clean_agrees l Ll N H). }
  induction 1 as [| l Hne HN | a x ls HN HL IH]; intros N L H.
  - apply Scan_nil in H. subst L. reflexivity.
  - apply One; auto.
  - change (a ++ LF :: x) with (a ++ [LF] ++ x) in *.
    rewrite app_assoc in *.
    assert (Hl : line (a ++ [LF])) by (exists a; auto).
    destruct (Scan_total to_eol (a ++ [LF])) as [Ll Sl].
    destruct (Scan_total to_eol x) as [Lx Sx].
    destruct (Scan_line to_eol (eq_refl : Re.cset_mem to_eol LF = false)
                _ _ Sl Hl x Lx Sx) as [L0 [S0 K]].
    rewrite (Scan_fun _ _ _ _ H S0), K, squash_app.
    assert (Nl : ~ In CR (a ++ [LF]))
      by (intros I; apply N, in_or_app; auto).
    assert (Nx : ~ In CR x) by (intros I; apply N, in_or_app; auto).
    rewrite <- (IH Nx Lx Sx), <- (One _ Ll Nl (or_introl Hl) Sl).
    rewrite <- squash_app. f_equal. unfold join.
    rewrite <- concat_app, <- map_app. f_equal.
    change ((a ++ [LF]) :: ls) with ([a ++ [LF]] ++ ls).
    rewrite filter_app. reflexivity.
Qed.


Lemma subseq_refl (s : text) : subseq s s.
Proof. induction s; constructor; assumption. Qed.

Lemma subseq_nil_l (s : text) : subseq [] s.
Proof. induction s; constructor; assumption. Qed.

Lemma subseq_app (a a' b b' : text) :
  subseq a a' -> subseq b b' -> subseq (a ++ b) (a' ++ b').
Proof.
  intros H. induction H; intros Hb; simpl; [exact Hb | |];
    constructor; auto.
Qed.

Lemma subseq_in (a b : text) (c : ascii) : subseq a b -> In c a -> In c b.
Proof.
  induction 1 as [|d a b H IH | d a b H IH]; simpl; [tauto | |]; intuition.
Qed.

Lemma subseq_strip (p : ascii -> bool) (s : text) : subseq (strip p s) s.
Proof.
  destruct (strip_split p s) as [a [b [E _]]]. rewrite E at 2.
  rewrite <- (app_nil_l (strip p s)) at 1.
  apply subseq_app; [apply subseq_nil_l|].
  rewrite <- (app_nil_r (strip p s)) at 1.
  apply subseq_app; [apply subseq_refl | apply subseq_nil_l].
Qed.

Lemma file_clean_cleaned (cls : Re.cset) (l : text) (L : list text) :
  Scan cls l L -> Re.split (marks Re.Dot) l 0 = Re.split (marks cls) l 0 ->
  contains [HASH] l || contains [SLASH; SLASH] l = true ->
  cJSONFile._clean l = cleaned L.
Proof.
  intros H E C. unfold cJSONFile._clean. rewrite C, PATTERN_file, E.
  rewrite (Scan_split _ _ _ H), (filter_agree L (Scan_agree _ _ _ H)).
  reflexivity.
Qed.

Lemma split_no_CR (l : text) :
  ~ In CR l -> Re.split (marks Re.Dot) l 0 = Re.split (marks to_eol) l 0.
Proof. intros N. unfold Re.split. apply split_n_no_CR, N. Qed.

(** *** The parts the two cleaners keep *)

Lemma unblank_app (a b : text) : unblank (a ++ b) = unblank a ++ unblank b.
Proof. apply filter_app. Qed.

Lemma unblank_blank (a : text) : forallb is_blank a = true -> unblank a = [].
Proof.
  induction a as [|c a IH]; simpl; [reflexivity|]. intros F.
  apply andb_true_iff in F as [Hc F]. rewrite Hc. exact (IH F).
Qed.

Lemma unblank_strip (s : text) : unblank (strip is_blank s) = unblank s.
Proof.
  destruct (strip_split is_blank s) as [a [b [E [Fa Fb]]]].
  rewrite E at 2. rewrite !unblank_app.
  rewrite (unblank_blank a Fa), (unblank_blank b Fb), app_nil_r.
  reflexivity.
Qed.

Lemma thinned_refl (p : text) : thinned p p.
Proof. split; [apply subseq_refl | reflexivity]. Qed.

Lemma thinned_app (f p g r : text) :
  thinned f p -> thinned g r -> thinned (f ++ g) (p ++ r).
Proof.
  intros [S1 U1] [S2 U2]. split; [apply subseq_app; assumption|].
  rewrite !unblank_app, U1, U2. reflexivity.
Qed.

Lemma thinned_strip (p : text) : thinned (strip is_blank p) p.
Proof. split; [apply subseq_strip | apply unblank_strip]. Qed.

Lemma comment_token_is_marked (t : text) :
  comment_token t = cJSONStr.is_marked t.
Proof. apply orb_comm. Qed.

Lemma pieces_shape (L F : list text) :
  pieces L F -> exists p L' f F', L = p :: L' /\ F = f :: F'.
Proof. inversion 1; subst; eauto 8. Qed.

Lemma pieces_glue (L1 F1 : list text) :
  pieces L1 F1 ->
  forall L2 F2, pieces L2 F2 -> pieces (glue L1 L2) (glue F1 F2).
Proof.
  induction 1 as [p f T | p t f L F T H IH]; intros L2 F2 H2.
  - inversion H2 as [p0 f0 T0 | p0 t0 f0 L0 F0 T0 H0]; subst.
    + exact (pieces_last _ _ (thinned_app _ _ _ _ T T0)).
    + exact (pieces_step _ t0 _ _ _ (thinned_app _ _ _ _ T T0) H0).
  - destruct (pieces_shape _ _ H) as [p1 [L' [f1 [F' [-> ->]]]]].
    change (glue (p :: t :: p1 :: L') L2)
      with (p :: t :: glue (p1 :: L') L2).
    change (glue (f :: (if comment_token t then [] else t) :: f1 :: F') F2)
      with (f :: (if comment_token t then [] else t)
              :: glue (f1 :: F') F2).
    exact (pieces_step _ _ _ _ _ T (IH L2 F2 H2)).
Qed.

Lemma join_glue (L1 L2 : list text) :
  join (glue L1 L2) = join L1 ++ join L2.
Proof.
  unfold join. induction L1 as [|p L IH]; [reflexivity|].
  destruct L as [|t L].
  - destruct L2 as [|p0 L2]; simpl; rewrite ?app_nil_r, <- ?app_assoc;
      reflexivity.
  - change (glue (p :: t :: L) L2) with (p :: glue (t :: L) L2).
    cbn [concat]. rewrite IH. cbn [concat]. rewrite <- !app_assoc.
    reflexivity.
Qed.

Lemma pieces_unblank (L F : list text) :
  pieces L F ->
  forall G, pieces L G -> unblank (join F) = unblank (join G).
Proof.
  unfold join.
  induction 1 as [p f [_ U] | p t f L F [_ U] H IH]; intros G HG.
  - inversion HG as [p0 g [_ V] |]; subst. simpl.
    rewrite !app_nil_r. congruence.
  - inversion HG as [| p0 t0 g L0 G0 [_ V] H0]; subst. simpl.
    rewrite !unblank_app, (IH G0 H0). congruence.
Qed.

(** What [cJSONStr] makes of the parts of a split, part by part. *)
Lemma pieces_cleaned (cls : Re.cset) (s : text) (L : list text) :
  Scan cls s L -> exists G, pieces L G /\ cleaned L = join G.
Proof.
  induction 1 as [s E | s pre m r L E H [G [HG EG]]].
  - exists [strip is_blank s]. split.
    + exact (pieces_last _ _ (thinned_strip s)).
    + rewrite cleaned_cons, (search_none_unmarked _ _ E). reflexivity.
  - destruct (search_some _ _ _ _ _ E) as [_ [Q T]].
    exists (strip is_blank pre :: (if comment_token m then [] else m) :: G).
    split.
    + exact (pieces_step _ m _ _ _ (thinned_strip pre) HG).
    + rewrite !cleaned_cons, (quiet_part_unmarked _ _ Q), EG.
      rewrite (comment_token_is_marked m).
      unfold join. simpl. f_equal. f_equal.
      destruct (token_shape _ _ _ _ T) as [_ [Lit | Com]].
      * destruct Lit as [q [b [Hq [-> _]]]].
        destruct (quote_token_unmarked q b Hq) as [M [_ St]].
        rewrite M. exact St.
      * destruct (comment_token_marked _ _ _ Com) as [M _]. rewrite M.
        reflexivity.
Qed.

(** The parts of a text without marker: no comment among them. *)
Lemma pieces_self (cls : Re.cset) (s : text) (L : list text) :
  Scan cls s L -> ~ In HASH s -> contains [SLASH; SLASH] s = false ->
  pieces L L.
Proof.
  induction 1 as [s E | s pre m r L E H IH]; intros NH NS.
  - exact (pieces_last _ _ (thinned_refl s)).
  - destruct (search_some _ _ _ _ _ E) as [Es _].
    assert (M : cJSONStr.is_marked m = false).
    { destruct (cJSONStr.is_marked m) eqn:M; [exfalso | reflexivity].
      apply marked_has_marker in M as [M | M].
      - apply NH. rewrite Es. apply in_or_app. right. apply in_or_app. auto.
      - apply contains_split in M as [u [v M]].
        assert (C : contains [SLASH; SLASH] s = true).
        { rewrite Es, M, <- !app_assoc, app_assoc. apply contains_intro. }
        congruence. }
    assert (IH' : pieces L L).
    { apply IH.
      - intros I. apply NH. rewrite Es. apply in_or_app. right.
        apply in_or_app. auto.
      - destruct (contains [SLASH; SLASH] r) eqn:C; [|reflexivity].
        apply (contains_app_r _ (pre ++ m)) in C.
        rewrite <- app_assoc, <- Es in C. congruence. }
    pose proof (pieces_step pre m pre L L (thinned_refl pre) IH') as K.
    rewrite (comment_token_is_marked m), M in K. exact K.
Qed.

(** What [cJSONFile._clean] makes of the parts of a line. *)
Lemma line_pieces (l : text) (Ll : list text) :
  ~ In CR l -> Scan to_eol l Ll ->
  exists F, pieces Ll F /\ cJSONFile._clean l = join F.
Proof.
  intros N H.
  destruct (contains [HASH] l || contains [SLASH; SLASH] l) eqn:C.
  - destruct (pieces_cleaned _ _ _ H) as [G [HG EG]]. exists G.
    split; [exact HG|].
    rewrite (file_clean_cleaned to_eol l Ll H (split_no_CR l N) C). exact EG.
  - exists Ll. apply orb_false_iff in C as [C1 C2]. split.
    + apply (pieces_self _ _ _ H); [|exact C2].
      intros I. apply in_contains in I. congruence.
    + unfold cJSONFile._clean. rewrite C1, C2. symmetry.
      exact (Scan_join _ _ _ H).
Qed.

Lemma Lines_filter (f : text -> bool) (x : text) (ls : list text) :
  Lines x ls -> Lines (join (filter f ls)) (filter f ls).
Proof.
  unfold join. induction 1 as [| l Hne HN | a x ls HN HL IH]; simpl.
  - constructor.
  - destruct (f l); simpl; [|constructor]. rewrite app_nil_r.
    constructor; assumption.
  - destruct (f (a ++ [LF])); simpl; [|exact IH].
    rewrite <- app_assoc. exact (Lines_cons a _ _ HN IH).
Qed.

Lemma filter_lines_in (f : text -> bool) (ls : list text) (c : ascii) :
  In c (join (filter f ls)) -> In c (join ls).
Proof.
  unfold join. induction ls as [|l ls IH]; simpl; [tauto|].
  destruct (f l); simpl; intros I.
  - apply in_or_app. apply in_app_or in I as [I | I]; auto.
  - apply in_or_app. auto.
Qed.

(** Reading line by line and cleaning all at once keep the same parts. *)
Lemma stream_pieces (x : text) (ls : list text) :
  Lines x ls -> ~ In CR x ->
  forall L, Scan to_eol x L ->
  exists F, pieces L F /\ join (map cJSONFile._clean ls) = join F.
Proof.
  induction 1 as [| l Hne HN | a x ls HN HL IH]; intros N L H.
  - apply Scan_nil in H. subst L. exists [[]]. split; [|reflexivity].
    exact (pieces_last _ _ (thinned_refl [])).
  - destruct (line_pieces l L N H) as [F [HF EF]]. exists F.
    split; [exact HF|]. unfold join in *. simpl. rewrite app_nil_r.
    exact EF.
  - change (a ++ LF :: x) with (a ++ [LF] ++ x) in *.
    rewrite app_assoc in *.
    assert (Hl : line (a ++ [LF])) by (exists a; auto).
    assert (Nl : ~ In CR (a ++ [LF]))
      by (intros I; apply N, in_or_app; auto).
    assert (Nx : ~ In CR x) by (intros I; apply N, in_or_app; auto).
    destruct (Scan_total to_eol (a ++ [LF])) as [Ll Sl].
    destruct (Scan_total to_eol x) as [Lx Sx].
    pose proof (Scan_glue to_eol (eq_refl : Re.cset_mem to_eol LF = false)
                  _ _ Sl Hl x Lx Sx) as G.
    rewrite (Scan_fun _ _ _ _ H G).
    destruct (line_pieces _ Ll Nl Sl) as [Fl [HFl EFl]].
    destruct (IH Nx Lx Sx) as [Fx [HFx EFx]].
    exists (glue Fl Fx). split; [exact (pieces_glue _ _ HFl _ _ HFx)|].
    rewrite join_glue, <- EFl, <- EFx. reflexivity.
Qed.

(** C2, as the code has it.  Take an instance made for reading a file in
    a text mode, with an encoding that resolves, and the text [x'] of the
    lines of the file that are no whole-line comments.  When that text
    holds at most eight tokens, [read] and [cJSONStr] applied to it are
    made of the parts of its scan in the same way: the quoted literals
    unchanged and in the same order, the comments dropped, and each text
    between two tokens with some of its blanks left out; so the two
    results are equal up to blanks.  With the whole-line comments left in
    the text given to [cJSONStr] (and at most eight tokens in it), the two
    results still hold the same characters other than white space, in the
    same order. *)
Theorem read_agrees_with_buffer_up_to_blanks :
  forall (w : Io.world) (path mode : text) (enc : option text)
         (content : text) (fl : Io.flags),
    Io.fs_get (Io.w_fs w) path = Some content ->
    Io.parse_mode mode = Some fl ->
    Io.reading fl = true -> Io.binary fl = false ->
    Io.resolves w enc = true ->
    let x := Io.universal_newlines content in
    let x' := join (filter wanted (Io.splitlines x)) in
    exists self w0 out st,
      cJSONFile.__init__ path mode enc w = (inr self, w0)
      /\ join (Io.splitlines x) = x
      /\ cJSONFile.read (self, w0) = (inr out, st)
      /\ (tokens x' <= Re.MULTILINE ->
          (exists L F G,
              Scan to_eol x' L /\ pieces L F /\ pieces L G
              /\ out = join F /\ cJSONStr.__new__ x' = join G)
          /\ unblank out = unblank (cJSONStr.__new__ x'))
      /\ (tokens x <= Re.MULTILINE ->
          squash out = squash (cJSONStr.__new__ x)).
Proof.
  intros w path mode enc content fl G P R B K x x'.
  pose proof (fresh_ready path mode enc content) as Rd.
  exists (instance path mode enc (Some (fresh path mode enc content))),
    (Io.log (Io.Opened path mode enc) w).
  eexists. eexists.
  split; [apply (init_reading _ _ _ _ _ _ G P R B K)|].
  assert (HL := splitlines_Lines x).
  assert (NC : ~ In CR x) by apply universal_newlines_no_CR.
  split; [exact (Lines_join x _ HL)|].
  split.
  { change (instance path mode enc (Some (fresh path mode enc content)),
            Io.log (Io.Opened path mode enc) w)
      with (holding (instance path mode enc None)
                    (fresh path mode enc content) (Io.splitlines x)
                    (Io.log (Io.Opened path mode enc) w)).
    rewrite (read_spec _ _ _ Rd). reflexivity. }
  split.
  - intros T. destruct (Scan_total to_eol x') as [L H].
    assert (NC' : ~ In CR x').
    { intros I. apply NC. rewrite <- (Lines_join x _ HL).
      exact (filter_lines_in wanted _ CR I). }
    destruct (stream_pieces x' _ (Lines_filter wanted x _ HL) NC' L H)
      as [F [HF EF]].
    destruct (pieces_cleaned _ _ _ H) as [G0 [HG EG]].
    rewrite (new_cleaned x' L H (tokens_bound x' L H T)), EG.
    split.
    + exists L, F, G0. auto.
    + rewrite EF. exact (pieces_unblank _ _ HF _ HG).
  - intros T. destruct (Scan_total to_eol x) as [L H].
    rewrite (new_cleaned x L H (tokens_bound x L H T)), squash_cleaned.
    exact (stream_vs_buffer x (Io.splitlines x) HL NC L H).
Qed.

Lemma read_agrees_with_buffer_up_to_blanks_witness :
  exists self w0 out st,
    cJSONFile.__init__ (py "commented.json") (py "r") (Some (py "utf-8"))
                       Demo.disk = (inr self, w0)
    /\ cJSONFile.read (self, w0) = (inr out, st)
    /\ unblank out
       = unblank (cJSONStr.__new__
                    (join (filter wanted (Io.splitlines demo_raw))))
    /\ squash out = squash (cJSONStr.__new__ demo_raw).
Proof.
  destruct (read_agrees_with_buffer_up_to_blanks
              Demo.disk (py "commented.json") (py "r") (Some (py "utf-8"))
              demo_raw
              {| Io.creating := false; Io.reading := true;
                 Io.writing := false; Io.appending := false;
                 Io.updating := false; Io.as_text := false;
                 Io.binary := false |})
    as [self [w0 [out [st [H1 [_ [H2 [H3 H4]]]]]]]].
  - reflexivity.
  - reflexivity.
  - reflexivity.
  - reflexivity.
  - reflexivity.
  - exists self, w0, out, st. split; [exact H1|]. split; [exact H2|].
    split.
    + apply H3. vm_compute. lia.
    + apply H4. vm_compute. lia.
Defined.

(** The file on which C2 as stated fails, the notebook's own: it holds
    seven tokens, and what [read] returns differs from what [cJSONStr]
    returns by more than blanks, since the whole-line comment leaves its tab
    and its line feed behind in [cJSONStr] and nothing in [read]. *)
Lemma read_differs_beyond_blanks :
  let path := py "commented.json" in
  let enc := Some (py "utf-8") in
  let opened := (instance path (py "r") enc
                          (Some (fresh path (py "r") enc demo_raw)),
                 Io.log (Io.Opened path (py "r") enc) Demo.disk) in
  cJSONFile.__init__ path (py "r") enc Demo.disk
  = (inr (fst opened), snd opened)
  /\ tokens demo_raw = 7
  /\ fst (cJSONFile.read opened)
     = inr (py "{\n\t`integer`: 1,\n\t`float`: 1.0,\n\t`text`: `// text //`,\n\t`list`: [1, 2, 3]\n}")
  /\ cJSONStr.__new__ demo_raw
     = py "{\n\t\n\t`integer`: 1,\n\t`float`: 1.0,\n\t`text`: `// text //`,\n\t`list`: [1, 2, 3]\n}"
  /\ forall out, fst (cJSONFile.read opened) = inr out ->
                 unblank out <> unblank (cJSONStr.__new__ demo_raw).
Proof.
  intros path enc opened. repeat split; try (vm_compute; reflexivity).
  intros out E.
  assert (R : fst (cJSONFile.read opened)
              = inr (py "{\n\t`integer`: 1,\n\t`float`: 1.0,\n\t`text`: `// text //`,\n\t`list`: [1, 2, 3]\n}"))
    by (vm_compute; reflexivity).
  rewrite R in E. injection E as <-. vm_compute. discriminate.
Qed.

(** ** A marker inside a quoted span *)

Lemma cleaned_app (A B : list text) : cleaned (A ++ B) = cleaned A ++ cleaned B.
Proof.
  unfold cleaned, join. rewrite filter_app, map_app, concat_app.
  reflexivity.
Qed.

(** From a quote with a partner on its line, the literal runs at least
    to that partner. *)
Lemma close_quote_covers (q : ascii) (u v : text) :
  q <> LF -> ~ In LF u ->
  exists t2 r, close_quote q (u ++ q :: v) = Some (u ++ q :: t2, r).
Proof.
  intros Hq. induction u as [|c u IH]; intros N.
  - simpl. replace (Ascii.eqb q LF) with false
      by (symmetry; apply Ascii.eqb_neq; exact Hq).
    destruct (close_quote q v) as [[b r]|].
    + exists b, r. reflexivity.
    + rewrite Ascii.eqb_refl. exists [], v. reflexivity.
  - destruct IH as [t2 [r E]]; [intros I; apply N; right; exact I|].
    simpl. replace (Ascii.eqb c LF) with false.
    + rewrite E. exists t2, r. reflexivity.
    + symmetry. apply Ascii.eqb_neq. intros ->. apply N. left. reflexivity.
Qed.

Lemma head_literal (cls : Re.cset) (x : ascii) (u v : text) (L : list text) :
  x = DQ \/ x = SQ -> ~ In LF u ->
  Scan cls (x :: u ++ x :: v) L ->
  exists mid t2 Lr,
    L = [] :: (x :: mid ++ [x]) :: Lr
    /\ x :: mid ++ [x] = x :: u ++ x :: t2.
Proof.
  intros Hx N H. destruct (quote_facts x Hx) as [xL _].
  destruct (close_quote_covers x u v xL N) as [t2 [r C]].
  destruct (close_quote_some x _ _ _ xL C) as [mid [Eb _]].
  assert (T : token_at cls (x :: u ++ x :: v) = Some (x :: u ++ x :: t2, r)).
  { unfold token_at. destruct Hx as [-> | ->].
    - rewrite Ascii.eqb_refl, C. reflexivity.
    - replace (Ascii.eqb DQ SQ) with false by (vm_compute; reflexivity).
      rewrite Ascii.eqb_refl, C. reflexivity. }
  assert (S : Re.search (marks cls) (x :: u ++ x :: v)
              = Some ([], x :: u ++ x :: t2, r)).
  { rewrite search_unfold, T. reflexivity. }
  destruct (Scan_inv_tok _ _ _ _ _ _ S H) as [Lr [-> _]].
  exists mid, t2, Lr. rewrite <- Eb. split; reflexivity.
Qed.

Section Span.

Variable cls : Re.cset.
Hypothesis cls_LF : Re.cset_mem cls LF = false.
Variables (q : ascii) (body post : text).
Hypothesis Hq : q = DQ \/ q = SQ.
Hypothesis body_line : ~ In LF body.

(** The scan of the line from a safe start: one of its tokens is a
    literal that holds the span. *)
Lemma safe_scan (a : text) :
  safe q body post a ->
  forall L, Scan cls (a ++ q :: body ++ q :: post) L ->
  exists F x mid L2 t1 t2,
    F <> [] /\ (x = DQ \/ x = SQ)
    /\ L = F ++ (x :: mid ++ [x]) :: L2
    /\ x :: mid ++ [x] = t1 ++ q :: body ++ q :: t2.
Proof.
  induction 1 as [| c a O S IH | x m a Hx Nm Nx S IH | a Na | x a Hx Na Ix];
    intros L H.
  - destruct (head_literal cls q body post L Hq body_line H)
      as [mid [t2 [Lr [-> E]]]].
    exists [[]], q, mid, Lr, [], t2. split; [discriminate|].
    split; [exact Hq|]. split; [reflexivity | exact E].
  - destruct (Scan_total cls (a ++ q :: body ++ q :: post)) as [L0 H0].
    destruct (IH L0 H0) as [F [x [mid [L2 [t1 [t2 [NF [Hx [E0 ET]]]]]]]]].
    destruct F as [|p0 F]; [contradiction|]. subst L0.
    assert (Q : quiet [c] (a ++ q :: body ++ q :: post)).
    { apply quiet_cons. split; [exact O | apply quiet_nil]. }
    pose proof (Scan_prepend cls [c] _ p0 _ Q H0) as H1.
    change (([c] ++ a ++ q :: body ++ q :: post))
      with ((c :: a) ++ q :: body ++ q :: post) in H1.
    rewrite (Scan_fun cls _ _ _ H H1).
    exists (([c] ++ p0) :: F), x, mid, L2, t1, t2.
    split; [discriminate|]. split; [exact Hx|]. split; [reflexivity|exact ET].
  - assert (Es : (x :: m ++ x :: a) ++ q :: body ++ q :: post
                 = [] ++ (x :: m ++ [x]) ++ (a ++ q :: body ++ q :: post)).
    { simpl. rewrite <- !app_assoc. reflexivity. }
    rewrite Es in H.
    assert (Se : Re.search (marks cls)
                   ([] ++ (x :: m ++ [x]) ++ (a ++ q :: body ++ q :: post))
                 = Some ([], x :: m ++ [x], a ++ q :: body ++ q :: post)).
    { apply search_intro; [apply quiet_nil|].
      simpl. rewrite <- app_assoc. simpl.
      apply token_at_quote; assumption. }
    destruct (Scan_inv_tok _ _ _ _ _ _ Se H) as [Lr [-> Hr]].
    destruct (IH Lr Hr) as [F [y [mid [L2 [t1 [t2 [NF [Hy [E0 ET]]]]]]]]].
    subst Lr.
    exists ([] :: (x :: m ++ [x]) :: F), y, mid, L2, t1, t2.
    split; [discriminate|]. split; [exact Hy|]. split; [reflexivity|exact ET].
  - assert (Es : (q :: a) ++ q :: body ++ q :: post
                 = q :: (a ++ q :: body) ++ q :: post).
    { simpl. rewrite <- app_assoc. reflexivity. }
    rewrite Es in H.
    assert (N : ~ In LF (a ++ q :: body)).
    { destruct (quote_facts q Hq) as [qL _]. intros I.
      apply in_app_or in I as [I | [I | I]]; [tauto | congruence | tauto]. }
    destruct (head_literal cls q _ post L Hq N H) as [mid [t2 [Lr [-> E]]]].
    exists [[]], q, mid, Lr, (q :: a), t2. split; [discriminate|].
    split; [exact Hq|]. split; [reflexivity|].
    rewrite E. simpl. rewrite <- app_assoc. reflexivity.
  - destruct (firstline_find x post Ix) as [p1 [p2 [Ep Np]]].
    assert (Es : (x :: a) ++ q :: body ++ q :: post
                 = x :: (a ++ q :: body ++ q :: p1) ++ x :: p2).
    { rewrite Ep. simpl. rewrite <- !app_assoc. simpl.
      rewrite <- !app_assoc. reflexivity. }
    rewrite Es in H.
    assert (N : ~ In LF (a ++ q :: body ++ q :: p1)).
    { destruct (quote_facts q Hq) as [qL _]. intros I.
      apply in_app_or in I as [I | [I | I]]; [tauto | congruence|].
      apply in_app_or in I as [I | [I | I]]; [tauto | congruence | tauto]. }
    destruct (head_literal cls x _ p2 L Hx N H) as [mid [t2 [Lr [-> E]]]].
    exists [[]], x, mid, Lr, (x :: a), (p1 ++ x :: t2).
    split; [discriminate|]. split; [exact Hx|]. split; [reflexivity|].
    rewrite E. simpl. rewrite <- !app_assoc. simpl.
    rewrite <- !app_assoc. reflexivity.
Qed.

(** The same after whole lines, and what is left of it once cleaned. *)
Lemma span_in_cleaned (P a : text) (L : list text) :
  P = [] \/ (exists P', P = P' ++ [LF]) ->
  safe q body post a ->
  Scan cls (P ++ a ++ q :: body ++ q :: post) L ->
  exists u v, cleaned L = u ++ q :: body ++ q :: v.
Proof.
  intros HP S H.
  destruct (Scan_total cls (a ++ q :: body ++ q :: post)) as [Lz Hz].
  destruct (safe_scan a S Lz Hz)
    as [F [x [mid [L2 [t1 [t2 [NF [Hx [E0 ET]]]]]]]]].
  destruct (Scan_after_lines cls cls_LF P _ (splitlines_Lines P) HP _ Lz L Hz H)
    as [front [_ EL]].
  destruct F as [|p0 F]; [contradiction|]. subst Lz. simpl tl in EL.
  destruct (quote_token_unmarked x mid Hx) as [M [_ St]].
  exists (cleaned (front ++ F) ++ t1), (t2 ++ cleaned L2).
  rewrite EL, app_assoc, cleaned_app, cleaned_cons, M, St, ET.
  rewrite <- !app_assoc. simpl. rewrite <- !app_assoc. reflexivity.
Qed.

End Span.

(** A line with a safe start is no whole-line comment. *)
Lemma safe_not_comment (q : ascii) (body post a : text) :
  q = DQ \/ q = SQ -> safe q body post a ->
  cJSONFile._is_comment (a ++ q :: body ++ q :: post) = false.
Proof.
  intros Hq S.
  destruct (cJSONFile._is_comment (a ++ q :: body ++ q :: post)) eqn:C;
    [exfalso | reflexivity].
  apply detected_whole_line_comment in C as [ws [rest [F E]]].
  assert (Quote : forall x t (ws0 : text) m0,
             x = DQ \/ x = SQ -> forallb is_space ws0 = true ->
             (x :: t = ws0 ++ HASH :: m0
              \/ x :: t = ws0 ++ SLASH :: SLASH :: m0) -> False).
  { intros x t ws0 m0 Hx F0 E0.
    destruct (quote_facts x Hx) as [_ [xH [xS [_ [xW _]]]]].
    destruct ws0 as [|c ws0].
    - destruct E0 as [E0 | E0]; injection E0 as E0 _; congruence.
    - simpl in F0. apply andb_true_iff in F0 as [Fc _].
      destruct E0 as [E0 | E0]; injection E0 as E0 _; congruence. }
  revert ws F E.
  induction S as [| c a O S IH | x m a Hx Nm Nx S IH | a Na | x a Hx Na Ix];
    intros ws F E.
  - exact (Quote q _ ws rest Hq F E).
  - destruct ws as [|d ws].
    + destruct E as [E | E]; injection E as -> E.
      * rewrite opens_HASH in O. discriminate O.
      * rewrite E, opens_slashes in O. discriminate O.
    + simpl in F. apply andb_true_iff in F as [_ F].
      apply (IH ws F). destruct E as [E | E]; injection E as _ E; auto.
  - exact (Quote x _ ws rest Hx F E).
  - exact (Quote q _ ws rest Hq F E).
  - exact (Quote x _ ws rest Hx F E).
Qed.

(** C3, as the code has it.  Take a text in which a quoted span
    [q body q] lies on one line, after whole lines [P] and, on its own
    line, after a safe start [a]: characters that start no token and
    literals closed before the span, then nothing more, or a quote whose
    literal runs to the closing quote of the span or beyond.  Then the
    span, with any marker in it, is found unchanged in what [cJSONStr]
    returns (the text holding at most eight tokens) and in what
    [cJSONFile._clean] returns, and the line of the span is not taken for
    a whole-line comment. *)
Theorem marker_inside_quotes_preserved :
  forall (P a body post : text) (q : ascii),
    q = DQ \/ q = SQ ->
    P = [] \/ (exists P', P = P' ++ [LF]) ->
    ~ In LF body ->
    safe q body post a ->
    (tokens (P ++ a ++ q :: body ++ q :: post) <= Re.MULTILINE ->
     exists u v, cJSONStr.__new__ (P ++ a ++ q :: body ++ q :: post)
                 = u ++ q :: body ++ q :: v)
    /\ (exists u v, cJSONFile._clean (P ++ a ++ q :: body ++ q :: post)
                    = u ++ q :: body ++ q :: v)
    /\ cJSONFile._is_comment (a ++ q :: body ++ q :: post) = false.
Proof.
  intros P a body post q Hq HP Nb S. split; [|split].
  - intros T.
    destruct (Scan_total to_eol (P ++ a ++ q :: body ++ q :: post)) as [L H].
    rewrite (new_cleaned _ L H (tokens_bound _ L H T)).
    exact (span_in_cleaned to_eol (eq_refl : Re.cset_mem to_eol LF = false)
             q body post Hq Nb P a L HP S H).
  - destruct (contains [HASH] (P ++ a ++ q :: body ++ q :: post)
              || contains [SLASH; SLASH] (P ++ a ++ q :: body ++ q :: post))
      eqn:C.
    + destruct (Scan_total Re.Dot (P ++ a ++ q :: body ++ q :: post))
        as [L H].
      rewrite (file_clean_cleaned Re.Dot _ L H eq_refl C).
      exact (span_in_cleaned Re.Dot (eq_refl : Re.cset_mem Re.Dot LF = false)
               q body post Hq Nb P a L HP S H).
    + exists (P ++ a), post. unfold cJSONFile._clean. rewrite C.
      rewrite <- !app_assoc. reflexivity.
  - exact (safe_not_comment q body post a Hq S).
Qed.

Lemma marker_inside_quotes_preserved_witness :
  (exists u v,
      cJSONStr.__new__ (py "{\n\t'a#b': `// not a comment //`, # note\n}")
      = u ++ py "`// not a comment //`" ++ v)
  /\ (exists u v,
         cJSONFile._clean (py "\t'a#b': `// not a comment //`, # note\n")
         = u ++ py "`// not a comment //`" ++ v).
Proof.
  assert (S : safe DQ (py "// not a comment //") (py ", # note\n}")
                   (py "\t'a#b': ")).
  { apply safe_skip; [reflexivity|].
    apply (safe_literal DQ _ _ SQ (py "a#b") (py ": "));
      [right; reflexivity | apply existsb_eqb_notIn; reflexivity
       | apply existsb_eqb_notIn; reflexivity |].
    apply safe_skip; [reflexivity|]. apply safe_skip; [reflexivity|].
    apply safe_here. }
  assert (S' : safe DQ (py "// not a comment //") (py ", # note\n")
                    (py "\t'a#b': ")).
  { apply safe_skip; [reflexivity|].
    apply (safe_literal DQ _ _ SQ (py "a#b") (py ": "));
      [right; reflexivity | apply existsb_eqb_notIn; reflexivity
       | apply existsb_eqb_notIn; reflexivity |].
    apply safe_skip; [reflexivity|]. apply safe_skip; [reflexivity|].
    apply safe_here. }
  split.
  - destruct (marker_inside_quotes_preserved
                (py "{\n") (py "\t'a#b': ") (py "// not a comment //")
                (py ", # note\n}") DQ) as [E _].
    + left. reflexivity.
    + right. exists (py "{"). reflexivity.
    + apply existsb_eqb_notIn. reflexivity.
    + exact S.
    + destruct E as [u [v E]]; [vm_compute; lia|]. exists u, v. exact E.
  - destruct (marker_inside_quotes_preserved
                [] (py "\t'a#b': ") (py "// not a comment //")
                (py ", # note\n") DQ) as [_ [[u [v E]] _]].
    + left. reflexivity.
    + left. reflexivity.
    + apply existsb_eqb_notIn. reflexivity.
    + exact S'.
    + exists u, v. exact E.
Defined.

(** The line on which C3 as stated fails: the hash lies inside the
    double-quoted span, no quote follows the span, and neither cleaner
    keeps the hash: the single quote before the span pairs with the
    apostrophe inside it. *)
Lemma marker_inside_quotes_lost :
  let pre := py "{'k': " in
  let body := py "it's #1" in
  let post := py "}" in
  In HASH body /\ ~ In LF body /\ ~ In DQ body
  /\ ~ In DQ post /\ ~ In SQ post
  /\ cJSONStr.__new__ (pre ++ DQ :: body ++ DQ :: post) = py "{'k': `it's"
  /\ cJSONFile._clean (pre ++ DQ :: body ++ DQ :: post) = py "{'k': `it's"
  /\ ~ (exists u v, cJSONStr.__new__ (pre ++ DQ :: body ++ DQ :: post)
                    = u ++ DQ :: body ++ DQ :: v)
  /\ ~ (exists u v, cJSONFile._clean (pre ++ DQ :: body ++ DQ :: post)
                    = u ++ DQ :: body ++ DQ :: v).
Proof.
  intros pre body post.
  assert (N : ~ In HASH (py "{'k': `it's"))
    by (apply existsb_eqb_notIn; reflexivity).
  assert (A : cJSONStr.__new__ (pre ++ DQ :: body ++ DQ :: post)
              = py "{'k': `it's") by (vm_compute; reflexivity).
  assert (B : cJSONFile._clean (pre ++ DQ :: body ++ DQ :: post)
              = py "{'k': `it's") by (vm_compute; reflexivity).
  assert (I : In HASH body) by (apply existsb_eqb_In; reflexivity).
  repeat split; try (apply existsb_eqb_notIn; reflexivity); auto.
  - intros [u [v E]]. rewrite A in E. apply N. rewrite E.
    apply in_or_app. right. right. apply in_or_app. left. exact I.
  - intros [u [v E]]. rewrite B in E. apply N. rewrite E.
    apply in_or_app. right. right. apply in_or_app. left. exact I.
Qed.

(** * Further properties of the two classes *)

(** ** What [_is_comment] recognises *)

(** [_is_comment] holds exactly of the lines whose first characters after
    leading white space are a hash or two slashes. *)
Theorem is_comment_iff (l : text) :
  cJSONFile._is_comment l = true <-> whole_line_comment l.
Proof.
  split; [apply detected_whole_line_comment | apply whole_line_comment_detected].
Qed.

(** ** Nothing is added *)

Lemma subseq_parts (f : text -> bool) (L : list text) :
  subseq (join (map (strip is_blank) (filter f L))) (join L).
Proof.
  unfold join. induction L as [|p L IH]; simpl; [constructor|].
  destruct (f p); simpl.
  - apply subseq_app; [apply subseq_strip | exact IH].
  - rewrite <- (app_nil_l (concat _)) at 1.
    apply subseq_app; [apply subseq_nil_l | exact IH].
Qed.

Lemma split_n_join (cls : Re.cset) (n : nat) (s : text) :
  join (Re.split_n (marks cls) n s) = s.
Proof.
  unfold join. revert s. induction n as [|n IH]; intros s; simpl.
  - apply app_nil_r.
  - destruct (Re.search (marks cls) s) as [[[pre m] r]|] eqn:E; simpl.
    + destruct (search_some _ _ _ _ _ E) as [Es _]. rewrite IH.
      symmetry. exact Es.
    + apply app_nil_r.
Qed.

Lemma split_join (cls : Re.cset) (s : text) (k : nat) :
  join (Re.split (marks cls) s k) = s.
Proof. unfold Re.split. destruct k; apply split_n_join. Qed.

(** Whatever the text, what [cJSONStr] returns is the text with characters
    left out: it adds no character and changes no order. *)
Theorem str_clean_subseq (s : text) : subseq (cJSONStr.__new__ s) s.
Proof.
  unfold cJSONStr.__new__, cJSONStr._clean. rewrite PATTERN_str.
  rewrite <- (split_join (Re.NoneOf [CR; LF]) s Re.MULTILINE) at 2.
  apply subseq_parts.
Qed.

Lemma file_clean_in (l : text) (c : ascii) :
  In c (cJSONFile._clean l) -> In c l.
Proof.
  unfold cJSONFile._clean.
  destruct (contains [HASH] l || contains [SLASH; SLASH] l); [|tauto].
  rewrite PATTERN_file. intros I.
  rewrite <- (split_join Re.Dot l 0).
  exact (subseq_in _ _ c (subseq_parts _ _) I).
Qed.

(** Whatever the line, what [cJSONFile._clean] returns is the line with
    characters left out. *)
Theorem file_clean_subseq (l : text) : subseq (cJSONFile._clean l) l.
Proof.
  unfold cJSONFile._clean.
  destruct (contains [HASH] l || contains [SLASH; SLASH] l);
    [|apply subseq_refl].
  rewrite PATTERN_file.
  rewrite <- (split_join Re.Dot l 0) at 2.
  apply subseq_parts.
Qed.

(** ** The ends of the cleaned text *)

Lemma trimmed_parts (f : text -> bool) (L : list text) :
  trimmed is_blank (join (map (strip is_blank) (filter f L))).
Proof.
  unfold join. induction L as [|p L IH]; simpl; [split; reflexivity|].
  destruct (f p); simpl; [|exact IH].
  apply trimmed_app; [apply strip_trimmed | exact IH].
Qed.

(** Whatever the text, what [cJSONStr] returns neither starts nor ends
    with a blank. *)
Theorem str_clean_trimmed (s t : text) :
  cJSONStr.__new__ s <> SP :: t /\ cJSONStr.__new__ s <> t ++ [SP].
Proof.
  assert (T : trimmed is_blank (cJSONStr.__new__ s))
    by apply trimmed_parts.
  destruct T as [T1 T2]. split; intros E; rewrite E in *.
  - apply lstrip_fixed_cases in T1 as [T1 | [c [u [T1 B]]]]; [discriminate|].
    injection T1 as <- _. vm_compute in B. discriminate.
  - rewrite rev_app_distr in T2.
    change (rev [SP] ++ rev t) with (SP :: rev t) in T2.
    apply lstrip_fixed_cases in T2 as [T2 | [c [u [T2 B]]]]; [discriminate|].
    injection T2 as <- _. vm_compute in B. discriminate.
Qed.

(** ** Line feeds *)

Lemma linefeeds_app (a b : text) : linefeeds (a ++ b) = linefeeds a + linefeeds b.
Proof. unfold linefeeds. rewrite filter_app, length_app. reflexivity. Qed.

Lemma linefeeds_none (a : text) : ~ In LF a -> linefeeds a = 0.
Proof.
  unfold linefeeds. induction a as [|c a IH]; simpl; [reflexivity|].
  intros N. destruct (Ascii.eqb LF c) eqn:E.
  - apply Ascii.eqb_eq in E. exfalso. apply N. left. congruence.
  - apply IH. tauto.
Qed.

Lemma linefeeds_strip (s : text) : linefeeds (strip is_blank s) = linefeeds s.
Proof.
  destruct (strip_split is_blank s) as [a [b [E [Fa Fb]]]].
  rewrite E at 2. rewrite !linefeeds_app.
  rewrite (linefeeds_none a (blanks_no_LF a Fa)),
    (linefeeds_none b (blanks_no_LF b Fb)). lia.
Qed.

Lemma linefeeds_cleaned (cls : Re.cset) (s : text) (L : list text) :
  Re.cset_mem cls LF = false -> Scan cls s L ->
  linefeeds (cleaned L) = linefeeds s.
Proof.
  intros CL. induction 1 as [s E | s pre m r L E H IH].
  - rewrite cleaned_cons, (search_none_unmarked _ _ E).
    change (cleaned []) with (@nil ascii).
    rewrite app_nil_r. apply linefeeds_strip.
  - destruct (search_some _ _ _ _ _ E) as [Es [Q T]].
    destruct (token_no_LF cls _ _ _ CL T) as [Nm _].
    rewrite !cleaned_cons, (quiet_part_unmarked _ _ Q), Es, !linefeeds_app, IH.
    rewrite linefeeds_strip, (linefeeds_none m Nm).
    destruct (cJSONStr.is_marked m); [reflexivity|].
    rewrite linefeeds_strip, (linefeeds_none m Nm). reflexivity.
Qed.

(** On a text of at most eight tokens, [cJSONStr] returns a text with as
    many line feeds as the input: lines keep their numbers. *)
Theorem str_clean_keeps_line_feeds (s : text) :
  tokens s <= Re.MULTILINE ->
  linefeeds (cJSONStr.__new__ s) = linefeeds s.
Proof.
  intros T. destruct (Scan_total to_eol s) as [L H].
  rewrite (new_cleaned s L H (tokens_bound s L H T)).
  exact (linefeeds_cleaned to_eol s L eq_refl H).
Qed.

Lemma str_clean_keeps_line_feeds_witness :
  linefeeds (cJSONStr.__new__ demo_raw) = linefeeds demo_raw.
Proof.
  apply (str_clean_keeps_line_feeds demo_raw). vm_compute. lia.
Defined.

(** The parts [cJSONFile._clean] keeps of a line that holds a marker are
    those [cJSONStr] would keep of the complete scan. *)
(** Whatever the line, [cJSONFile._clean] returns a text with as many line
    feeds as the line: a line read with its line feed keeps it. *)
Theorem file_clean_keeps_line_feeds (l : text) :
  linefeeds (cJSONFile._clean l) = linefeeds l.
Proof.
  destruct (contains [HASH] l || contains [SLASH; SLASH] l) eqn:C.
  - destruct (Scan_total Re.Dot l) as [L H].
    rewrite (file_clean_cleaned Re.Dot l L H eq_refl C).
    exact (linefeeds_cleaned Re.Dot l L eq_refl H).
  - unfold cJSONFile._clean. rewrite C. reflexivity.
Qed.

(** ** The two cleaners on the same text *)

(** On a text without carriage return that holds a marker and at most
    eight tokens, [cJSONFile._clean] and [cJSONStr] return the same text. *)
Theorem cleaners_agree_on_marked_text (l : text) :
  ~ In CR l -> tokens l <= Re.MULTILINE ->
  contains [HASH] l || contains [SLASH; SLASH] l = true ->
  cJSONFile._clean l = cJSONStr.__new__ l.
Proof.
  intros N T C. destruct (Scan_total to_eol l) as [L H].
  rewrite (new_cleaned l L H (tokens_bound l L H T)).
  exact (file_clean_cleaned to_eol l L H (split_no_CR l N) C).
Qed.

Lemma cleaners_agree_on_marked_text_witness :
  cJSONFile._clean (py "\t`float`: 1.0, # Float\n")
  = cJSONStr.__new__ (py "\t`float`: 1.0, # Float\n").
Proof.
  apply (cleaners_agree_on_marked_text (py "\t`float`: 1.0, # Float\n")).
  - apply existsb_eqb_notIn. reflexivity.
  - vm_compute. lia.
  - reflexivity.
Defined.

(** ** Cleaning a cleaned line *)

Lemma whole_line_comment_scan (y : text) :
  whole_line_comment y ->
  exists a m r, Re.search (marks to_eol) y = Some (a, m, r)
                /\ cJSONStr.is_marked m = true.
Proof.
  intros [a [rest0 [Fa E]]].
  assert (Hh : exists h rest, (h = [HASH] \/ h = [SLASH; SLASH])
                              /\ y = a ++ h ++ rest).
  { destruct E as [-> | ->]; [exists [HASH], rest0 | exists [SLASH; SLASH], rest0];
      auto. }
  destruct Hh as [h [rest [Hh El]]].
  assert (T := comment_token_at h rest Hh).
  destruct (comment_run_spec to_eol rest) as [Er _].
  remember (fst (comment_run to_eol rest)) as run eqn:Erun.
  remember (snd (comment_run to_eol rest)) as r eqn:Ertail.
  exists a, (h ++ run), r. split.
  - rewrite El, Er, (app_assoc h run r).
    apply search_intro; [apply space_quiet, Fa|].
    rewrite <- app_assoc, <- Er. exact T.
  - apply is_marked_app. destruct Hh as [-> | ->]; reflexivity.
Qed.

Lemma settled_scan_not_comment (y : text) (L : list text) :
  Scan to_eol y L -> Forall settled L -> cJSONFile._is_comment y = false.
Proof.
  intros H F. destruct (cJSONFile._is_comment y) eqn:C; [exfalso | reflexivity].
  apply detected_whole_line_comment, whole_line_comment_scan in C
    as [a [m [r [S M]]]].
  destruct (Scan_inv_tok _ _ _ _ _ _ S H) as [Lr [-> _]].
  apply Forall_inv_tail, Forall_inv in F. destruct F as [F _]. congruence.
Qed.

Lemma unmarked_not_comment (l : text) :
  contains [HASH] l || contains [SLASH; SLASH] l = false ->
  cJSONFile._is_comment l = false.
Proof.
  intros C. apply orb_false_iff in C as [C1 C2].
  destruct (cJSONFile._is_comment l) eqn:I; [exfalso | reflexivity].
  apply is_comment_has_marker in I as [I | I]; [|congruence].
  apply in_contains in I. congruence.
Qed.

(** What [cJSONFile._clean] returns for a line without carriage return is
    never a whole-line comment: reading the cleaned lines again drops none
    of them. *)
Theorem file_clean_not_comment (l : text) :
  ~ In CR l ->
  cJSONFile._is_comment (cJSONFile._clean l) = false.
Proof.
  intros N.
  destruct (contains [HASH] l || contains [SLASH; SLASH] l) eqn:C.
  - destruct (Scan_total to_eol l) as [L H].
    rewrite (file_clean_cleaned to_eol l L H (split_no_CR l N) C).
    destruct (clean_scan l L H) as [L' [H' [F _]]].
    exact (settled_scan_not_comment _ L' H' F).
  - unfold cJSONFile._clean. rewrite C. exact (unmarked_not_comment l C).
Qed.

Lemma file_clean_not_comment_witness :
  cJSONFile._is_comment (cJSONFile._clean (py "  `a`: 1 # one\n")) = false.
Proof.
  apply (file_clean_not_comment (py "  `a`: 1 # one\n")).
  apply existsb_eqb_notIn. reflexivity.
Defined.

(** On a line without carriage return [cJSONFile._clean] is idempotent:
    cleaning the cleaned line gives it back. *)
Theorem file_clean_idempotent (l : text) :
  ~ In CR l ->
  cJSONFile._clean (cJSONFile._clean l) = cJSONFile._clean l.
Proof.
  intros N.
  destruct (contains [HASH] l || contains [SLASH; SLASH] l) eqn:C.
  - destruct (Scan_total to_eol l) as [L H].
    assert (E := file_clean_cleaned to_eol l L H (split_no_CR l N) C).
    assert (N' : ~ In CR (cJSONFile._clean l)).
    { intros I. exact (N (file_clean_in l CR I)). }
    rewrite E in *. set (y := cleaned L) in *.
    destruct (clean_scan l L H) as [L' [H' [F _]]]. fold y in H'.
    destruct (contains [HASH] y || contains [SLASH; SLASH] y) eqn:C'.
    + rewrite (file_clean_cleaned to_eol y L' H' (split_no_CR y N') C').
      rewrite (cleaned_settled L' F). exact (Scan_join _ _ _ H').
    + unfold cJSONFile._clean. rewrite C'. reflexivity.
  - unfold cJSONFile._clean at 2. rewrite C.
    unfold cJSONFile._clean. rewrite C. reflexivity.
Qed.

Lemma file_clean_idempotent_witness :
  cJSONFile._clean (cJSONFile._clean (py "\t`text`: `// text //`,  // Trailing comment\n"))
  = cJSONFile._clean (py "\t`text`: `// text //`,  // Trailing comment\n").
Proof.
  apply (file_clean_idempotent
           (py "\t`text`: `// text //`,  // Trailing comment\n")).
  apply existsb_eqb_notIn. reflexivity.
Defined.

(** ** A comment at the end of the text *)

Lemma firstline_all (t : text) : ~ In LF t -> firstline t = t.
Proof.
  induction t as [|c t IH]; simpl; [reflexivity|]. intros H.
  destruct (Ascii.eqb c LF) eqn:E.
  - apply Ascii.eqb_eq in E. exfalso. apply H. left. exact E.
  - f_equal. apply IH. tauto.
Qed.

Lemma firstline_ext (q : ascii) (t Z : text) :
  ~ In q Z -> In q (firstline (t ++ Z)) -> In q (firstline t).
Proof.
  intros NZ. rewrite firstline_app.
  destruct (existsb (Ascii.eqb LF) t) eqn:E; [tauto|].
  apply existsb_eqb_notIn in E. rewrite (firstline_all t E).
  intros H. apply in_app_or in H as [H | H]; [exact H|].
  exfalso. exact (NZ (firstline_incl _ _ H)).
Qed.

(** Text put after [t] starts no token at [c] that [t] alone did not
    start, when it holds no quote and does not complete two slashes. *)
Lemma opens_ext (c : ascii) (t Z : text) :
  ~ In DQ Z -> ~ In SQ Z ->
  (t = [] -> c = SLASH -> startswith Z [SLASH] = false) ->
  opens c t = false -> opens c (t ++ Z) = false.
Proof.
  intros ND NS S O. unfold opens in *.
  apply orb_false_iff in O as [O O4]. apply orb_false_iff in O as [O O3].
  apply orb_false_iff in O as [O1 O2].
  assert (Q : forall q, ~ In q Z ->
              Ascii.eqb q c && existsb (Ascii.eqb q) (firstline t) = false ->
              Ascii.eqb q c && existsb (Ascii.eqb q) (firstline (t ++ Z)) = false).
  { intros q NZ H. destruct (Ascii.eqb q c); [|reflexivity].
    cbn [andb] in *. apply existsb_eqb_notIn.
    apply existsb_eqb_notIn in H. intros I.
    exact (H (firstline_ext q t Z NZ I)). }
  rewrite (Q DQ ND O1), (Q SQ NS O2), O3. cbn [orb].
  destruct (Ascii.eqb SLASH c) eqn:E4; [|reflexivity].
  cbn [andb] in *. apply Ascii.eqb_eq in E4.
  destruct t as [|d t]; [|exact O4].
  apply S; [reflexivity | congruence].
Qed.

Lemma quiet_ext (u v Z : text) :
  ~ In DQ Z -> ~ In SQ Z -> v <> [] -> quiet u v -> quiet u (v ++ Z).
Proof.
  intros ND NS V Q u1 c u2 E. rewrite app_assoc.
  apply opens_ext; [exact ND | exact NS | | exact (Q u1 c u2 E)].
  intros N. apply app_eq_nil in N as [_ N]. contradiction.
Qed.

Lemma close_quote_ext (q : ascii) (t b r Z : text) :
  q <> LF -> ~ In q Z -> close_quote q t = Some (b, r) ->
  close_quote q (t ++ Z) = Some (b, r ++ Z).
Proof.
  intros Hq NZ C.
  destruct (close_quote_some q t b r Hq C) as [b' [-> [-> [N1 N2]]]].
  rewrite <- !app_assoc. simpl. apply close_quote_intro; [exact Hq | exact N1|].
  intros I. exact (N2 (firstline_ext q r Z NZ I)).
Qed.

(** A token that does not run to the end of the text, or that is a
    literal, stays the token when text without quotes is put after. *)
Lemma token_at_ext (cls : Re.cset) (s m r Z : text) :
  ~ In DQ Z -> ~ In SQ Z ->
  token_at cls s = Some (m, r) ->
  r <> [] \/ (exists q b, m = q :: b /\ (q = DQ \/ q = SQ)) ->
  token_at cls (s ++ Z) = Some (m, r ++ Z).
Proof.
  intros ND NS. destruct s as [|c t]; [discriminate|].
  change ((c :: t) ++ Z) with (c :: (t ++ Z)). unfold token_at.
  destruct (Ascii.eqb DQ c) eqn:E1.
  { destruct (close_quote DQ t) as [[b r0]|] eqn:C; [|discriminate].
    simpl. intros E _. injection E as <- <-.
    rewrite (close_quote_ext DQ t b r0 Z DQ_not_LF ND C). reflexivity. }
  destruct (Ascii.eqb SQ c) eqn:E2.
  { destruct (close_quote SQ t) as [[b r0]|] eqn:C; [|discriminate].
    simpl. intros E _. injection E as <- <-.
    rewrite (close_quote_ext SQ t b r0 Z SQ_not_LF NS C). reflexivity. }
  assert (K : forall m0 : text,
             r <> [] \/ (exists q b, c :: m0 = q :: b /\ (q = DQ \/ q = SQ)) ->
             r <> []).
  { intros m0 [H | [q [b [E [-> | ->]]]]]; [exact H | |];
      injection E as -> _; rewrite Ascii.eqb_refl in *; discriminate. }
  destruct (Ascii.eqb HASH c).
  { intros E D. injection E as <- <-. apply K in D.
    rewrite (comment_run_ctx cls t Z D). reflexivity. }
  destruct (Ascii.eqb SLASH c); [|discriminate].
  destruct t as [|d u]; [discriminate|].
  change ((d :: u) ++ Z) with (d :: (u ++ Z)). cbv beta iota.
  destruct (Ascii.eqb SLASH d); [|discriminate].
  intros E D. injection E as <- <-. apply K in D.
  rewrite (comment_run_ctx cls u Z D). reflexivity.
Qed.

Lemma comment_run_stop (cls : Re.cset) (c tail : text) :
  forallb (Re.cset_mem cls) c = true ->
  tail = [] \/ (exists d t, tail = d :: t /\ Re.cset_mem cls d = false) ->
  comment_run cls (c ++ tail) = (c, tail).
Proof.
  intros F T. induction c as [|x c IH]; simpl.
  - destruct T as [-> | [d [t [-> D]]]]; [reflexivity|]. simpl. rewrite D.
    reflexivity.
  - simpl in F. apply andb_true_iff in F as [Fx F]. rewrite Fx, (IH F).
    reflexivity.
Qed.

Lemma comment_token_any (cls : Re.cset) (h rest : text) :
  h = [HASH] \/ h = [SLASH; SLASH] ->
  token_at cls (h ++ rest)
  = Some (h ++ fst (comment_run cls rest), snd (comment_run cls rest)).
Proof. intros [-> | ->]; reflexivity. Qed.

Section TrailingComment.

Variables (m c tail : text).
Hypothesis Hm : m = [HASH] \/ m = [SLASH; SLASH].
Hypothesis c_DQ : ~ In DQ c.
Hypothesis c_SQ : ~ In SQ c.
Hypothesis c_CR : ~ In CR c.
Hypothesis c_LF : ~ In LF c.
Hypothesis Htail : tail = [] \/ tail = [LF].

Lemma ends_ok_suffix (a r : text) :
  (m = [SLASH; SLASH] -> forall x, a ++ r <> x ++ [SLASH]) -> r <> [] ->
  m = [SLASH; SLASH] -> forall x, r <> x ++ [SLASH].
Proof.
  intros H R Em x E. apply (H Em (a ++ x)). rewrite E, app_assoc.
  reflexivity.
Qed.

Lemma trailer_no_quote : ~ In DQ (m ++ c ++ tail) /\ ~ In SQ (m ++ c ++ tail).
Proof.
  assert (Km : forall q, (q = DQ \/ q = SQ) -> ~ In q m).
  { intros q Hq I. destruct (quote_facts q Hq) as [_ [qH [qS _]]].
    destruct Hm as [-> | ->]; simpl in I; intuition congruence. }
  assert (Kt : forall q, (q = DQ \/ q = SQ) -> ~ In q tail).
  { intros q Hq I. destruct (quote_facts q Hq) as [qL _].
    destruct Htail as [-> | ->]; simpl in I; intuition congruence. }
  split; intros I; apply in_app_or in I as [I | I];
    try apply in_app_or in I as [I | I].
  - exact (Km DQ (or_introl eq_refl) I).
  - exact (c_DQ I).
  - exact (Kt DQ (or_introl eq_refl) I).
  - exact (Km SQ (or_intror eq_refl) I).
  - exact (c_SQ I).
  - exact (Kt SQ (or_intror eq_refl) I).
Qed.

Lemma comment_chars (run : text) :
  forallb (Re.cset_mem to_eol) run = true ->
  forallb (Re.cset_mem to_eol) (run ++ m ++ c) = true.
Proof.
  intros F. rewrite !forallb_app, F. cbn [andb].
  assert (Fc : forallb (Re.cset_mem to_eol) c = true).
  { apply forallb_forall. intros x I.
    destruct (Re.cset_mem to_eol x) eqn:E; [reflexivity|].
    destruct (to_eol_stop x E) as [-> | ->]; contradiction. }
  rewrite Fc. destruct Hm as [-> | ->]; reflexivity.
Qed.

Lemma tail_stop :
  tail = [] \/ (exists d t, tail = d :: t /\ Re.cset_mem to_eol d = false).
Proof.
  destruct Htail as [-> | ->]; [auto|]. right. exists LF, []. auto.
Qed.

Lemma tail_facts :
  Scan to_eol tail [tail] /\ cJSONStr.is_marked tail = false
  /\ strip is_blank tail = tail.
Proof.
  destruct Htail as [-> | ->]; (split; [|split]);
    try (apply Scan_end; vm_compute; reflexivity); vm_compute; reflexivity.
Qed.

Lemma run_token (h run : text) :
  h = [HASH] \/ h = [SLASH; SLASH] ->
  forallb (Re.cset_mem to_eol) run = true ->
  token_at to_eol ((h ++ run) ++ tail) = Some (h ++ run, tail).
Proof.
  intros Hh F. rewrite <- app_assoc, (comment_token_any to_eol h _ Hh).
  rewrite (comment_run_stop to_eol run tail F tail_stop).
  reflexivity.
Qed.

(** The scan of a text with the comment after it: the scan of the text,
    with the comment as one more token or as the end of the last one. *)
Lemma trailing_scan (code : text) (L : list text) :
  Scan to_eol code L ->
  (m = [SLASH; SLASH] -> forall x, code <> x ++ [SLASH]) ->
  exists L',
    Scan to_eol (code ++ m ++ c ++ tail) L'
    /\ cleaned L' = cleaned L ++ tail
    /\ length L <= length L'.
Proof.
  destruct trailer_no_quote as [ZD ZS].
  destruct tail_facts as [St [Ct1 Ct2]].
  assert (Mm : forall x, cJSONStr.is_marked (m ++ x) = true).
  { intros x. apply is_marked_app. destruct Hm as [-> | ->]; reflexivity. }
  assert (Sm : m = [HASH] -> startswith (m ++ c ++ tail) [SLASH] = false).
  { intros ->. vm_compute. reflexivity. }
  induction 1 as [code E | code pre t r L E H IH]; intros Ok.
  - exists [code; m ++ c; tail]. split; [|split; [|simpl; lia]].
    + apply (Scan_tok to_eol _ code (m ++ c) tail); [|exact St].
      replace (code ++ m ++ c ++ tail) with (code ++ (m ++ c) ++ tail)
        by (rewrite <- !app_assoc; reflexivity).
      apply search_intro.
      * intros u1 x u2 Eu. rewrite <- app_assoc.
        apply opens_ext; [exact ZD | exact ZS | |].
        -- intros -> ->. destruct Hm as [Em | Em]; [exact (Sm Em)|].
           exfalso. exact (Ok Em u1 Eu).
        -- pose proof (search_none _ _ E u1 x u2 Eu) as O.
           rewrite app_nil_r in O. exact O.
      * apply (run_token m c Hm).
        pose proof (comment_chars [] eq_refl) as F. cbn [app] in F.
        rewrite forallb_app in F. apply andb_true_iff in F as [_ F]. exact F.
    + rewrite !cleaned_cons, (Mm c), Ct1, Ct2.
      change (cleaned []) with (@nil ascii). rewrite !app_nil_r. reflexivity.
  - destruct (search_some _ _ _ _ _ E) as [Ec [Q T]].
    assert (V : t ++ r <> []).
    { intros N. pose proof (token_nonempty _ _ _ _ T) as K. rewrite N in K.
      simpl in K. lia. }
    assert (A : r <> [] \/ (exists q b, t = q :: b /\ (q = DQ \/ q = SQ)) ->
                exists L',
                  Scan to_eol (code ++ m ++ c ++ tail) L'
                  /\ cleaned L' = cleaned (pre :: t :: L) ++ tail
                  /\ length (pre :: t :: L) <= length L').
    { intros D.
      assert (Okr : m = [SLASH; SLASH] -> forall x, r <> x ++ [SLASH]).
      { destruct r as [|d r'].
        - intros _ x N. destruct x; discriminate.
        - apply (ends_ok_suffix (pre ++ t)); [|discriminate].
          rewrite <- app_assoc, <- Ec. exact Ok. }
      destruct (IH Okr) as [L' [S' [C' B']]].
      exists (pre :: t :: L'). split; [|split; [|simpl in *; lia]].
      - apply (Scan_tok to_eol _ pre t (r ++ m ++ c ++ tail)); [|exact S'].
        rewrite Ec.
        replace ((pre ++ t ++ r) ++ m ++ c ++ tail)
          with (pre ++ t ++ (r ++ m ++ c ++ tail))
          by (rewrite <- !app_assoc; reflexivity).
        apply search_intro.
        + rewrite app_assoc. apply quiet_ext; assumption.
        + rewrite app_assoc. apply token_at_ext; assumption.
      - rewrite (cleaned_cons pre), (cleaned_cons t), C'.
        rewrite (cleaned_cons pre), (cleaned_cons t), <- !app_assoc.
        reflexivity. }
    destruct (token_shape _ _ _ _ T) as [_ [Li | Co]].
    { destruct Li as [q [b [Hq [Et _]]]]. apply A. right.
      exists q, (b ++ [q]). auto. }
    destruct r as [|d r']; [|apply A; left; discriminate].
    destruct (comment_facts _ _ Co) as [Mt _].
    destruct Co as [[h [run [Et [Hh F]]]] _].
    apply Scan_nil in H. subst L.
    exists [pre; t ++ m ++ c; tail]. split; [|split; [|simpl; lia]].
    + apply (Scan_tok to_eol _ pre (t ++ m ++ c) tail); [|exact St].
      rewrite Ec, app_nil_r.
      replace ((pre ++ t) ++ m ++ c ++ tail)
        with (pre ++ (t ++ m ++ c) ++ tail)
        by (rewrite <- !app_assoc; reflexivity).
      apply search_intro.
      * replace ((t ++ m ++ c) ++ tail) with ((t ++ []) ++ m ++ c ++ tail)
          by (rewrite app_nil_r, <- !app_assoc; reflexivity).
        apply quiet_ext; assumption.
      * rewrite Et.
        replace ((h ++ run) ++ m ++ c) with (h ++ run ++ m ++ c)
          by (rewrite <- !app_assoc; reflexivity).
        apply (run_token h (run ++ m ++ c) Hh).
        exact (comment_chars run F).
    + rewrite !cleaned_cons, Mt, (is_marked_app t (m ++ c) Mt), Ct1, Ct2.
      change (cleaned []) with (@nil ascii).
      change (cJSONStr.is_marked []) with false.
      change (strip is_blank []) with (@nil ascii).
      rewrite <- !app_assoc, !app_nil_r. reflexivity.
Qed.

End TrailingComment.

(** A comment that ends the text, or stands before its final line feed,
    is taken out by [cJSONStr] and leaves what [cJSONStr] makes of the
    text before it, then the line feed: the comment holds no quote, the
    text does not end with a slash that would join the two slashes of
    the comment, and the whole is within the limit of the split. *)
Theorem str_trailing_comment_removed (code m c tail : text) :
  m = [HASH] \/ m = [SLASH; SLASH] ->
  ~ In DQ c -> ~ In SQ c -> ~ In CR c -> ~ In LF c ->
  tail = [] \/ tail = [LF] ->
  (m = [SLASH; SLASH] -> forall x, code <> x ++ [SLASH]) ->
  tokens (code ++ m ++ c ++ tail) <= Re.MULTILINE ->
  cJSONStr.__new__ (code ++ m ++ c ++ tail) = cJSONStr.__new__ code ++ tail.
Proof.
  intros Hm c1 c2 c3 c4 Ht Ok B.
  destruct (Scan_total to_eol code) as [L H].
  destruct (trailing_scan m c tail Hm c1 c2 c3 c4 Ht code L H Ok)
    as [L' [H' [C' B']]].
  pose proof (tokens_bound _ _ H' B) as K.
  rewrite (new_cleaned _ _ H' K), C'. f_equal. symmetry.
  apply (new_cleaned _ _ H). lia.
Qed.

Lemma str_trailing_comment_removed_witness :
  cJSONStr.__new__ (py "{`a`: `#1`, " ++ [SLASH; SLASH] ++ py " note" ++ [LF])
  = cJSONStr.__new__ (py "{`a`: `#1`, ") ++ [LF].
Proof.
  apply (str_trailing_comment_removed
           (py "{`a`: `#1`, ") [SLASH; SLASH] (py " note") [LF]).
  - right. reflexivity.
  - apply existsb_eqb_notIn. reflexivity.
  - apply existsb_eqb_notIn. reflexivity.
  - apply existsb_eqb_notIn. reflexivity.
  - apply existsb_eqb_notIn. reflexivity.
  - right. reflexivity.
  - intros _ x E. apply (f_equal (@rev ascii)) in E.
    rewrite rev_app_distr in E. vm_compute in E. discriminate E.
  - vm_compute. lia.
Defined.

(** A line of the file made of text without quoted span, hash or two
    slashes, then a comment, then the line feed if there is one, comes
    back from [cJSONFile._clean] as the text without the blanks around
    it, then the line feed. *)
Theorem file_trailing_comment_removed (code m c tail : text) :
  m = [HASH] \/ m = [SLASH; SLASH] ->
  ~ In DQ c -> ~ In SQ c -> ~ In CR c -> ~ In LF c ->
  tail = [] \/ tail = [LF] ->
  (m = [SLASH; SLASH] -> forall x, code <> x ++ [SLASH]) ->
  ~ In CR code ->
  ~ quoted code -> ~ In HASH code -> contains [SLASH; SLASH] code = false ->
  cJSONFile._clean (code ++ m ++ c ++ tail) = strip is_blank code ++ tail.
Proof.
  intros Hm c1 c2 c3 c4 Ht Ok NC Q NH NS.
  assert (E : Re.search (marks to_eol) code = None)
    by (apply search_quiet_none, plain_quiet; assumption).
  destruct (trailing_scan m c tail Hm c1 c2 c3 c4 Ht code [code]
              (Scan_end to_eol code E) Ok) as [L' [H' [C' _]]].
  assert (NCl : ~ In CR (code ++ m ++ c ++ tail)).
  { intros I. apply in_app_or in I as [I | I]; [exact (NC I)|].
    apply in_app_or in I as [I | I].
    - destruct Hm as [-> | ->]; revert I; apply existsb_eqb_notIn; reflexivity.
    - apply in_app_or in I as [I | I]; [exact (c3 I)|].
      destruct Ht as [-> | ->]; revert I; apply existsb_eqb_notIn; reflexivity. }
  assert (M : contains [HASH] (code ++ m ++ c ++ tail)
              || contains [SLASH; SLASH] (code ++ m ++ c ++ tail) = true).
  { destruct Hm as [-> | ->].
    - rewrite (contains_intro [HASH] code (c ++ tail)). reflexivity.
    - rewrite (contains_intro [SLASH; SLASH] code (c ++ tail)).
      apply orb_true_r. }
  rewrite (file_clean_cleaned to_eol _ L' H' (split_no_CR _ NCl) M), C'.
  rewrite cleaned_cons, (search_none_unmarked _ _ E).
  change (cleaned []) with (@nil ascii). rewrite app_nil_r. reflexivity.
Qed.

Lemma file_trailing_comment_removed_witness :
  cJSONFile._clean (py "  [1, 2],  " ++ [HASH] ++ py " one" ++ [LF])
  = py "[1, 2]," ++ [LF].
Proof.
  apply (file_trailing_comment_removed (py "  [1, 2],  ") [HASH] (py " one") [LF]).
  - left. reflexivity.
  - apply existsb_eqb_notIn. reflexivity.
  - apply existsb_eqb_notIn. reflexivity.
  - apply existsb_eqb_notIn. reflexivity.
  - apply existsb_eqb_notIn. reflexivity.
  - right. reflexivity.
  - intros E. discriminate E.
  - apply existsb_eqb_notIn. reflexivity.
  - apply no_quote_not_quoted; apply existsb_eqb_notIn; reflexivity.
  - apply existsb_eqb_notIn. reflexivity.
  - reflexivity.
Defined.

(** ** The methods of [cJSONFile] one after another *)

Section Sequences.

Import Io cJSONFile.

Lemma enter_held (self : t) (h : file) (ls : list text) (w : world) :
  __enter__ (holding self h ls w) = (inr tt, holding self h ls w).
Proof. reflexivity. Qed.

Lemma iter_held (self : t) (h : file) (ls : list text) (w : world) :
  __iter__ (holding self h ls w) = (inr tt, holding self h ls w).
Proof. reflexivity. Qed.

Lemma enter_released (w : world) (path mode : text) (enc : option text)
      (content : text) (fl : flags) :
  fs_get (w_fs w) path = Some content ->
  parse_mode mode = Some fl -> reading fl = true -> binary fl = false ->
  resolves w enc = true ->
  __enter__ (instance path mode enc None, w)
  = (inr tt, (instance path mode enc (Some (fresh path mode enc content)),
              log (Opened path mode enc) w)).
Proof.
  intros G P R B K. unfold __enter__, bind, self_file, _open.
  cbn [fst snd instance _file _file_path _mode _encoding].
  rewrite (open_reading w path mode enc content fl G P R B K). reflexivity.
Qed.

Lemma with_read_held (self : t) (h : file) (ls : list text) (w : world) :
  ready h ->
  with_block read (holding self h ls w)
  = (inr (join (map _clean (filter wanted ls))), released self h w).
Proof.
  intros R. unfold with_block, bind at 1. rewrite enter_held.
  cbv iota beta. rewrite (read_spec self h w R ls). unfold bind, __exit__.
  rewrite (close_held self h w R []). reflexivity.
Qed.

Lemma first_wanted_some (ls : list text) :
  (exists l, In l ls /\ _is_comment l = false) ->
  exists x rest, first_wanted ls = Some (x, rest).
Proof.
  induction ls as [|l ls IH]; intros [y [I W]]; [contradiction|].
  cbn [first_wanted]. destruct (wanted l) eqn:E; [eauto|].
  apply IH. destruct I as [-> | I]; [|eauto].
  unfold wanted in E. rewrite W in E. discriminate.
Qed.

Lemma first_wanted_none (ls : list text) :
  (forall l, In l ls -> _is_comment l = true) -> first_wanted ls = None.
Proof.
  induction ls as [|l ls IH]; intros H; [reflexivity|].
  cbn [first_wanted]. unfold wanted. rewrite (H l (or_introl eq_refl)).
  apply IH. intros y I. apply H. right. exact I.
Qed.

End Sequences.

(** A [with] statement around [read], on an instance made for reading a
    file in a text mode with an encoding that resolves, returns the
    cleaned lines that are no whole-line comments, joined, closes the
    file and leaves the instance without it; a second [with] on the same
    instance opens the file again with the stored path, mode and encoding
    (the three are in the event of the opening), returns the same text
    and closes the file again. *)
Theorem with_read_restarts :
  forall (w : Io.world) (path mode : text) (enc : option text)
         (content : text) (fl : Io.flags),
    Io.fs_get (Io.w_fs w) path = Some content ->
    Io.parse_mode mode = Some fl ->
    Io.reading fl = true -> Io.binary fl = false ->
    Io.resolves w enc = true ->
    let out := join (map cJSONFile._clean
                      (filter wanted
                         (Io.splitlines (Io.universal_newlines content)))) in
    let closed := instance path mode enc None in
    let w1 := Io.log (Io.Closed path) (Io.log (Io.Opened path mode enc) w) in
    let w2 := Io.log (Io.Closed path) (Io.log (Io.Opened path mode enc) w1) in
    exists self w0,
      cJSONFile.__init__ path mode enc w = (inr self, w0)
      /\ cJSONFile.with_block cJSONFile.read (self, w0)
         = (inr out, (closed, w1))
      /\ cJSONFile.with_block cJSONFile.read (closed, w1)
         = (inr out, (closed, w2)).
Proof.
  intros w path mode enc content fl G P R B K out closed w1 w2.
  exists (instance path mode enc (Some (fresh path mode enc content))),
    (Io.log (Io.Opened path mode enc) w).
  split; [apply (init_reading _ _ _ _ _ _ G P R B K)|].
  pose proof (fresh_ready path mode enc content) as Rd.
  split.
  - exact (with_read_held closed (fresh path mode enc content)
             (Io.splitlines (Io.universal_newlines content))
             (Io.log (Io.Opened path mode enc) w) Rd).
  - unfold cJSONFile.with_block, cJSONFile.bind at 1.
    unfold closed at 1.
    rewrite (enter_released w1 path mode enc content fl G P R B K).
    cbv iota beta.
    change (instance path mode enc (Some (fresh path mode enc content)),
            Io.log (Io.Opened path mode enc) w1)
      with (holding closed (fresh path mode enc content)
                    (Io.splitlines (Io.universal_newlines content))
                    (Io.log (Io.Opened path mode enc) w1)).
    rewrite (read_spec _ _ _ Rd). unfold cJSONFile.bind, cJSONFile.__exit__.
    rewrite (close_held _ _ _ Rd). reflexivity.
Qed.

Lemma with_read_restarts_witness :
  exists self w0 st,
    cJSONFile.__init__ (py "commented.json") (py "r") (Some (py "utf-8"))
                       Demo.disk = (inr self, w0)
    /\ cJSONFile.with_block cJSONFile.read (self, w0)
       = (inr (join Demo.cleaned_lines), st)
    /\ cJSONFile._file (fst st) = None
    /\ exists st', cJSONFile.with_block cJSONFile.read st
                   = (inr (join Demo.cleaned_lines), st').
Proof.
  destruct (with_read_restarts Demo.disk (py "commented.json") (py "r")
              (Some (py "utf-8")) demo_raw
              {| Io.creating := false; Io.reading := true;
                 Io.writing := false; Io.appending := false;
                 Io.updating := false; Io.as_text := false;
                 Io.binary := false |})
    as [self [w0 [H1 [H2 H3]]]].
  - reflexivity.
  - reflexivity.
  - reflexivity.
  - reflexivity.
  - reflexivity.
  - exists self, w0. eexists. split; [exact H1|]. split; [exact H2|].
    split; [reflexivity|]. eexists. exact H3.
Defined.

(** On an instance that holds no file, [readline], [__next__],
    [readlines] and [read] raise [TypeError] and leave the instance and
    the files as they are: none of them opens the file again. *)
Theorem released_instance_cannot_be_read (self : cJSONFile.t) (w : Io.world) :
  let st := (cJSONFile.set_file self None, w) in
  cJSONFile.readline st = (inl Io.TypeError, st)
  /\ cJSONFile.__next__ st = (inl Io.TypeError, st)
  /\ cJSONFile.readlines st = (inl Io.TypeError, st)
  /\ cJSONFile.read st = (inl Io.TypeError, st).
Proof. repeat split. Qed.

(** After [read], nothing is left to read and the file is still held:
    a second [read] and a [readline] return the empty text. *)
Theorem read_leaves_nothing (self : cJSONFile.t) (h : Io.file)
        (ls : list text) (w : Io.world) :
  ready h ->
  cJSONFile.bind cJSONFile.read (fun a =>
    cJSONFile.bind cJSONFile.read (fun b =>
      cJSONFile.bind cJSONFile.readline (fun c =>
        cJSONFile.ret (a, b, c))))
    (holding self h ls w)
  = (inr (join (map cJSONFile._clean (filter wanted ls)), [], []),
     holding self h [] w).
Proof.
  intros R. unfold cJSONFile.bind at 1. rewrite (read_spec self h w R ls).
  unfold cJSONFile.bind at 1. rewrite (read_spec self h w R []).
  unfold cJSONFile.bind at 1. rewrite (readline_spec self h w R []).
  reflexivity.
Qed.

Lemma read_leaves_nothing_witness :
  cJSONFile.bind cJSONFile.read (fun a =>
    cJSONFile.bind cJSONFile.read (fun b =>
      cJSONFile.bind cJSONFile.readline (fun c =>
        cJSONFile.ret (a, b, c))))
    (holding (instance (py "commented.json") (py "r") None None)
             (fresh (py "commented.json") (py "r") None demo_raw)
             (Io.splitlines demo_raw) Demo.disk)
  = (inr (join Demo.cleaned_lines, [], []),
     holding (instance (py "commented.json") (py "r") None None)
             (fresh (py "commented.json") (py "r") None demo_raw)
             [] Demo.disk).
Proof.
  apply (read_leaves_nothing
           (instance (py "commented.json") (py "r") None None)
           (fresh (py "commented.json") (py "r") None demo_raw)
           (Io.splitlines demo_raw) Demo.disk).
  apply fresh_ready.
Defined.

(** While a line that is no whole-line comment is left, [readline] and
    [__next__] do the same: the same line returned, the same lines left. *)
Theorem readline_agrees_with_next (self : cJSONFile.t) (h : Io.file)
        (ls : list text) (w : Io.world) :
  ready h ->
  (exists l, In l ls /\ cJSONFile._is_comment l = false) ->
  cJSONFile.readline (holding self h ls w)
  = cJSONFile.__next__ (holding self h ls w).
Proof.
  intros R E. rewrite (readline_spec self h w R ls), (next_spec self h w R ls).
  destruct (first_wanted_some ls E) as [x [rest ->]]. reflexivity.
Qed.

Lemma readline_agrees_with_next_witness :
  cJSONFile.readline
    (holding (instance (py "commented.json") (py "r") None None)
             (fresh (py "commented.json") (py "r") None demo_raw)
             [py "  // Integer\n"; py "1\n"] Demo.disk)
  = cJSONFile.__next__
      (holding (instance (py "commented.json") (py "r") None None)
               (fresh (py "commented.json") (py "r") None demo_raw)
               [py "  // Integer\n"; py "1\n"] Demo.disk).
Proof.
  apply (readline_agrees_with_next
           (instance (py "commented.json") (py "r") None None)
           (fresh (py "commented.json") (py "r") None demo_raw)
           [py "  // Integer\n"; py "1\n"] Demo.disk).
  - apply fresh_ready.
  - exists (py "1\n"). split; [right; left; reflexivity | reflexivity].
Defined.

(** When only whole-line comments are left, or nothing, [readline]
    returns the empty text and keeps the file, at its end, while
    [__next__] raises [StopIteration], closes the file and drops it. *)
Theorem end_of_lines (self : cJSONFile.t) (h : Io.file)
        (ls : list text) (w : Io.world) :
  ready h ->
  (forall l, In l ls -> cJSONFile._is_comment l = true) ->
  cJSONFile.readline (holding self h ls w) = (inr [], holding self h [] w)
  /\ cJSONFile.__next__ (holding self h ls w)
     = (inl Io.StopIteration, released self h w).
Proof.
  intros R E. rewrite (readline_spec self h w R ls), (next_spec self h w R ls).
  rewrite (first_wanted_none ls E). split; reflexivity.
Qed.

Lemma end_of_lines_witness :
  cJSONFile.readline
    (holding (instance (py "commented.json") (py "r") None None)
             (fresh (py "commented.json") (py "r") None demo_raw)
             [py "# a\n"; py "  // b"] Demo.disk)
  = (inr [],
     holding (instance (py "commented.json") (py "r") None None)
             (fresh (py "commented.json") (py "r") None demo_raw)
             [] Demo.disk)
  /\ cJSONFile.__next__
       (holding (instance (py "commented.json") (py "r") None None)
                (fresh (py "commented.json") (py "r") None demo_raw)
                [py "# a\n"; py "  // b"] Demo.disk)
     = (inl Io.StopIteration,
        released (instance (py "commented.json") (py "r") None None)
                 (fresh (py "commented.json") (py "r") None demo_raw)
                 Demo.disk).
Proof.
  apply (end_of_lines
           (instance (py "commented.json") (py "r") None None)
           (fresh (py "commented.json") (py "r") None demo_raw)
           [py "# a\n"; py "  // b"] Demo.disk).
  - apply fresh_ready.
  - intros l [<- | [<- | []]]; reflexivity.
Defined.

(** A [for] loop after a [readline] goes on with the line after the one
    read: [__iter__] does not open the held file again, [readline] gets
    the first cleaned line, the loop the others, and the loop ends with
    the file closed and dropped. *)
Theorem loop_after_readline (self : cJSONFile.t) (h : Io.file)
        (ls : list text) (w : Io.world) (n : nat) :
  ready h -> length ls < n ->
  cJSONFile.bind cJSONFile.readline (fun x =>
    cJSONFile.bind (cJSONFile.for_loop n) (fun xs => cJSONFile.ret (x, xs)))
    (holding self h ls w)
  = (inr (hd [] (map cJSONFile._clean (filter wanted ls)),
          Some (tl (map cJSONFile._clean (filter wanted ls)))),
     released self h w).
Proof.
  intros R Hn. unfold cJSONFile.bind at 1.
  rewrite (readline_spec self h w R ls), (first_wanted_filter ls).
  destruct (first_wanted ls) as [[x rest]|] eqn:E.
  - apply first_wanted_length in E.
    unfold cJSONFile.bind at 1, cJSONFile.for_loop, cJSONFile.bind at 1.
    rewrite iter_held. cbv iota beta.
    rewrite (for_rounds_spec self h w R n rest) by lia. reflexivity.
  - unfold cJSONFile.bind at 1, cJSONFile.for_loop, cJSONFile.bind at 1.
    rewrite iter_held. cbv iota beta.
    rewrite (for_rounds_spec self h w R n []) by (simpl; lia). reflexivity.
Qed.

Lemma loop_after_readline_witness :
  cJSONFile.bind cJSONFile.readline (fun x =>
    cJSONFile.bind (cJSONFile.for_loop 8) (fun xs => cJSONFile.ret (x, xs)))
    (holding (instance (py "commented.json") (py "r") None None)
             (fresh (py "commented.json") (py "r") None demo_raw)
             (Io.splitlines demo_raw) Demo.disk)
  = (inr (hd [] Demo.cleaned_lines, Some (tl Demo.cleaned_lines)),
     released (instance (py "commented.json") (py "r") None None)
              (fresh (py "commented.json") (py "r") None demo_raw)
              Demo.disk).
Proof.
  apply (loop_after_readline
           (instance (py "commented.json") (py "r") None None)
           (fresh (py "commented.json") (py "r") None demo_raw)
           (Io.splitlines demo_raw) Demo.disk 8).
  - apply fresh_ready.
  - vm_compute. lia.
Defined.

(** ** Binary modes *)

(** Whatever the mode, when it holds the letter [b] and an encoding is
    given, as the default [utf-8] is, [__init__] raises [ValueError] and
    opens nothing: by its own test for the modes of its tuple, by
    [open] for the others. *)
Theorem binary_mode_with_encoding_raises (path mode e : text) (w : Io.world) :
  Io.has "b"%char mode = true ->
  cJSONFile.__init__ path mode (Some e) w = (inl Io.ValueError, w).
Proof.
  intros Hb. unfold cJSONFile.__init__.
  destruct (existsb (Io.text_eqb mode) cJSONFile.binary_modes);
    [reflexivity|].
  unfold cJSONFile.bind, cJSONFile._open, Io.open.
  cbn [cJSONFile._file_path cJSONFile._mode cJSONFile._encoding].
  destruct (Io.has NUL e); [reflexivity|].
  destruct (Io.parse_mode mode) as [fl|] eqn:P; [|reflexivity].
  destruct (parse_mode_flags mode fl P) as [B _]. rewrite B, Hb. reflexivity.
Qed.

Lemma binary_mode_with_encoding_raises_witness :
  cJSONFile.__init__ (py "commented.json") (py "ab+") (Some (py "utf-8"))
                     Demo.disk
  = (inl Io.ValueError, Demo.disk).
Proof.
  apply (binary_mode_with_encoding_raises
           (py "commented.json") (py "ab+") (py "utf-8") Demo.disk).
  reflexivity.
Defined.

(** On a file opened in a binary mode no line can be read: [readline],
    [__next__], [readlines] and [read] take the first line from the file
    and raise [TypeError] at the test for a comment. *)
Theorem binary_lines_cannot_be_read (self : cJSONFile.t) (h : Io.file)
        (l : text) (ls : list text) (w : Io.world) :
  Io.f_closed h = false -> Io.f_readable h = true -> Io.f_binary h = true ->
  cJSONFile.readline (holding self h (l :: ls) w)
  = (inl Io.TypeError, holding self h ls w)
  /\ cJSONFile.__next__ (holding self h (l :: ls) w)
     = (inl Io.TypeError, holding self h ls w)
  /\ cJSONFile.readlines (holding self h (l :: ls) w)
     = (inl Io.TypeError, holding self h ls w)
  /\ cJSONFile.read (holding self h (l :: ls) w)
     = (inl Io.TypeError, holding self h ls w).
Proof.
  intros Hc Hr Hb.
  assert (N : cJSONFile.next_file (holding self h (l :: ls) w)
              = (inr l, holding self h ls w)).
  { unfold cJSONFile.next_file, holding, cJSONFile.bind, cJSONFile.self_file,
      Io.next, cJSONFile.assign_file, cJSONFile.ret.
    simpl. rewrite Hc, Hr. reflexivity. }
  assert (C : cJSONFile.not_comment l (holding self h ls w)
              = (inl Io.TypeError, holding self h ls w)).
  { unfold cJSONFile.not_comment, holding, cJSONFile.bind,
      cJSONFile.self_file, cJSONFile.raise. simpl. rewrite Hb. reflexivity. }
  assert (L : cJSONFile.readlines (holding self h (l :: ls) w)
              = (inl Io.TypeError, holding self h ls w)).
  { unfold cJSONFile.readlines. cbn [cJSONFile.readlines_rounds].
    unfold cJSONFile.bind at 1, cJSONFile.catch. unfold cJSONFile.bind at 1.
    rewrite N. cbv iota beta. unfold cJSONFile.ret at 1.
    unfold cJSONFile.bind at 1. rewrite C. reflexivity. }
  split; [|split; [|split]].
  - unfold cJSONFile.readline. cbn [cJSONFile.readline_rounds].
    unfold cJSONFile.bind at 1, cJSONFile.catch. unfold cJSONFile.bind at 1.
    rewrite N. cbv iota beta. unfold cJSONFile.ret at 1.
    unfold cJSONFile.bind at 1. rewrite C. reflexivity.
  - unfold cJSONFile.__next__. cbn [cJSONFile.next_rounds].
    unfold cJSONFile.bind at 1, cJSONFile.catch. rewrite N.
    unfold cJSONFile.bind at 1. rewrite C. reflexivity.
  - exact L.
  - unfold cJSONFile.read, cJSONFile.bind. rewrite L. reflexivity.
Qed.

Lemma binary_lines_cannot_be_read_witness :
  exists self w0 st,
    cJSONFile.__init__ (py "commented.json") (py "br") None Demo.disk
    = (inr self, w0)
    /\ cJSONFile.readline (self, w0) = (inl Io.TypeError, st)
    /\ cJSONFile.read (self, w0) = (inl Io.TypeError, st).
Proof.
  pose (h := {| Io.f_name := py "commented.json"; Io.f_mode := py "rb";
                Io.f_encoding := None; Io.f_binary := true;
                Io.f_readable := true; Io.f_lines := [];
                Io.f_closed := false |}).
  destruct (binary_lines_cannot_be_read
              (instance (py "commented.json") (py "br") None None) h
              (py "{\n") (tl (Io.splitlines demo_raw))
              (Io.log (Io.Opened (py "commented.json") (py "br") None) Demo.disk)
              eq_refl eq_refl eq_refl) as [H1 [_ [_ H4]]].
  eexists. eexists. eexists. split; [vm_compute; reflexivity|].
  split; [exact H1 | exact H4].
Defined.
